(** * Haraka-512 meet-in-the-middle demonstrator: model and properties

    A shallow embedding of [haraka.cpp]: the GF(2^8) lookup tables, the
    byte-oriented AES round primitives, the Haraka-512 permutation in its
    portable and AES-NI forms, the partial forward and backward evaluators
    of the attack, the recombination step and the two worker loops of the
    search.

    Conventions.  A [uint8_t] is a [Z] in [0, 256) (predicate [byte]);
    [^] on bytes is [Z.lxor].  An [array<uint8_t, N>] is a [list Z]; an
    in-place store [a[i] = v] is [set a i v] and the code is written as the
    chain of stores the source performs, in its order.  Array indices and
    the small loop counters ([int] in the source, always compile-time
    bounded) are [nat].  A function of the source that mutates an argument
    passed by reference returns the new value of that argument. *)

From Stdlib Require Import ZArith List Lia Bool Btauto FinFun.
Import ListNotations.
Open Scope Z_scope.

(** ** Constants *)

Definition table2 : list Z :=
 [
  0; 2; 4; 6; 8; 10; 12; 14; 16; 18; 20; 22; 24; 26; 28; 30;
  32; 34; 36; 38; 40; 42; 44; 46; 48; 50; 52; 54; 56; 58; 60; 62;
  64; 66; 68; 70; 72; 74; 76; 78; 80; 82; 84; 86; 88; 90; 92; 94;
  96; 98; 100; 102; 104; 106; 108; 110; 112; 114; 116; 118; 120; 122; 124; 126;
  128; 130; 132; 134; 136; 138; 140; 142; 144; 146; 148; 150; 152; 154; 156; 158;
  160; 162; 164; 166; 168; 170; 172; 174; 176; 178; 180; 182; 184; 186; 188; 190;
  192; 194; 196; 198; 200; 202; 204; 206; 208; 210; 212; 214; 216; 218; 220; 222;
  224; 226; 228; 230; 232; 234; 236; 238; 240; 242; 244; 246; 248; 250; 252; 254;
  27; 25; 31; 29; 19; 17; 23; 21; 11; 9; 15; 13; 3; 1; 7; 5;
  59; 57; 63; 61; 51; 49; 55; 53; 43; 41; 47; 45; 35; 33; 39; 37;
  91; 89; 95; 93; 83; 81; 87; 85; 75; 73; 79; 77; 67; 65; 71; 69;
  123; 121; 127; 125; 115; 113; 119; 117; 107; 105; 111; 109; 99; 97; 103; 101;
  155; 153; 159; 157; 147; 145; 151; 149; 139; 137; 143; 141; 131; 129; 135; 133;
  187; 185; 191; 189; 179; 177; 183; 181; 171; 169; 175; 173; 163; 161; 167; 165;
  219; 217; 223; 221; 211; 209; 215; 213; 203; 201; 207; 205; 195; 193; 199; 197;
  251; 249; 255; 253; 243; 241; 247; 245; 235; 233; 239; 237; 227; 225; 231; 229
 ].

Definition table3 : list Z :=
 [
  0; 3; 6; 5; 12; 15; 10; 9; 24; 27; 30; 29; 20; 23; 18; 17;
  48; 51; 54; 53; 60; 63; 58; 57; 40; 43; 46; 45; 36; 39; 34; 33;
  96; 99; 102; 101; 108; 111; 106; 105; 120; 123; 126; 125; 116; 119; 114; 113;
  80; 83; 86; 85; 92; 95; 90; 89; 72; 75; 78; 77; 68; 71; 66; 65;
  192; 195; 198; 197; 204; 207; 202; 201; 216; 219; 222; 221; 212; 215; 210; 209;
  240; 243; 246; 245; 252; 255; 250; 249; 232; 235; 238; 237; 228; 231; 226; 225;
  160; 163; 166; 165; 172; 175; 170; 169; 184; 187; 190; 189; 180; 183; 178; 177;
  144; 147; 150; 149; 156; 159; 154; 153; 136; 139; 142; 141; 132; 135; 130; 129;
  155; 152; 157; 158; 151; 148; 145; 146; 131; 128; 133; 134; 143; 140; 137; 138;
  171; 168; 173; 174; 167; 164; 161; 162; 179; 176; 181; 182; 191; 188; 185; 186;
  251; 248; 253; 254; 247; 244; 241; 242; 227; 224; 229; 230; 239; 236; 233; 234;
  203; 200; 205; 206; 199; 196; 193; 194; 211; 208; 213; 214; 223; 220; 217; 218;
  91; 88; 93; 94; 87; 84; 81; 82; 67; 64; 69; 70; 79; 76; 73; 74;
  107; 104; 109; 110; 103; 100; 97; 98; 115; 112; 117; 118; 127; 124; 121; 122;
  59; 56; 61; 62; 55; 52; 49; 50; 35; 32; 37; 38; 47; 44; 41; 42;
  11; 8; 13; 14; 7; 4; 1; 2; 19; 16; 21; 22; 31; 28; 25; 26
 ].

Definition table7 : list Z :=
 [
  0; 7; 14; 9; 28; 27; 18; 21; 56; 63; 54; 49; 36; 35; 42; 45;
  112; 119; 126; 121; 108; 107; 98; 101; 72; 79; 70; 65; 84; 83; 90; 93;
  224; 231; 238; 233; 252; 251; 242; 245; 216; 223; 214; 209; 196; 195; 202; 205;
  144; 151; 158; 153; 140; 139; 130; 133; 168; 175; 166; 161; 180; 179; 186; 189;
  219; 220; 213; 210; 199; 192; 201; 206; 227; 228; 237; 234; 255; 248; 241; 246;
  171; 172; 165; 162; 183; 176; 185; 190; 147; 148; 157; 154; 143; 136; 129; 134;
  59; 60; 53; 50; 39; 32; 41; 46; 3; 4; 13; 10; 31; 24; 17; 22;
  75; 76; 69; 66; 87; 80; 89; 94; 115; 116; 125; 122; 111; 104; 97; 102;
  173; 170; 163; 164; 177; 182; 191; 184; 149; 146; 155; 156; 137; 142; 135; 128;
  221; 218; 211; 212; 193; 198; 207; 200; 229; 226; 235; 236; 249; 254; 247; 240;
  77; 74; 67; 68; 81; 86; 95; 88; 117; 114; 123; 124; 105; 110; 103; 96;
  61; 58; 51; 52; 33; 38; 47; 40; 5; 2; 11; 12; 25; 30; 23; 16;
  118; 113; 120; 127; 106; 109; 100; 99; 78; 73; 64; 71; 82; 85; 92; 91;
  6; 1; 8; 15; 26; 29; 20; 19; 62; 57; 48; 55; 34; 37; 44; 43;
  150; 145; 152; 159; 138; 141; 132; 131; 174; 169; 160; 167; 178; 181; 188; 187;
  230; 225; 232; 239; 250; 253; 244; 243; 222; 217; 208; 215; 194; 197; 204; 203
 ].

Definition table13 : list Z :=
 [
  0; 13; 26; 23; 52; 57; 46; 35; 104; 101; 114; 127; 92; 81; 70; 75;
  208; 221; 202; 199; 228; 233; 254; 243; 184; 181; 162; 175; 140; 129; 150; 155;
  187; 182; 161; 172; 143; 130; 149; 152; 211; 222; 201; 196; 231; 234; 253; 240;
  107; 102; 113; 124; 95; 82; 69; 72; 3; 14; 25; 20; 55; 58; 45; 32;
  109; 96; 119; 122; 89; 84; 67; 78; 5; 8; 31; 18; 49; 60; 43; 38;
  189; 176; 167; 170; 137; 132; 147; 158; 213; 216; 207; 194; 225; 236; 251; 246;
  214; 219; 204; 193; 226; 239; 248; 245; 190; 179; 164; 169; 138; 135; 144; 157;
  6; 11; 28; 17; 50; 63; 40; 37; 110; 99; 116; 121; 90; 87; 64; 77;
  218; 215; 192; 205; 238; 227; 244; 249; 178; 191; 168; 165; 134; 139; 156; 145;
  10; 7; 16; 29; 62; 51; 36; 41; 98; 111; 120; 117; 86; 91; 76; 65;
  97; 108; 123; 118; 85; 88; 79; 66; 9; 4; 19; 30; 61; 48; 39; 42;
  177; 188; 171; 166; 133; 136; 159; 146; 217; 212; 195; 206; 237; 224; 247; 250;
  183; 186; 173; 160; 131; 142; 153; 148; 223; 210; 197; 200; 235; 230; 241; 252;
  103; 106; 125; 112; 83; 94; 73; 68; 15; 2; 21; 24; 59; 54; 33; 44;
  12; 1; 22; 27; 56; 53; 34; 47; 100; 105; 126; 115; 80; 93; 74; 71;
  220; 209; 198; 203; 232; 229; 242; 255; 180; 185; 174; 163; 128; 141; 154; 151
 ].

Definition table9 : list Z :=
 [
  0; 9; 18; 27; 36; 45; 54; 63; 72; 65; 90; 83; 108; 101; 126; 119;
  144; 153; 130; 139; 180; 189; 166; 175; 216; 209; 202; 195; 252; 245; 238; 231;
  59; 50; 41; 32; 31; 22; 13; 4; 115; 122; 97; 104; 87; 94; 69; 76;
  171; 162; 185; 176; 143; 134; 157; 148; 227; 234; 241; 248; 199; 206; 213; 220;
  118; 127; 100; 109; 82; 91; 64; 73; 62; 55; 44; 37; 26; 19; 8; 1;
  230; 239; 244; 253; 194; 203; 208; 217; 174; 167; 188; 181; 138; 131; 152; 145;
  77; 68; 95; 86; 105; 96; 123; 114; 5; 12; 23; 30; 33; 40; 51; 58;
  221; 212; 207; 198; 249; 240; 235; 226; 149; 156; 135; 142; 177; 184; 163; 170;
  236; 229; 254; 247; 200; 193; 218; 211; 164; 173; 182; 191; 128; 137; 146; 155;
  124; 117; 110; 103; 88; 81; 74; 67; 52; 61; 38; 47; 16; 25; 2; 11;
  215; 222; 197; 204; 243; 250; 225; 232; 159; 150; 141; 132; 187; 178; 169; 160;
  71; 78; 85; 92; 99; 106; 113; 120; 15; 6; 29; 20; 43; 34; 57; 48;
  154; 147; 136; 129; 190; 183; 172; 165; 210; 219; 192; 201; 246; 255; 228; 237;
  10; 3; 24; 17; 46; 39; 60; 53; 66; 75; 80; 89; 102; 111; 116; 125;
  161; 168; 179; 186; 133; 140; 151; 158; 233; 224; 251; 242; 205; 196; 223; 214;
  49; 56; 35; 42; 21; 28; 7; 14; 121; 112; 107; 98; 93; 84; 79; 70
 ].

Definition table11 : list Z :=
 [
  0; 11; 22; 29; 44; 39; 58; 49; 88; 83; 78; 69; 116; 127; 98; 105;
  176; 187; 166; 173; 156; 151; 138; 129; 232; 227; 254; 245; 196; 207; 210; 217;
  123; 112; 109; 102; 87; 92; 65; 74; 35; 40; 53; 62; 15; 4; 25; 18;
  203; 192; 221; 214; 231; 236; 241; 250; 147; 152; 133; 142; 191; 180; 169; 162;
  246; 253; 224; 235; 218; 209; 204; 199; 174; 165; 184; 179; 130; 137; 148; 159;
  70; 77; 80; 91; 106; 97; 124; 119; 30; 21; 8; 3; 50; 57; 36; 47;
  141; 134; 155; 144; 161; 170; 183; 188; 213; 222; 195; 200; 249; 242; 239; 228;
  61; 54; 43; 32; 17; 26; 7; 12; 101; 110; 115; 120; 73; 66; 95; 84;
  247; 252; 225; 234; 219; 208; 205; 198; 175; 164; 185; 178; 131; 136; 149; 158;
  71; 76; 81; 90; 107; 96; 125; 118; 31; 20; 9; 2; 51; 56; 37; 46;
  140; 135; 154; 145; 160; 171; 182; 189; 212; 223; 194; 201; 248; 243; 238; 229;
  60; 55; 42; 33; 16; 27; 6; 13; 100; 111; 114; 121; 72; 67; 94; 85;
  1; 10; 23; 28; 45; 38; 59; 48; 89; 82; 79; 68; 117; 126; 99; 104;
  177; 186; 167; 172; 157; 150; 139; 128; 233; 226; 255; 244; 197; 206; 211; 216;
  122; 113; 108; 103; 86; 93; 64; 75; 34; 41; 52; 63; 14; 5; 24; 19;
  202; 193; 220; 215; 230; 237; 240; 251; 146; 153; 132; 143; 190; 181; 168; 163
 ].

Definition table14 : list Z :=
 [
  0; 14; 28; 18; 56; 54; 36; 42; 112; 126; 108; 98; 72; 70; 84; 90;
  224; 238; 252; 242; 216; 214; 196; 202; 144; 158; 140; 130; 168; 166; 180; 186;
  219; 213; 199; 201; 227; 237; 255; 241; 171; 165; 183; 185; 147; 157; 143; 129;
  59; 53; 39; 41; 3; 13; 31; 17; 75; 69; 87; 89; 115; 125; 111; 97;
  173; 163; 177; 191; 149; 155; 137; 135; 221; 211; 193; 207; 229; 235; 249; 247;
  77; 67; 81; 95; 117; 123; 105; 103; 61; 51; 33; 47; 5; 11; 25; 23;
  118; 120; 106; 100; 78; 64; 82; 92; 6; 8; 26; 20; 62; 48; 34; 44;
  150; 152; 138; 132; 174; 160; 178; 188; 230; 232; 250; 244; 222; 208; 194; 204;
  65; 79; 93; 83; 121; 119; 101; 107; 49; 63; 45; 35; 9; 7; 21; 27;
  161; 175; 189; 179; 153; 151; 133; 139; 209; 223; 205; 195; 233; 231; 245; 251;
  154; 148; 134; 136; 162; 172; 190; 176; 234; 228; 246; 248; 210; 220; 206; 192;
  122; 116; 102; 104; 66; 76; 94; 80; 10; 4; 22; 24; 50; 60; 46; 32;
  236; 226; 240; 254; 212; 218; 200; 198; 156; 146; 128; 142; 164; 170; 184; 182;
  12; 2; 16; 30; 52; 58; 40; 38; 124; 114; 96; 110; 68; 74; 88; 86;
  55; 57; 43; 37; 15; 1; 19; 29; 71; 73; 91; 85; 127; 113; 99; 109;
  215; 217; 203; 197; 239; 225; 243; 253; 167; 169; 187; 181; 159; 145; 131; 141
 ].

Definition table68 : list Z :=
 [
  0; 68; 136; 204; 11; 79; 131; 199; 22; 82; 158; 218; 29; 89; 149; 209;
  44; 104; 164; 224; 39; 99; 175; 235; 58; 126; 178; 246; 49; 117; 185; 253;
  88; 28; 208; 148; 83; 23; 219; 159; 78; 10; 198; 130; 69; 1; 205; 137;
  116; 48; 252; 184; 127; 59; 247; 179; 98; 38; 234; 174; 105; 45; 225; 165;
  176; 244; 56; 124; 187; 255; 51; 119; 166; 226; 46; 106; 173; 233; 37; 97;
  156; 216; 20; 80; 151; 211; 31; 91; 138; 206; 2; 70; 129; 197; 9; 77;
  232; 172; 96; 36; 227; 167; 107; 47; 254; 186; 118; 50; 245; 177; 125; 57;
  196; 128; 76; 8; 207; 139; 71; 3; 210; 150; 90; 30; 217; 157; 81; 21;
  123; 63; 243; 183; 112; 52; 248; 188; 109; 41; 229; 161; 102; 34; 238; 170;
  87; 19; 223; 155; 92; 24; 212; 144; 65; 5; 201; 141; 74; 14; 194; 134;
  35; 103; 171; 239; 40; 108; 160; 228; 53; 113; 189; 249; 62; 122; 182; 242;
  15; 75; 135; 195; 4; 64; 140; 200; 25; 93; 145; 213; 18; 86; 154; 222;
  203; 143; 67; 7; 192; 132; 72; 12; 221; 153; 85; 17; 214; 146; 94; 26;
  231; 163; 111; 43; 236; 168; 100; 32; 241; 181; 121; 61; 250; 190; 114; 54;
  147; 215; 27; 95; 152; 220; 16; 84; 133; 193; 13; 73; 142; 202; 6; 66;
  191; 251; 55; 115; 180; 240; 60; 120; 169; 237; 33; 101; 162; 230; 42; 110
 ].

Definition table71 : list Z :=
 [
  0; 71; 142; 201; 7; 64; 137; 206; 14; 73; 128; 199; 9; 78; 135; 192;
  28; 91; 146; 213; 27; 92; 149; 210; 18; 85; 156; 219; 21; 82; 155; 220;
  56; 127; 182; 241; 63; 120; 177; 246; 54; 113; 184; 255; 49; 118; 191; 248;
  36; 99; 170; 237; 35; 100; 173; 234; 42; 109; 164; 227; 45; 106; 163; 228;
  112; 55; 254; 185; 119; 48; 249; 190; 126; 57; 240; 183; 121; 62; 247; 176;
  108; 43; 226; 165; 107; 44; 229; 162; 98; 37; 236; 171; 101; 34; 235; 172;
  72; 15; 198; 129; 79; 8; 193; 134; 70; 1; 200; 143; 65; 6; 207; 136;
  84; 19; 218; 157; 83; 20; 221; 154; 90; 29; 212; 147; 93; 26; 211; 148;
  224; 167; 110; 41; 231; 160; 105; 46; 238; 169; 96; 39; 233; 174; 103; 32;
  252; 187; 114; 53; 251; 188; 117; 50; 242; 181; 124; 59; 245; 178; 123; 60;
  216; 159; 86; 17; 223; 152; 81; 22; 214; 145; 88; 31; 209; 150; 95; 24;
  196; 131; 74; 13; 195; 132; 77; 10; 202; 141; 68; 3; 205; 138; 67; 4;
  144; 215; 30; 89; 151; 208; 25; 94; 158; 217; 16; 87; 153; 222; 23; 80;
  140; 203; 2; 69; 139; 204; 5; 66; 130; 197; 12; 75; 133; 194; 11; 76;
  168; 239; 38; 97; 175; 232; 33; 102; 166; 225; 40; 111; 161; 230; 47; 104;
  180; 243; 58; 125; 179; 244; 61; 122; 186; 253; 52; 115; 189; 250; 51; 116
 ].

Definition table201 : list Z :=
 [
  0; 201; 137; 64; 9; 192; 128; 73; 18; 219; 155; 82; 27; 210; 146; 91;
  36; 237; 173; 100; 45; 228; 164; 109; 54; 255; 191; 118; 63; 246; 182; 127;
  72; 129; 193; 8; 65; 136; 200; 1; 90; 147; 211; 26; 83; 154; 218; 19;
  108; 165; 229; 44; 101; 172; 236; 37; 126; 183; 247; 62; 119; 190; 254; 55;
  144; 89; 25; 208; 153; 80; 16; 217; 130; 75; 11; 194; 139; 66; 2; 203;
  180; 125; 61; 244; 189; 116; 52; 253; 166; 111; 47; 230; 175; 102; 38; 239;
  216; 17; 81; 152; 209; 24; 88; 145; 202; 3; 67; 138; 195; 10; 74; 131;
  252; 53; 117; 188; 245; 60; 124; 181; 238; 39; 103; 174; 231; 46; 110; 167;
  59; 242; 178; 123; 50; 251; 187; 114; 41; 224; 160; 105; 32; 233; 169; 96;
  31; 214; 150; 95; 22; 223; 159; 86; 13; 196; 132; 77; 4; 205; 141; 68;
  115; 186; 250; 51; 122; 179; 243; 58; 97; 168; 232; 33; 104; 161; 225; 40;
  87; 158; 222; 23; 94; 151; 215; 30; 69; 140; 204; 5; 76; 133; 197; 12;
  171; 98; 34; 235; 162; 107; 43; 226; 185; 112; 48; 249; 176; 121; 57; 240;
  143; 70; 6; 207; 134; 79; 15; 198; 157; 84; 20; 221; 148; 93; 29; 212;
  227; 42; 106; 163; 234; 35; 99; 170; 241; 56; 120; 177; 248; 49; 113; 184;
  199; 14; 78; 135; 206; 7; 71; 142; 213; 28; 92; 149; 220; 21; 85; 156
 ].

Definition table203 : list Z :=
 [
  0; 203; 141; 70; 1; 202; 140; 71; 2; 201; 143; 68; 3; 200; 142; 69;
  4; 207; 137; 66; 5; 206; 136; 67; 6; 205; 139; 64; 7; 204; 138; 65;
  8; 195; 133; 78; 9; 194; 132; 79; 10; 193; 135; 76; 11; 192; 134; 77;
  12; 199; 129; 74; 13; 198; 128; 75; 14; 197; 131; 72; 15; 196; 130; 73;
  16; 219; 157; 86; 17; 218; 156; 87; 18; 217; 159; 84; 19; 216; 158; 85;
  20; 223; 153; 82; 21; 222; 152; 83; 22; 221; 155; 80; 23; 220; 154; 81;
  24; 211; 149; 94; 25; 210; 148; 95; 26; 209; 151; 92; 27; 208; 150; 93;
  28; 215; 145; 90; 29; 214; 144; 91; 30; 213; 147; 88; 31; 212; 146; 89;
  32; 235; 173; 102; 33; 234; 172; 103; 34; 233; 175; 100; 35; 232; 174; 101;
  36; 239; 169; 98; 37; 238; 168; 99; 38; 237; 171; 96; 39; 236; 170; 97;
  40; 227; 165; 110; 41; 226; 164; 111; 42; 225; 167; 108; 43; 224; 166; 109;
  44; 231; 161; 106; 45; 230; 160; 107; 46; 229; 163; 104; 47; 228; 162; 105;
  48; 251; 189; 118; 49; 250; 188; 119; 50; 249; 191; 116; 51; 248; 190; 117;
  52; 255; 185; 114; 53; 254; 184; 115; 54; 253; 187; 112; 55; 252; 186; 113;
  56; 243; 181; 126; 57; 242; 180; 127; 58; 241; 183; 124; 59; 240; 182; 125;
  60; 247; 177; 122; 61; 246; 176; 123; 62; 245; 179; 120; 63; 244; 178; 121
 ].

Definition sbox_table : list Z :=
 [
  99; 124; 119; 123; 242; 107; 111; 197; 48; 1; 103; 43; 254; 215; 171; 118;
  202; 130; 201; 125; 250; 89; 71; 240; 173; 212; 162; 175; 156; 164; 114; 192;
  183; 253; 147; 38; 54; 63; 247; 204; 52; 165; 229; 241; 113; 216; 49; 21;
  4; 199; 35; 195; 24; 150; 5; 154; 7; 18; 128; 226; 235; 39; 178; 117;
  9; 131; 44; 26; 27; 110; 90; 160; 82; 59; 214; 179; 41; 227; 47; 132;
  83; 209; 0; 237; 32; 252; 177; 91; 106; 203; 190; 57; 74; 76; 88; 207;
  208; 239; 170; 251; 67; 77; 51; 133; 69; 249; 2; 127; 80; 60; 159; 168;
  81; 163; 64; 143; 146; 157; 56; 245; 188; 182; 218; 33; 16; 255; 243; 210;
  205; 12; 19; 236; 95; 151; 68; 23; 196; 167; 126; 61; 100; 93; 25; 115;
  96; 129; 79; 220; 34; 42; 144; 136; 70; 238; 184; 20; 222; 94; 11; 219;
  224; 50; 58; 10; 73; 6; 36; 92; 194; 211; 172; 98; 145; 149; 228; 121;
  231; 200; 55; 109; 141; 213; 78; 169; 108; 86; 244; 234; 101; 122; 174; 8;
  186; 120; 37; 46; 28; 166; 180; 198; 232; 221; 116; 31; 75; 189; 139; 138;
  112; 62; 181; 102; 72; 3; 246; 14; 97; 53; 87; 185; 134; 193; 29; 158;
  225; 248; 152; 17; 105; 217; 142; 148; 155; 30; 135; 233; 206; 85; 40; 223;
  140; 161; 137; 13; 191; 230; 66; 104; 65; 153; 45; 15; 176; 84; 187; 22
 ].

Definition invsbox_table : list Z :=
 [
  82; 9; 106; 213; 48; 54; 165; 56; 191; 64; 163; 158; 129; 243; 215; 251;
  124; 227; 57; 130; 155; 47; 255; 135; 52; 142; 67; 68; 196; 222; 233; 203;
  84; 123; 148; 50; 166; 194; 35; 61; 238; 76; 149; 11; 66; 250; 195; 78;
  8; 46; 161; 102; 40; 217; 36; 178; 118; 91; 162; 73; 109; 139; 209; 37;
  114; 248; 246; 100; 134; 104; 152; 22; 212; 164; 92; 204; 93; 101; 182; 146;
  108; 112; 72; 80; 253; 237; 185; 218; 94; 21; 70; 87; 167; 141; 157; 132;
  144; 216; 171; 0; 140; 188; 211; 10; 247; 228; 88; 5; 184; 179; 69; 6;
  208; 44; 30; 143; 202; 63; 15; 2; 193; 175; 189; 3; 1; 19; 138; 107;
  58; 145; 17; 65; 79; 103; 220; 234; 151; 242; 207; 206; 240; 180; 230; 115;
  150; 172; 116; 34; 231; 173; 53; 133; 226; 249; 55; 232; 28; 117; 223; 110;
  71; 241; 26; 113; 29; 41; 197; 137; 111; 183; 98; 14; 170; 24; 190; 27;
  252; 86; 62; 75; 198; 210; 121; 32; 154; 219; 192; 254; 120; 205; 90; 244;
  31; 221; 168; 51; 136; 7; 199; 49; 177; 18; 16; 89; 39; 128; 236; 95;
  96; 81; 127; 169; 25; 181; 74; 13; 45; 229; 122; 159; 147; 201; 156; 239;
  160; 224; 59; 77; 174; 42; 245; 176; 200; 235; 187; 60; 131; 83; 153; 97;
  23; 43; 4; 126; 186; 119; 214; 38; 225; 105; 20; 99; 85; 33; 12; 125
 ].

Definition haraka_rcons_table : list (list Z) :=
 [
  [157; 123; 129; 117; 240; 254; 197; 178; 10; 192; 32; 230; 76; 112; 132; 6];
  [23; 247; 8; 47; 164; 107; 15; 100; 107; 160; 243; 136; 225; 180; 102; 139];
  [20; 145; 2; 159; 96; 157; 2; 207; 152; 132; 242; 83; 45; 222; 2; 52];
  [121; 79; 91; 253; 175; 188; 243; 187; 8; 79; 123; 46; 230; 234; 214; 14];
  [68; 112; 57; 190; 28; 205; 238; 121; 139; 68; 114; 72; 203; 176; 207; 203];
  [123; 5; 138; 43; 237; 53; 83; 141; 183; 50; 144; 110; 238; 205; 234; 126];
  [27; 239; 79; 218; 97; 39; 65; 226; 208; 124; 46; 94; 67; 143; 194; 103];
  [59; 11; 199; 31; 226; 253; 95; 103; 7; 204; 202; 175; 176; 217; 36; 41];
  [238; 101; 212; 185; 202; 143; 219; 236; 233; 127; 134; 230; 241; 99; 77; 171];
  [51; 126; 3; 173; 79; 64; 42; 91; 100; 205; 183; 212; 132; 191; 48; 28];
  [0; 152; 246; 141; 46; 139; 2; 105; 191; 35; 23; 148; 185; 11; 204; 178];
  [138; 45; 157; 92; 200; 158; 170; 74; 114; 85; 111; 222; 166; 120; 4; 250];
  [212; 159; 18; 41; 46; 79; 250; 14; 18; 42; 119; 107; 43; 159; 180; 223];
  [238; 18; 106; 187; 174; 17; 214; 50; 54; 162; 73; 244; 68; 3; 161; 30];
  [166; 236; 168; 156; 201; 0; 150; 95; 132; 0; 5; 75; 136; 73; 4; 175];
  [236; 147; 229; 39; 227; 199; 162; 120; 79; 156; 25; 157; 216; 94; 2; 33];
  [115; 1; 212; 130; 205; 46; 40; 185; 183; 201; 89; 167; 248; 170; 58; 191];
  [107; 125; 48; 16; 217; 239; 242; 55; 23; 176; 134; 97; 13; 112; 96; 98];
  [198; 154; 252; 246; 83; 145; 194; 129; 67; 4; 48; 33; 194; 69; 202; 90];
  [58; 148; 209; 54; 232; 146; 175; 44; 187; 104; 107; 34; 60; 151; 35; 146];
  [180; 113; 16; 229; 88; 185; 186; 108; 235; 134; 88; 34; 56; 146; 191; 211];
  [141; 18; 225; 36; 221; 253; 61; 147; 119; 198; 240; 174; 229; 60; 134; 219];
  [177; 18; 34; 203; 227; 141; 228; 131; 156; 160; 235; 255; 104; 98; 96; 187];
  [125; 247; 43; 199; 78; 26; 185; 45; 156; 209; 228; 226; 220; 211; 75; 115];
  [78; 146; 179; 44; 196; 21; 20; 75; 67; 27; 48; 97; 195; 71; 187; 67];
  [153; 104; 235; 22; 221; 49; 178; 3; 246; 239; 7; 231; 168; 117; 167; 219];
  [44; 71; 202; 126; 2; 35; 94; 142; 119; 89; 117; 60; 75; 97; 243; 109];
  [249; 23; 134; 184; 185; 229; 27; 109; 119; 125; 222; 214; 23; 90; 167; 205];
  [93; 238; 70; 169; 157; 6; 108; 157; 170; 233; 168; 107; 240; 67; 107; 236];
  [193; 39; 243; 59; 89; 17; 83; 162; 43; 51; 87; 249; 80; 105; 30; 203];
  [217; 208; 14; 96; 83; 3; 237; 228; 156; 97; 218; 0; 117; 12; 238; 44];
  [80; 163; 164; 99; 188; 186; 187; 128; 171; 12; 233; 150; 161; 165; 177; 240];
  [57; 202; 141; 147; 48; 222; 13; 171; 136; 41; 150; 94; 2; 177; 61; 174];
  [66; 180; 117; 46; 168; 243; 20; 136; 11; 164; 84; 213; 56; 143; 187; 23];
  [246; 22; 10; 54; 121; 183; 182; 174; 215; 127; 66; 95; 91; 138; 187; 52];
  [222; 175; 186; 255; 24; 89; 206; 67; 56; 84; 229; 203; 65; 82; 246; 38];
  [120; 201; 158; 131; 247; 156; 202; 162; 106; 2; 243; 185; 84; 154; 233; 76];
  [53; 18; 144; 34; 40; 110; 192; 64; 190; 247; 223; 27; 26; 165; 81; 174];
  [207; 89; 166; 72; 15; 188; 115; 193; 43; 210; 126; 186; 60; 97; 193; 160];
  [161; 157; 197; 233; 253; 189; 214; 74; 136; 130; 40; 2; 3; 204; 106; 117]
 ].

(** ** Bytes and arrays *)

Definition byte (b : Z) : Prop := 0 <= b < 256.

Definition state_t := list Z.
Definition hkstate_t := list state_t.

Definition get (a : list Z) (i : nat) : Z := nth i a 0.
Definition lane (s : hkstate_t) (j : nat) : state_t := nth j s [].

Fixpoint set {A : Type} (a : list A) (i : nat) (v : A) : list A :=
  match a, i with
  | [], _ => []
  | _ :: t, O => v :: t
  | h :: t, S i' => h :: set t i' v
  end.

Definition get2 (s : hkstate_t) (j i : nat) : Z := get (lane s j) i.
Definition set2 (s : hkstate_t) (j i : nat) (v : Z) : hkstate_t :=
  set s j (set (lane s j) i v).

Declare Scope hk_scope.
Delimit Scope hk_scope with hk.
Notation "a ^^ b" := (Z.lxor a b) (at level 40, left associativity) : hk_scope.
Notation "a .[ i ]" := (get a i%nat)
  (at level 1, left associativity, format "a .[ i ]") : hk_scope.
Notation "a .[ i <- v ]" := (set a i%nat v)
  (at level 1, left associativity, format "a .[ i  <-  v ]") : hk_scope.
Notation "s .[ j , i ]" := (get2 s j%nat i%nat)
  (at level 1, left associativity, format "s .[ j ,  i ]") : hk_scope.
Notation "s .[ j , i <- v ]" := (set2 s j%nat i%nat v)
  (at level 1, left associativity, format "s .[ j ,  i  <-  v ]") : hk_scope.
Open Scope hk_scope.

(** A C [for (k = 0; k < n; k++) body] over a state. *)
Definition for_upto {S : Type} (n : nat) (body : S -> nat -> S) (s : S) : S :=
  fold_left body (seq 0 n) s.

(** [f(s[j], ...)]: run [f] on lane [j] of a Haraka state, in place. *)
Definition on_lane (s : hkstate_t) (j : nat) (f : state_t -> state_t) : hkstate_t :=
  set s j (f (lane s j)).

Definition state_ok (a : state_t) : Prop := length a = 16%nat /\ Forall byte a.
Definition hkstate_ok (s : hkstate_t) : Prop :=
  length s = 4%nat /\ Forall state_ok s.

(** ** Table lookups *)

Definition times2 (b : Z) : Z := nth (Z.to_nat b) table2 0.
Definition times3 (b : Z) : Z := nth (Z.to_nat b) table3 0.
Definition times7 (b : Z) : Z := nth (Z.to_nat b) table7 0.
Definition times9 (b : Z) : Z := nth (Z.to_nat b) table9 0.
Definition times11 (b : Z) : Z := nth (Z.to_nat b) table11 0.
Definition times13 (b : Z) : Z := nth (Z.to_nat b) table13 0.
Definition times14 (b : Z) : Z := nth (Z.to_nat b) table14 0.
Definition times68 (b : Z) : Z := nth (Z.to_nat b) table68 0.
Definition times71 (b : Z) : Z := nth (Z.to_nat b) table71 0.
Definition times201 (b : Z) : Z := nth (Z.to_nat b) table201 0.
Definition times203 (b : Z) : Z := nth (Z.to_nat b) table203 0.
Definition sbox (b : Z) : Z := nth (Z.to_nat b) sbox_table 0.
Definition invsbox (b : Z) : Z := nth (Z.to_nat b) invsbox_table 0.

(** [haraka_rcons_table[k][b]]. *)
Definition rcons_at (k b : nat) : Z := nth b (nth k haraka_rcons_table []) 0.

Definition rccon (r i b : nat) : Z := rcons_at (4 * r + i) b.

(** ** Operations *)

Definition xor_rcons (state : state_t) (r j : nat) : state_t :=
  for_upto 16 (fun state i => state.[i <- state.[i] ^^ rcons_at (4 * r + j) i]) state.

Definition subbytes (state : state_t) : state_t :=
  for_upto 16 (fun state i => state.[i <- sbox state.[i]]) state.

Definition invsubbytes (state : state_t) : state_t :=
  for_upto 16 (fun state i => state.[i <- invsbox state.[i]]) state.

Definition shiftrows (state : state_t) : state_t :=
  let tmp := state.[1] in
  let state := state.[1 <- state.[5]] in
  let state := state.[5 <- state.[9]] in
  let state := state.[9 <- state.[13]] in
  let state := state.[13 <- tmp] in
  let tmp := state.[10] in
  let state := state.[10 <- state.[2]] in
  let state := state.[2 <- tmp] in
  let tmp := state.[14] in
  let state := state.[14 <- state.[6]] in
  let state := state.[6 <- tmp] in
  let tmp := state.[15] in
  let state := state.[15 <- state.[11]] in
  let state := state.[11 <- state.[7]] in
  let state := state.[7 <- state.[3]] in
  let state := state.[3 <- tmp] in
  state.

Definition sbsr (state : state_t) : state_t :=
  let tmp := sbox state.[1] in
  let state := state.[1 <- sbox state.[5]] in
  let state := state.[5 <- sbox state.[9]] in
  let state := state.[9 <- sbox state.[13]] in
  let state := state.[13 <- tmp] in
  let tmp := sbox state.[10] in
  let state := state.[10 <- sbox state.[2]] in
  let state := state.[2 <- tmp] in
  let tmp := sbox state.[14] in
  let state := state.[14 <- sbox state.[6]] in
  let state := state.[6 <- tmp] in
  let tmp := sbox state.[15] in
  let state := state.[15 <- sbox state.[11]] in
  let state := state.[11 <- sbox state.[7]] in
  let state := state.[7 <- sbox state.[3]] in
  let state := state.[3 <- tmp] in
  let state := state.[0 <- sbox state.[0]] in
  let state := state.[4 <- sbox state.[4]] in
  let state := state.[8 <- sbox state.[8]] in
  let state := state.[12 <- sbox state.[12]] in
  state.

Definition invshiftrows (state : state_t) : state_t :=
  let tmp := state.[1] in
  let state := state.[1 <- state.[13]] in
  let state := state.[13 <- state.[9]] in
  let state := state.[9 <- state.[5]] in
  let state := state.[5 <- tmp] in
  let tmp := state.[10] in
  let state := state.[10 <- state.[2]] in
  let state := state.[2 <- tmp] in
  let tmp := state.[14] in
  let state := state.[14 <- state.[6]] in
  let state := state.[6 <- tmp] in
  let tmp := state.[3] in
  let state := state.[3 <- state.[7]] in
  let state := state.[7 <- state.[11]] in
  let state := state.[11 <- state.[15]] in
  let state := state.[15 <- tmp] in
  state.

Definition invsbsr (state : state_t) : state_t :=
  let tmp := invsbox state.[1] in
  let state := state.[1 <- invsbox state.[13]] in
  let state := state.[13 <- invsbox state.[9]] in
  let state := state.[9 <- invsbox state.[5]] in
  let state := state.[5 <- tmp] in
  let tmp := invsbox state.[10] in
  let state := state.[10 <- invsbox state.[2]] in
  let state := state.[2 <- tmp] in
  let tmp := invsbox state.[14] in
  let state := state.[14 <- invsbox state.[6]] in
  let state := state.[6 <- tmp] in
  let tmp := invsbox state.[3] in
  let state := state.[3 <- invsbox state.[7]] in
  let state := state.[7 <- invsbox state.[11]] in
  let state := state.[11 <- invsbox state.[15]] in
  let state := state.[15 <- tmp] in
  let state := state.[0 <- invsbox state.[0]] in
  let state := state.[4 <- invsbox state.[4]] in
  let state := state.[8 <- invsbox state.[8]] in
  let state := state.[12 <- invsbox state.[12]] in
  state.

Definition mixcolumns (state : state_t) : state_t :=
  for_upto 4 (fun state i =>
    let a := state.[0 + 4 * i] in
    let b := state.[1 + 4 * i] in
    let c := state.[2 + 4 * i] in
    let d := state.[3 + 4 * i] in
    let state := state.[0 + 4 * i <- times2 a ^^ times3 b ^^ c ^^ d] in
    let state := state.[1 + 4 * i <- a ^^ times2 b ^^ times3 c ^^ d] in
    let state := state.[2 + 4 * i <- a ^^ b ^^ times2 c ^^ times3 d] in
    let state := state.[3 + 4 * i <- times3 a ^^ b ^^ c ^^ times2 d] in
    state) state.

Definition mcrc (state : state_t) (r j : nat) : state_t :=
  for_upto 4 (fun state i =>
    let a := state.[0 + 4 * i] in
    let b := state.[1 + 4 * i] in
    let c := state.[2 + 4 * i] in
    let d := state.[3 + 4 * i] in
    let state := state.[0 + 4 * i <-
      times2 a ^^ times3 b ^^ c ^^ d ^^ rcons_at (4 * r + j) (0 + 4 * i)] in
    let state := state.[1 + 4 * i <-
      a ^^ times2 b ^^ times3 c ^^ d ^^ rcons_at (4 * r + j) (1 + 4 * i)] in
    let state := state.[2 + 4 * i <-
      a ^^ b ^^ times2 c ^^ times3 d ^^ rcons_at (4 * r + j) (2 + 4 * i)] in
    let state := state.[3 + 4 * i <-
      times3 a ^^ b ^^ c ^^ times2 d ^^ rcons_at (4 * r + j) (3 + 4 * i)] in
    state) state.

Definition invmixcolumns (state : state_t) : state_t :=
  for_upto 4 (fun state i =>
    let a := state.[0 + 4 * i] in
    let b := state.[1 + 4 * i] in
    let c := state.[2 + 4 * i] in
    let d := state.[3 + 4 * i] in
    let state := state.[0 + 4 * i <- times14 a ^^ times11 b ^^ times13 c ^^ times9 d] in
    let state := state.[1 + 4 * i <- times9 a ^^ times14 b ^^ times11 c ^^ times13 d] in
    let state := state.[2 + 4 * i <- times13 a ^^ times9 b ^^ times14 c ^^ times11 d] in
    let state := state.[3 + 4 * i <- times11 a ^^ times13 b ^^ times9 c ^^ times14 d] in
    state) state.

Definition invmcrc (state : state_t) (r j : nat) : state_t :=
  for_upto 4 (fun state i =>
    let a := state.[0 + 4 * i] ^^ rcons_at (4 * r + j) (0 + 4 * i) in
    let b := state.[1 + 4 * i] ^^ rcons_at (4 * r + j) (1 + 4 * i) in
    let c := state.[2 + 4 * i] ^^ rcons_at (4 * r + j) (2 + 4 * i) in
    let d := state.[3 + 4 * i] ^^ rcons_at (4 * r + j) (3 + 4 * i) in
    let state := state.[0 + 4 * i <- times14 a ^^ times11 b ^^ times13 c ^^ times9 d] in
    let state := state.[1 + 4 * i <- times9 a ^^ times14 b ^^ times11 c ^^ times13 d] in
    let state := state.[2 + 4 * i <- times13 a ^^ times9 b ^^ times14 c ^^ times11 d] in
    let state := state.[3 + 4 * i <- times11 a ^^ times13 b ^^ times9 c ^^ times14 d] in
    state) state.

Definition aesenc (s : state_t) (r j : nat) : state_t :=
  let s := sbsr s in
  let s := mcrc s r j in
  s.

Definition invaesenc (s : state_t) (r j : nat) : state_t :=
  let s := invmcrc s r j in
  let s := invsbsr s in
  s.

Definition mix512 (s : hkstate_t) : hkstate_t :=
  for_upto 4 (fun s i =>
    let a := s.[0, 4 + i] in
    let s := s.[0, 4 + i <- s.[2, 12 + i]] in
    let s := s.[2, 12 + i <- s.[1, 4 + i]] in
    let s := s.[1, 4 + i <- s.[0, 0 + i]] in
    let s := s.[0, 0 + i <- s.[0, 12 + i]] in
    let s := s.[0, 12 + i <- s.[3, 12 + i]] in
    let s := s.[3, 12 + i <- s.[3, 8 + i]] in
    let s := s.[3, 8 + i <- s.[1, 8 + i]] in
    let s := s.[1, 8 + i <- s.[3, 0 + i]] in
    let s := s.[3, 0 + i <- s.[0, 8 + i]] in
    let s := s.[0, 8 + i <- s.[1, 12 + i]] in
    let s := s.[1, 12 + i <- s.[1, 0 + i]] in
    let s := s.[1, 0 + i <- s.[2, 0 + i]] in
    let s := s.[2, 0 + i <- s.[2, 4 + i]] in
    let s := s.[2, 4 + i <- a] in
    let a := s.[2, 8 + i] in
    let s := s.[2, 8 + i <- s.[3, 4 + i]] in
    let s := s.[3, 4 + i <- a] in
    s) s.

Definition invmix512 (s : hkstate_t) : hkstate_t :=
  for_upto 4 (fun s i =>
    let a := s.[2, 8 + i] in
    let s := s.[2, 8 + i <- s.[3, 4 + i]] in
    let s := s.[3, 4 + i <- a] in
    let a := s.[0, 4 + i] in
    let s := s.[0, 4 + i <- s.[2, 4 + i]] in
    let s := s.[2, 4 + i <- s.[2, 0 + i]] in
    let s := s.[2, 0 + i <- s.[1, 0 + i]] in
    let s := s.[1, 0 + i <- s.[1, 12 + i]] in
    let s := s.[1, 12 + i <- s.[0, 8 + i]] in
    let s := s.[0, 8 + i <- s.[3, 0 + i]] in
    let s := s.[3, 0 + i <- s.[1, 8 + i]] in
    let s := s.[1, 8 + i <- s.[3, 8 + i]] in
    let s := s.[3, 8 + i <- s.[3, 12 + i]] in
    let s := s.[3, 12 + i <- s.[0, 12 + i]] in
    let s := s.[0, 12 + i <- s.[0, 0 + i]] in
    let s := s.[0, 0 + i <- s.[1, 4 + i]] in
    let s := s.[1, 4 + i <- s.[2, 12 + i]] in
    let s := s.[2, 12 + i <- a] in
    s) s.

Definition haraka512pi (hkstate : hkstate_t) : hkstate_t :=
  for_upto 10 (fun hkstate r =>
    let hkstate :=
      for_upto 4 (fun hkstate j => on_lane hkstate j (fun s => aesenc s r j)) hkstate in
    if (r mod 2 =? 1)%nat then mix512 hkstate else hkstate) hkstate.


(** ** Bytes: enumeration and exclusive-or *)

Definition all_bytes : list Z := map Z.of_nat (seq 0 256).

(** ** The lookup tables as GF(2)-linear maps *)

Definition table_ok (f : Z -> Z) : Prop := forall b, byte b -> byte (f b).

Definition in_byte (z : Z) : bool := (0 <=? z) && (z <? 256).

Definition additive (f : Z -> Z) : Prop :=
  forall a b, byte a -> byte b -> f (a ^^ b) = f a ^^ f b.

(** A byte is the exclusive-or of its eight one-bit parts, so additivity
    need only be checked against the eight unit bytes. *)
Definition units : list Z := [1; 2; 4; 8; 16; 32; 64; 128].
Definition parts (y : Z) : list Z := map (Z.land y) units.
Definition xor_all (l : list Z) : Z := fold_right Z.lxor 0 l.

Definition unit_or_zero (p : Z) : bool := existsb (Z.eqb p) (0 :: units).

Definition additive_at (f : Z -> Z) (y : Z) : Prop :=
  forall x, byte x -> f (x ^^ y) = f x ^^ f y.

Definition additive_on_units (f : Z -> Z) : bool :=
  forallb (fun k => forallb (fun x => f (x ^^ k) =? f x ^^ f k) all_bytes) (0 :: units).

(** ** The AES-NI form of the permutation

    The intrinsics are not code of the repository; they are modelled from
    Intel's intrinsics guide and FIPS-197.  A [__m128i] is the list of its
    16 byte lanes, lane 0 holding bits 7..0, which is also the order in
    which [_mm_loadu_si128] and [_mm_storeu_si128] move it from and to
    memory. *)

Definition m128i := list Z.

(** The four bytes of a 32-bit pattern, least significant first. *)
Definition dword_bytes (e : Z) : list Z :=
  [Z.land e 255; Z.land (Z.shiftr e 8) 255;
   Z.land (Z.shiftr e 16) 255; Z.land (Z.shiftr e 24) 255].

(** [_mm_set_epi32 (e3, e2, e1, e0)]: [e0] fills bits 31..0. *)
Definition mm_set_epi32 (e3 e2 e1 e0 : Z) : m128i :=
  dword_bytes e0 ++ dword_bytes e1 ++ dword_bytes e2 ++ dword_bytes e3.

(** Multiplication by x in GF(2^8) modulo x^8 + x^4 + x^3 + x + 1. *)
Definition xtime (b : Z) : Z :=
  if Z.testbit b 7 then Z.land (Z.shiftl b 1) 255 ^^ 27 else Z.shiftl b 1.

Fixpoint gf_mul_aux (n : nat) (a b acc : Z) : Z :=
  match n with
  | O => acc
  | S n' =>
      gf_mul_aux n' (xtime a) (Z.shiftr b 1) (if Z.testbit b 0 then acc ^^ a else acc)
  end.

Definition gf_mul (a b : Z) : Z := gf_mul_aux 8 a b 0.

Definition gf_square (a : Z) : Z := gf_mul a a.

(** The inverse in GF(2^8), with 0 sent to 0: a^254. *)
Definition gf_inv (a : Z) : Z :=
  let a2 := gf_square a in
  let a4 := gf_square a2 in
  let a8 := gf_square a4 in
  let a16 := gf_square a8 in
  let a32 := gf_square a16 in
  let a64 := gf_square a32 in
  let a128 := gf_square a64 in
  gf_mul a128 (gf_mul a64 (gf_mul a32 (gf_mul a16 (gf_mul a8 (gf_mul a4 a2))))).

Definition rotl8 (b : Z) (k : Z) : Z :=
  Z.land (Z.lor (Z.shiftl b k) (Z.shiftr b (8 - k))) 255.

(** The AES S-box of FIPS-197: the field inverse, then the affine map. *)
Definition aes_sbox (b : Z) : Z :=
  let i := gf_inv b in
  i ^^ rotl8 i 1 ^^ rotl8 i 2 ^^ rotl8 i 3 ^^ rotl8 i 4 ^^ 99.

Definition aes_shiftrows (a : m128i) : m128i :=
  [a.[0]; a.[5]; a.[10]; a.[15];
   a.[4]; a.[9]; a.[14]; a.[3];
   a.[8]; a.[13]; a.[2]; a.[7];
   a.[12]; a.[1]; a.[6]; a.[11]].

Definition aes_subbytes (a : m128i) : m128i := map aes_sbox a.

Definition aes_mixcolumn (a : m128i) (c : nat) : list Z :=
  let s0 := a.[4 * c] in
  let s1 := a.[4 * c + 1] in
  let s2 := a.[4 * c + 2] in
  let s3 := a.[4 * c + 3] in
  [gf_mul s0 2 ^^ gf_mul s1 3 ^^ s2 ^^ s3;
   s0 ^^ gf_mul s1 2 ^^ gf_mul s2 3 ^^ s3;
   s0 ^^ s1 ^^ gf_mul s2 2 ^^ gf_mul s3 3;
   gf_mul s0 3 ^^ s1 ^^ s2 ^^ gf_mul s3 2].

Definition aes_mixcolumns (a : m128i) : m128i :=
  aes_mixcolumn a 0 ++ aes_mixcolumn a 1 ++ aes_mixcolumn a 2 ++ aes_mixcolumn a 3.

Fixpoint xor_lanes (a b : m128i) : m128i :=
  match a, b with
  | x :: a', y :: b' => (x ^^ y) :: xor_lanes a' b'
  | _, _ => []
  end.

(** [_mm_aesenc_si128 (a, RoundKey)]: ShiftRows, SubBytes, MixColumns, then
    exclusive-or with the round key. *)
Definition mm_aesenc_si128 (a RoundKey : m128i) : m128i :=
  xor_lanes (aes_mixcolumns (aes_subbytes (aes_shiftrows a))) RoundKey.

(** The 32-bit element [k] of a vector. *)
Definition dword (a : m128i) (k : nat) : list Z :=
  [a.[4 * k]; a.[4 * k + 1]; a.[4 * k + 2]; a.[4 * k + 3]].

Definition mm_unpacklo_epi32 (a b : m128i) : m128i :=
  dword a 0 ++ dword b 0 ++ dword a 1 ++ dword b 1.

Definition mm_unpackhi_epi32 (a b : m128i) : m128i :=
  dword a 2 ++ dword b 2 ++ dword a 3 ++ dword b 3.

Definition value_to_state (s : state_t) (value : m128i) : state_t := value.

Definition state_to_value (s : state_t) : m128i := s.

Definition rc_at (rc : list m128i) (k : nat) : m128i := nth k rc [].

(** The four [_mm_aesenc_si128] of one round. *)
Definition aesenc4 (rc : list m128i) (s : list m128i) (r : nat) : list m128i :=
  let s := set s 0 (mm_aesenc_si128 (lane s 0) (rc_at rc (4 * r))) in
  let s := set s 1 (mm_aesenc_si128 (lane s 1) (rc_at rc (4 * r + 1))) in
  let s := set s 2 (mm_aesenc_si128 (lane s 2) (rc_at rc (4 * r + 2))) in
  let s := set s 3 (mm_aesenc_si128 (lane s 3) (rc_at rc (4 * r + 3))) in
  s.

(** The eight unpack instructions that stand for MIX. *)
Definition mix_unpack (s : list m128i) : list m128i :=
  let tmp := mm_unpacklo_epi32 (lane s 0) (lane s 1) in
  let s := set s 0 (mm_unpackhi_epi32 (lane s 0) (lane s 1)) in
  let s := set s 1 (mm_unpacklo_epi32 (lane s 2) (lane s 3)) in
  let s := set s 2 (mm_unpackhi_epi32 (lane s 2) (lane s 3)) in
  let s := set s 3 (mm_unpacklo_epi32 (lane s 0) (lane s 2)) in
  let s := set s 0 (mm_unpackhi_epi32 (lane s 0) (lane s 2)) in
  let s := set s 2 (mm_unpackhi_epi32 (lane s 1) tmp) in
  let s := set s 1 (mm_unpacklo_epi32 (lane s 1) tmp) in
  s.

(** The local [array<__m128i, 4> s] is declared without initialiser and
    every element is stored before it is read; its initial content is
    taken as zero. *)
Definition uninit4 : list m128i := repeat (repeat 0 16) 4.

Definition haraka512pi_opt (rc : list m128i) (hkstate : hkstate_t) : hkstate_t :=
  let s := uninit4 in
  let s := for_upto 4 (fun s i => set s i (state_to_value (lane hkstate i))) s in
  let s := for_upto 10 (fun s r =>
    let s := aesenc4 rc s r in
    if (r mod 2 =? 1)%nat then mix_unpack s else s) s in
  for_upto 4 (fun hkstate i =>
    set hkstate i (value_to_state (lane hkstate i) (lane s i))) hkstate.

Definition rc_main : list m128i :=
 [
  mm_set_epi32 0x0684704c 0xe620c00a 0xb2c5fef0 0x75817b9d;
  mm_set_epi32 0x8b66b4e1 0x88f3a06b 0x640f6ba4 0x2f08f717;
  mm_set_epi32 0x3402de2d 0x53f28498 0xcf029d60 0x9f029114;
  mm_set_epi32 0x0ed6eae6 0x2e7b4f08 0xbbf3bcaf 0xfd5b4f79;
  mm_set_epi32 0xcbcfb0cb 0x4872448b 0x79eecd1c 0xbe397044;
  mm_set_epi32 0x7eeacdee 0x6e9032b7 0x8d5335ed 0x2b8a057b;
  mm_set_epi32 0x67c28f43 0x5e2e7cd0 0xe2412761 0xda4fef1b;
  mm_set_epi32 0x2924d9b0 0xafcacc07 0x675ffde2 0x1fc70b3b;
  mm_set_epi32 0xab4d63f1 0xe6867fe9 0xecdb8fca 0xb9d465ee;
  mm_set_epi32 0x1c30bf84 0xd4b7cd64 0x5b2a404f 0xad037e33;
  mm_set_epi32 0xb2cc0bb9 0x941723bf 0x69028b2e 0x8df69800;
  mm_set_epi32 0xfa0478a6 0xde6f5572 0x4aaa9ec8 0x5c9d2d8a;
  mm_set_epi32 0xdfb49f2b 0x6b772a12 0x0efa4f2e 0x29129fd4;
  mm_set_epi32 0x1ea10344 0xf449a236 0x32d611ae 0xbb6a12ee;
  mm_set_epi32 0xaf044988 0x4b050084 0x5f9600c9 0x9ca8eca6;
  mm_set_epi32 0x21025ed8 0x9d199c4f 0x78a2c7e3 0x27e593ec;
  mm_set_epi32 0xbf3aaaf8 0xa759c9b7 0xb9282ecd 0x82d40173;
  mm_set_epi32 0x6260700d 0x6186b017 0x37f2efd9 0x10307d6b;
  mm_set_epi32 0x5aca45c2 0x21300443 0x81c29153 0xf6fc9ac6;
  mm_set_epi32 0x9223973c 0x226b68bb 0x2caf92e8 0x36d1943a;
  mm_set_epi32 0xd3bf9238 0x225886eb 0x6cbab958 0xe51071b4;
  mm_set_epi32 0xdb863ce5 0xaef0c677 0x933dfddd 0x24e1128d;
  mm_set_epi32 0xbb606268 0xffeba09c 0x83e48de3 0xcb2212b1;
  mm_set_epi32 0x734bd3dc 0xe2e4d19c 0x2db91a4e 0xc72bf77d;
  mm_set_epi32 0x43bb47c3 0x61301b43 0x4b1415c4 0x2cb3924e;
  mm_set_epi32 0xdba775a8 0xe707eff6 0x03b231dd 0x16eb6899;
  mm_set_epi32 0x6df3614b 0x3c755977 0x8e5e2302 0x7eca472c;
  mm_set_epi32 0xcda75a17 0xd6de7d77 0x6d1be5b9 0xb88617f9;
  mm_set_epi32 0xec6b43f0 0x6ba8e9aa 0x9d6c069d 0xa946ee5d;
  mm_set_epi32 0xcb1e6950 0xf957332b 0xa2531159 0x3bf327c1;
  mm_set_epi32 0x2cee0c75 0x00da619c 0xe4ed0353 0x600ed0d9;
  mm_set_epi32 0xf0b1a5a1 0x96e90cab 0x80bbbabc 0x63a4a350;
  mm_set_epi32 0xae3db102 0x5e962988 0xab0dde30 0x938dca39;
  mm_set_epi32 0x17bb8f38 0xd554a40b 0x8814f3a8 0x2e75b442;
  mm_set_epi32 0x34bb8a5b 0x5f427fd7 0xaeb6b779 0x360a16f6;
  mm_set_epi32 0x26f65241 0xcbe55438 0x43ce5918 0xffbaafde;
  mm_set_epi32 0x4ce99a54 0xb9f3026a 0xa2ca9cf7 0x839ec978;
  mm_set_epi32 0xae51a51a 0x1bdff7be 0x40c06e28 0x22901235;
  mm_set_epi32 0xa0c1613c 0xba7ed22b 0xc173bc0f 0x48a659cf;
  mm_set_epi32 0x756acc03 0x02288288 0x4ad6bdfd 0xe9c59da1
 ].

(** ** The attack, part 1: partial evaluators and recombination *)

(** [for (int j = 0; j < 4; j++) aesenc(s[j], r, j);] *)
Definition aesenc_all (s : hkstate_t) (r : nat) : hkstate_t :=
  for_upto 4 (fun s j => on_lane s j (fun l => aesenc l r j)) s.

(** [for (int j = 0; j < 4; j++) invaesenc(s[j], r, j);] *)
Definition invaesenc_all (s : hkstate_t) (r : nat) : hkstate_t :=
  for_upto 4 (fun s j => on_lane s j (fun l => invaesenc l r j)) s.

(** The stores that write the guessed bytes of x3, x4 and x5; the source
    repeats each block verbatim in [computefwd_x5] and [computebwd]. *)
Definition store_x3_guesses (s : hkstate_t) (x3_guesses : list Z) : hkstate_t :=
  let s := s.[1, 1 <- x3_guesses.[0]] in let s := s.[1, 2 <- x3_guesses.[1]] in
  let s := s.[1, 6 <- x3_guesses.[2]] in let s := s.[1, 7 <- x3_guesses.[3]] in
  let s := s.[1, 8 <- x3_guesses.[4]] in let s := s.[1, 11 <- x3_guesses.[5]] in
  let s := s.[1, 12 <- x3_guesses.[6]] in let s := s.[1, 13 <- x3_guesses.[7]] in
  let s := s.[2, 1 <- x3_guesses.[8]] in let s := s.[2, 6 <- x3_guesses.[9]] in
  let s := s.[2, 11 <- x3_guesses.[10]] in let s := s.[2, 12 <- x3_guesses.[11]] in
  let s := s.[3, 0 <- x3_guesses.[12]] in let s := s.[3, 1 <- x3_guesses.[13]] in
  let s := s.[3, 5 <- x3_guesses.[14]] in let s := s.[3, 6 <- x3_guesses.[15]] in
  let s := s.[3, 10 <- x3_guesses.[16]] in let s := s.[3, 11 <- x3_guesses.[17]] in
  let s := s.[3, 12 <- x3_guesses.[18]] in let s := s.[3, 15 <- x3_guesses.[19]] in
  s.

Definition store_x4_guesses (s : hkstate_t) (x4_guesses : list Z) : hkstate_t :=
  let s := s.[1, 0 <- x4_guesses.[0]] in let s := s.[1, 1 <- x4_guesses.[1]] in
  let s := s.[1, 2 <- x4_guesses.[2]] in let s := s.[1, 3 <- x4_guesses.[3]] in
  let s := s.[1, 12 <- x4_guesses.[4]] in let s := s.[1, 13 <- x4_guesses.[5]] in
  let s := s.[1, 14 <- x4_guesses.[6]] in let s := s.[1, 15 <- x4_guesses.[7]] in
  let s := s.[3, 4 <- x4_guesses.[8]] in let s := s.[3, 5 <- x4_guesses.[9]] in
  let s := s.[3, 6 <- x4_guesses.[10]] in let s := s.[3, 7 <- x4_guesses.[11]] in
  let s := s.[3, 12 <- x4_guesses.[12]] in let s := s.[3, 13 <- x4_guesses.[13]] in
  let s := s.[3, 14 <- x4_guesses.[14]] in let s := s.[3, 15 <- x4_guesses.[15]] in
  s.

Definition store_x5_guesses (s : hkstate_t) (x5_guesses : list Z) : hkstate_t :=
  let s := s.[2, 1 <- x5_guesses.[0]] in let s := s.[2, 2 <- x5_guesses.[1]] in
  let s := s.[2, 3 <- x5_guesses.[2]] in let s := s.[2, 4 <- x5_guesses.[3]] in
  let s := s.[2, 6 <- x5_guesses.[4]] in let s := s.[2, 7 <- x5_guesses.[5]] in
  let s := s.[2, 8 <- x5_guesses.[6]] in let s := s.[2, 9 <- x5_guesses.[7]] in
  let s := s.[2, 11 <- x5_guesses.[8]] in let s := s.[2, 12 <- x5_guesses.[9]] in
  let s := s.[2, 13 <- x5_guesses.[10]] in let s := s.[2, 14 <- x5_guesses.[11]] in
  s.

(** [s[2][0] = dof[0]; s[2][5] = dof[1]; s[2][10] = dof[2]; s[2][15] = dof[3];] *)
Definition store_bwddof (s : hkstate_t) (dof : list Z) : hkstate_t :=
  let s := s.[2, 0 <- dof.[0]] in let s := s.[2, 5 <- dof.[1]] in
  let s := s.[2, 10 <- dof.[2]] in let s := s.[2, 15 <- dof.[3]] in
  s.

(** Forward path up to x5; returns the state [s] it wrote. *)
Definition computefwd_x5 (s : hkstate_t)
    (round2_match_through_mc x3_guesses x4_guesses x5_guesses dof : list Z)
    : hkstate_t :=
  let w2a_1 := dof.[0] in let w2a_6 := dof.[1] in
  let w2a_11 := dof.[2] in let w2a_12 := dof.[3] in
  let s := s.[0, 1 <- w2a_1 ^^ rccon 2 0 1] in
  let s := s.[0, 6 <- w2a_6 ^^ rccon 2 0 6] in
  let s := s.[0, 11 <- w2a_11 ^^ rccon 2 0 11] in
  let s := s.[0, 12 <- w2a_12 ^^ rccon 2 0 12] in
  let s := s.[0, 0 <- times201 round2_match_through_mc.[0]
                      ^^ times68 round2_match_through_mc.[1]
                      ^^ times203 w2a_1 ^^ rccon 2 0 0] in
  let s := s.[0, 2 <- times68 round2_match_through_mc.[0]
                      ^^ times201 round2_match_through_mc.[1]
                      ^^ times71 w2a_1 ^^ rccon 2 0 2] in
  let s := s.[0, 5 <- times68 round2_match_through_mc.[2]
                      ^^ times201 round2_match_through_mc.[3]
                      ^^ times203 w2a_6 ^^ rccon 2 0 5] in
  let s := s.[0, 7 <- times201 round2_match_through_mc.[2]
                      ^^ times68 round2_match_through_mc.[3]
                      ^^ times71 w2a_6 ^^ rccon 2 0 7] in
  let s := s.[0, 8 <- times201 round2_match_through_mc.[4]
                      ^^ times68 round2_match_through_mc.[5]
                      ^^ times71 w2a_11 ^^ rccon 2 0 8] in
  let s := s.[0, 10 <- times68 round2_match_through_mc.[4]
                       ^^ times201 round2_match_through_mc.[5]
                       ^^ times203 w2a_11 ^^ rccon 2 0 10] in
  let s := s.[0, 13 <- times68 round2_match_through_mc.[6]
                       ^^ times201 round2_match_through_mc.[7]
                       ^^ times71 w2a_12 ^^ rccon 2 0 13] in
  let s := s.[0, 15 <- times201 round2_match_through_mc.[6]
                       ^^ times68 round2_match_through_mc.[7]
                       ^^ times203 w2a_12 ^^ rccon 2 0 15] in
  let s := store_x3_guesses s x3_guesses in
  (* now contains x3. Apply round 3. *)
  let s := aesenc_all s 3 in
  let s := mix512 s in
  let s := store_x4_guesses s x4_guesses in
  (* now contains x4. Apply round 4 *)
  let s := on_lane s 0 (fun l => aesenc l 4 0) in
  let s := on_lane s 1 (fun l => aesenc l 4 1) in
  let s := on_lane s 3 (fun l => aesenc l 4 3) in
  let s := store_x5_guesses s x5_guesses in
  (* now contains x5. *)
  s.

(** The closing statements of [computefwd], from a state x8 on: the
    substitution and row rotation of lane 2 and the four fingerprint
    bytes read from it. *)
Definition fwd_fingerprint (s : hkstate_t) : hkstate_t * list Z :=
  let s := on_lane s 2 subbytes in
  let s := on_lane s 2 shiftrows in
  (s, [times7 s.[2, 0] ^^ s.[2, 1] ^^ times7 s.[2, 2];
       s.[2, 4] ^^ times2 s.[2, 5] ^^ times3 s.[2, 7];
       times7 s.[2, 8] ^^ times7 s.[2, 10] ^^ s.[2, 11];
       times3 s.[2, 13] ^^ s.[2, 14] ^^ times2 s.[2, 15]]).

(** The statements of [computefwd] after the call of [computefwd_x5]. *)
Definition computefwd_from_x5 (s : hkstate_t) : hkstate_t * list Z :=
  let s := aesenc_all s 5 in
  let s := mix512 s in (* now x6 *)
  let s := on_lane s 0 (fun l => aesenc l 6 0) in
  let s := on_lane s 2 (fun l => aesenc l 6 2) in
  let s := on_lane s 3 (fun l => aesenc l 6 3) in (* x7 (partial) *)
  let s := on_lane s 0 (fun l => aesenc l 7 0) in
  let s := on_lane s 2 (fun l => aesenc l 7 2) in
  let s := on_lane s 3 (fun l => aesenc l 7 3) in (* x8 (partial) *)
  let s := mix512 s in
  fwd_fingerprint s.

(** Forward path: the final scratch state and [output_tuple]. *)
Definition computefwd (s : hkstate_t)
    (round2_match_through_mc x3_guesses x4_guesses x5_guesses dof : list Z)
    : hkstate_t * list Z :=
  let s := computefwd_x5 s round2_match_through_mc
             x3_guesses x4_guesses x5_guesses dof in
  computefwd_from_x5 s.

(** The closing statements of [computebwd], from the (partial) x0 on: one
    MIX and one round undone on lane 2, the round constant of round 8
    removed, and the four fingerprint bytes read from the result. *)
Definition bwd_fingerprint (s : hkstate_t) : hkstate_t * list Z :=
  let s := invmix512 s in
  let s := on_lane s 2 (fun l => invaesenc l 9 2) in (* now x9 (partial) *)
  let s := on_lane s 2 (fun l => xor_rcons l 8 2) in (* here w8c *)
  (s, [times2 s.[2, 2] ^^ times3 s.[2, 3];
       s.[2, 4] ^^ s.[2, 7];
       times2 s.[2, 8] ^^ times3 s.[2, 9];
       s.[2, 13] ^^ s.[2, 14]]).

(** The statements of [computebwd] down to the (partial) x0. *)
Definition computebwd_x0 (s : hkstate_t)
    (round2_match_through_mc x3_guesses x4_guesses x5_guesses dof : list Z)
    : hkstate_t :=
  let s := store_bwddof s dof in
  let s := store_x5_guesses s x5_guesses in (* now contains x5 *)
  let s := on_lane s 2 (fun l => invaesenc l 4 2) in
  let s := store_x4_guesses s x4_guesses in (* now contains x4 *)
  let s := invmix512 s in
  let s := invaesenc_all s 3 in
  let s := store_x3_guesses s x3_guesses in (* now x3 *)
  let w2a_3 := s.[0, 3] ^^ rccon 2 0 3 in
  let w2a_4 := s.[0, 4] ^^ rccon 2 0 4 in
  let w2a_9 := s.[0, 9] ^^ rccon 2 0 9 in
  let w2a_14 := s.[0, 14] ^^ rccon 2 0 14 in
  (* create z2a *)
  let s := s.[0, 1 <- round2_match_through_mc.[0] ^^ times13 w2a_3] in
  let s := s.[0, 3 <- round2_match_through_mc.[1] ^^ times14 w2a_3] in
  let s := s.[0, 4 <- round2_match_through_mc.[2] ^^ times14 w2a_4] in
  let s := s.[0, 6 <- round2_match_through_mc.[3] ^^ times13 w2a_4] in
  let s := s.[0, 9 <- round2_match_through_mc.[4] ^^ times14 w2a_9] in
  let s := s.[0, 11 <- round2_match_through_mc.[5] ^^ times13 w2a_9] in
  let s := s.[0, 12 <- round2_match_through_mc.[6] ^^ times13 w2a_14] in
  let s := s.[0, 14 <- round2_match_through_mc.[7] ^^ times14 w2a_14] in
  let s := on_lane s 0 invsbsr in
  let s := for_upto 3 (fun s k =>
             let j := (1 + k)%nat in on_lane s j (fun l => invaesenc l 2 j)) s in
  (* now x2 *)
  let s := invmix512 s in
  let s := on_lane s 2 (fun l => invaesenc l 1 2) in
  let s := on_lane s 3 (fun l => invaesenc l 1 3) in
  let s := on_lane s 2 (fun l => invaesenc l 0 2) in
  let s := on_lane s 3 (fun l => invaesenc l 0 3) in (* now x0 (partial) *)
  s.

(** Backward path: the final scratch state and [output_tuple]. *)
Definition computebwd (s : hkstate_t)
    (round2_match_through_mc x3_guesses x4_guesses x5_guesses dof : list Z)
    : hkstate_t * list Z :=
  let s := computebwd_x0 s round2_match_through_mc
             x3_guesses x4_guesses x5_guesses dof in
  bwd_fingerprint s.

(** Recombination: returns x0 (written to [s]) and its image (written to
    [pix0]). *)
Definition compute_x0_pix0_from_choices (rc : list m128i) (s pix0 : hkstate_t)
    (round2_match_through_mc x3_guesses x4_guesses x5_guesses fwddof bwddof : list Z)
    : hkstate_t * hkstate_t :=
  let s := computefwd_x5 s round2_match_through_mc
             x3_guesses x4_guesses x5_guesses fwddof in
  let s := store_bwddof s bwddof in (* full x5 *)
  let v := [state_to_value (lane s 0); state_to_value (lane s 1);
            state_to_value (lane s 2); state_to_value (lane s 3)] in
  (* now apply inverse rounds to get to x0 *)
  let s := invaesenc_all s 4 in (* x4 *)
  let s := invmix512 s in
  let s := invaesenc_all s 3 in (* x3 *)
  let s := invaesenc_all s 2 in (* x2 *)
  let s := invmix512 s in
  let s := invaesenc_all s 1 in (* x1 *)
  let s := invaesenc_all s 0 in (* x0 *)
  (* apply fwd rounds on the tuple s0, s1, s2, s3 which will give pi(x0) *)
  let v := aesenc4 rc v 5 in
  let v := mix_unpack v in
  let v := aesenc4 rc v 6 in
  let v := aesenc4 rc v 7 in
  let v := mix_unpack v in
  let v := aesenc4 rc v 8 in
  let v := aesenc4 rc v 9 in
  let v := mix_unpack v in
  let pix0 := set pix0 0 (value_to_state (lane pix0 0) (lane v 0)) in
  let pix0 := set pix0 1 (value_to_state (lane pix0 1) (lane v 1)) in
  let pix0 := set pix0 2 (value_to_state (lane pix0 2) (lane v 2)) in
  let pix0 := set pix0 3 (value_to_state (lane pix0 3) (lane v 3)) in
  (s, pix0).

(** ** The attack, part 2: the match table and the two worker loops *)

(** [fwdvecs]: 256 x 256 x 256 vectors of 5-byte records, as a function of
    the three shard indices. *)
Definition table_t := Z -> Z -> Z -> list (list Z).

(** The [static] table of [search] starts with every vector empty. *)
Definition empty_table : table_t := fun _ _ _ => [].

(** [fwdvecs[m0][m1][m2].push_back(rec)] *)
Definition push_back_at (fwdvecs : table_t) (m0 m1 m2 : Z) (rec : list Z) : table_t :=
  fun a b c =>
    if (a =? m0) && (b =? m1) && (c =? m2)
    then fwdvecs a b c ++ [rec] else fwdvecs a b c.

(** The four bytes taken from the loop index. *)
Definition dof_of_index (i : Z) : list Z :=
  [Z.land i 255; Z.land (Z.shiftr i 8) 255;
   Z.land (Z.shiftr i 16) 255; Z.land (Z.shiftr i 24) 255].

(** The guard [i % 4 == ind] of both worker loops. *)
Definition owns (ind i : Z) : bool := Z.rem i 4 =? ind.

Definition guesses_ctx (seed : Z) : list Z := [0; 0; 0; 0; 0; 0; 0; seed].
Definition guesses_x3 : list Z := repeat 0 20.
Definition guesses_x4 : list Z := repeat 0 16.
Definition guesses_x5 : list Z := repeat 0 12.

(** The locals of one [populatetable] thread that live across iterations. *)
Record fwd_worker : Type := {
  fw_i : Z;
  fw_fwds : hkstate_t;
  fw_buffer : list (list Z);
  fw_bufsize : Z
}.

(** Emptying the buffer into the table (the block under [mtx]). *)
Definition flush_buffer (fwdvecs : table_t) (buffer : list (list Z)) : table_t :=
  fold_left (fun t v =>
    push_back_at t v.[0] v.[1] v.[2] [v.[3]; v.[4]; v.[5]; v.[6]; v.[7]])
    buffer fwdvecs.

(** One iteration of the loop of [populatetable], at [i = fw_i w], followed
    by [i++].  The progress line it may print is left out. *)
Definition populatetable_iter (ind seed : Z) (fwdvecs : table_t) (w : fwd_worker)
    : table_t * fwd_worker :=
  let i := fw_i w in
  if owns ind i then
    let fwddof := dof_of_index i in
    let '(fwds, res) :=
      computefwd (fw_fwds w) (guesses_ctx seed) guesses_x3 guesses_x4 guesses_x5 fwddof in
    let buffer := fw_buffer w ++
      [[res.[0]; res.[1]; res.[2]; res.[3];
        fwddof.[0]; fwddof.[1]; fwddof.[2]; fwddof.[3]]] in
    let bufsize := fw_bufsize w + 1 in
    if bufsize >? 10000 then
      (flush_buffer fwdvecs buffer,
       {| fw_i := i + 1; fw_fwds := fwds; fw_buffer := []; fw_bufsize := 0 |})
    else
      (fwdvecs,
       {| fw_i := i + 1; fw_fwds := fwds; fw_buffer := buffer; fw_bufsize := bufsize |})
  else
    (fwdvecs,
     {| fw_i := i + 1; fw_fwds := fw_fwds w;
        fw_buffer := fw_buffer w; fw_bufsize := fw_bufsize w |}).

(** A thread at the start of [populatetable]; [fwds] is its uninitialised
    scratch state. *)
Definition fwd_worker_init (fwds : hkstate_t) : fwd_worker :=
  {| fw_i := 0; fw_fwds := fwds; fw_buffer := []; fw_bufsize := 0 |}.

Fixpoint populatetable_loop (n : nat) (ind seed : Z) (fwdvecs : table_t)
    (w : fwd_worker) : table_t * fwd_worker :=
  match n with
  | O => (fwdvecs, w)
  | S n' =>
      let '(fwdvecs, w) := populatetable_iter ind seed fwdvecs w in
      populatetable_loop n' ind seed fwdvecs w
  end.

(** [populatetable] run by one thread with no other thread in between. *)
Definition populatetable (fwdvecs : table_t) (fwds : hkstate_t)
    (ind seed size1 : Z) : table_t :=
  fst (populatetable_loop (Z.to_nat size1) ind seed fwdvecs (fwd_worker_init fwds)).

(** The populate phase of [search]: the shared table and the four threads.
    A step runs one loop iteration of one thread that has not finished;
    the table is only touched under [mtx], inside an iteration, so every
    execution of the four threads is a sequence of such steps. *)
Definition phase1 : Type := table_t * list fwd_worker.

Inductive phase1_step (seed size1 : Z) : phase1 -> phase1 -> Prop :=
| phase1_iter : forall fwdvecs ws ind w,
    nth_error ws ind = Some w ->
    fw_i w < size1 ->
    phase1_step seed size1 (fwdvecs, ws)
      (fst (populatetable_iter (Z.of_nat ind) seed fwdvecs w),
       set ws ind (snd (populatetable_iter (Z.of_nat ind) seed fwdvecs w))).

Inductive phase1_run (seed size1 : Z) : phase1 -> phase1 -> Prop :=
| phase1_refl : forall c, phase1_run seed size1 c c
| phase1_trans : forall c1 c2 c3,
    phase1_run seed size1 c1 c2 -> phase1_step seed size1 c2 c3 ->
    phase1_run seed size1 c1 c3.

(** The four threads as [search] starts them. *)
Definition phase1_init (scratch : list hkstate_t) : phase1 :=
  (empty_table, map fwd_worker_init scratch).

(** All four [join]s have returned. *)
Definition phase1_joined (size1 : Z) (c : phase1) : Prop :=
  Forall (fun w => fw_i w = size1) (snd c).

Definition printcond (pix0 : hkstate_t) : bool :=
  (pix0.[2, 4] =? 0) && (pix0.[2, 7] =? 0)
  && (pix0.[2, 8] =? 0) && (pix0.[2, 9] =? 0)
  && (pix0.[2, 13] =? 0) && (pix0.[2, 14] =? 0).

Definition fullcond (pix0 : hkstate_t) : bool :=
  (pix0.[2, 2] =? 0) && (pix0.[2, 3] =? 0) && (pix0.[2, 13] =? 0) && (pix0.[2, 14] =? 0)
  && (pix0.[2, 4] =? 0) && (pix0.[2, 7] =? 0) && (pix0.[2, 8] =? 0) && (pix0.[2, 9] =? 0).

(** What [bwdsearch] prints for a reported pair: whether it is a full
    solution, x0, and the value shown under "MC-1(sum)". *)
Record report : Type := {
  rep_full : bool;
  rep_x0 : hkstate_t;
  rep_sum : hkstate_t
}.

(** The locals of one [bwdsearch] thread that live across iterations. *)
Record bwd_worker : Type := {
  bw_i : Z;
  bw_bwds : hkstate_t;
  bw_x0 : hkstate_t;
  bw_pix0 : hkstate_t;
  bw_buffer : list (list Z);
  bw_bufsize : Z;
  bw_count_pairs : Z;
  bw_out : list report
}.

(** The matches of the buffered backward results against the table. *)
Definition collect_matches (fwdvecs : table_t) (buffer : list (list Z))
    : list (list Z) :=
  flat_map (fun v =>
    flat_map (fun vv =>
      if vv.[0] =? v.[3]
      then [[vv.[1]; vv.[2]; vv.[3]; vv.[4]; v.[4]; v.[5]; v.[6]; v.[7]]]
      else [])
      (fwdvecs v.[0] v.[1] v.[2]))
    buffer.

(** [pix0[ii][jj] ^= x0[ii][jj]] over the whole state. *)
Definition xor_state (pix0 x0 : hkstate_t) : hkstate_t :=
  for_upto 4 (fun pix0 ii =>
    for_upto 16 (fun pix0 jj => pix0.[ii, jj <- pix0.[ii, jj] ^^ x0.[ii, jj]]) pix0) pix0.

(** The body of the loop over [matches]. *)
Definition check_match (rc : list m128i) (seed : Z) (w : bwd_worker) (v : list Z)
    : bwd_worker :=
  let count_pairs := bw_count_pairs w + 1 in
  let fwddof := [v.[0]; v.[1]; v.[2]; v.[3]] in
  let bwddof := [v.[4]; v.[5]; v.[6]; v.[7]] in
  let '(x0, pix0) :=
    compute_x0_pix0_from_choices rc (bw_x0 w) (bw_pix0 w) (guesses_ctx seed)
      guesses_x3 guesses_x4 guesses_x5 fwddof bwddof in
  let pix0 := xor_state pix0 x0 in
  let pix0 := invmix512 pix0 in
  let pix0 := for_upto 4 (fun pix0 ii =>
    let pix0 := on_lane pix0 ii invmixcolumns in
    on_lane pix0 ii invshiftrows) pix0 in
  let verb := true in
  if (printcond pix0 && verb) || fullcond pix0 then
    let full := fullcond pix0 in
    let pix0 := for_upto 4 (fun pix0 ii => on_lane pix0 ii shiftrows) pix0 in
    let pix0 := mix512 pix0 in
    {| bw_i := bw_i w; bw_bwds := bw_bwds w; bw_x0 := x0; bw_pix0 := pix0;
       bw_buffer := bw_buffer w; bw_bufsize := bw_bufsize w;
       bw_count_pairs := count_pairs;
       bw_out := bw_out w ++ [{| rep_full := full; rep_x0 := x0; rep_sum := pix0 |}] |}
  else
    {| bw_i := bw_i w; bw_bwds := bw_bwds w; bw_x0 := x0; bw_pix0 := pix0;
       bw_buffer := bw_buffer w; bw_bufsize := bw_bufsize w;
       bw_count_pairs := count_pairs; bw_out := bw_out w |}.

(** One iteration of the loop of [bwdsearch], at [i = bw_i w], followed by
    [i++]. *)
Definition bwdsearch_iter (rc : list m128i) (fwdvecs : table_t) (ind seed : Z)
    (w : bwd_worker) : bwd_worker :=
  let i := bw_i w in
  let w :=
    if owns ind i then
      let bwddof := dof_of_index i in
      let '(bwds, res) :=
        computebwd (bw_bwds w) (guesses_ctx seed) guesses_x3 guesses_x4 guesses_x5 bwddof in
      {| bw_i := i; bw_bwds := bwds; bw_x0 := bw_x0 w; bw_pix0 := bw_pix0 w;
         bw_buffer := bw_buffer w ++
           [[res.[0]; res.[1]; res.[2]; res.[3];
             bwddof.[0]; bwddof.[1]; bwddof.[2]; bwddof.[3]]];
         bw_bufsize := bw_bufsize w + 1;
         bw_count_pairs := bw_count_pairs w; bw_out := bw_out w |}
    else w in
  let w :=
    if bw_bufsize w >? 10000 then
      let matches := collect_matches fwdvecs (bw_buffer w) in
      let w := {| bw_i := i; bw_bwds := bw_bwds w; bw_x0 := bw_x0 w;
                  bw_pix0 := bw_pix0 w; bw_buffer := []; bw_bufsize := 0;
                  bw_count_pairs := bw_count_pairs w; bw_out := bw_out w |} in
      fold_left (check_match rc seed) matches w
    else w in
  {| bw_i := i + 1; bw_bwds := bw_bwds w; bw_x0 := bw_x0 w; bw_pix0 := bw_pix0 w;
     bw_buffer := bw_buffer w; bw_bufsize := bw_bufsize w;
     bw_count_pairs := bw_count_pairs w; bw_out := bw_out w |}.

(** The indices below [size] at which the thread [ind] runs its evaluator,
    in loop order. *)
Definition worker_indices (ind size : Z) : list Z :=
  filter (owns ind) (map Z.of_nat (seq 0 (Z.to_nat size))).

(** The sweep sizes fixed in [search]. *)
Definition size1 : Z := Z.shiftl 1 29.
Definition size2 : Z := 4294967295.

(** A thread at the start of [bwdsearch]; [bwds], [x0] and [pix0] are its
    uninitialised local states. *)
Definition bwd_worker_init (bwds x0 pix0 : hkstate_t) : bwd_worker :=
  {| bw_i := 0; bw_bwds := bwds; bw_x0 := x0; bw_pix0 := pix0;
     bw_buffer := []; bw_bufsize := 0; bw_count_pairs := 0; bw_out := [] |}.

Fixpoint bwdsearch_loop (n : nat) (rc : list m128i) (fwdvecs : table_t)
    (ind seed : Z) (w : bwd_worker) : bwd_worker :=
  match n with
  | O => w
  | S n' => bwdsearch_loop n' rc fwdvecs ind seed (bwdsearch_iter rc fwdvecs ind seed w)
  end.

(** [bwdsearch]: what the thread [ind] reports over a sweep of [size]
    indices, in order.  The table is only read in this phase, so the threads
    do not influence each other. *)
Definition bwdsearch (rc : list m128i) (fwdvecs : table_t) (bwds x0 pix0 : hkstate_t)
    (ind seed size : Z) : list report :=
  bw_out (bwdsearch_loop (Z.to_nat size) rc fwdvecs ind seed
            (bwd_worker_init bwds x0 pix0)).

(** ** Vocabulary of the proofs *)

(** The shape of a Haraka state, whatever its bytes. *)
Definition shape (s : hkstate_t) : Prop :=
  length s = 4%nat /\ Forall (fun l => length l = 16%nat) s.

(** Which of the four column entries a row of the inverse diffusion
    returns. *)
Definition col_sel (k j : nat) (x : Z) : Z := if Nat.eqb k j then x else 0.

(** The row [(f0, f1, f2, f3)] applied to a diffused column returns entry
    [k] of the column: checked per contribution of each entry. *)
Definition row_inverts (f0 f1 f2 f3 : Z -> Z) (k : nat) : bool :=
  forallb (fun x =>
    (f0 (times2 x) ^^ f1 x ^^ f2 x ^^ f3 (times3 x) =? col_sel k 0 x)
    && (f0 (times3 x) ^^ f1 (times2 x) ^^ f2 x ^^ f3 x =? col_sel k 1 x)
    && (f0 x ^^ f1 (times3 x) ^^ f2 (times2 x) ^^ f3 x =? col_sel k 2 x)
    && (f0 x ^^ f1 x ^^ f2 (times3 x) ^^ f3 (times2 x) =? col_sel k 3 x))
    all_bytes.

(** An [array<uint8_t, n>]. *)
Definition array_ok (n : nat) (a : list Z) : Prop :=
  length a = n /\ Forall byte a.

(** The state x8 reached from a full x5 by rounds 5, 6 and 7 of
    [haraka512pi]. *)
Definition x8_of_x5 (s : hkstate_t) : hkstate_t :=
  mix512 (aesenc_all (aesenc_all (mix512 (aesenc_all s 5)) 6) 7).

(** The four fingerprint bytes as [computebwd] reads them from the lane
    w8c, and as [computefwd] reads them from the lane z8. *)
Definition bwd_tuple (l : state_t) : list Z :=
  [times2 l.[2] ^^ times3 l.[3];
   l.[4] ^^ l.[7];
   times2 l.[8] ^^ times3 l.[9];
   l.[13] ^^ l.[14]].

Definition fwd_tuple (l : state_t) : list Z :=
  [times7 l.[0] ^^ l.[1] ^^ times7 l.[2];
   l.[4] ^^ times2 l.[5] ^^ times3 l.[7];
   times7 l.[8] ^^ times7 l.[10] ^^ l.[11];
   times3 l.[13] ^^ l.[14] ^^ times2 l.[15]].

(** The number of indices below [i] that the thread [ind] owns. *)
Definition owned_before (ind i : Z) : Z := (i + 3 - ind) / 4.

(** The four DegreesOfFreedom bytes of a buffered 8-byte result and of a
    5-byte table record. *)
Definition buffered_dof (v : list Z) : list Z := [v.[4]; v.[5]; v.[6]; v.[7]].
Definition record_dof (r : list Z) : list Z := [r.[1]; r.[2]; r.[3]; r.[4]].

(** What holds of the shared table and of the four threads throughout the
    populate phase: each thread's [bufsize] counts the indices it owned,
    modulo the flush period; what it buffers comes from indices it has
    passed; and a record in the table comes from an index its thread owned
    before the ones still counted in [bufsize]. *)
Definition phase1_inv (c : phase1) : Prop :=
  length (snd c) = 4%nat
  /\ (forall ind w, nth_error (snd c) ind = Some w ->
        0 <= fw_i w
        /\ fw_bufsize w = owned_before (Z.of_nat ind) (fw_i w) mod 10001
        /\ Forall (fun v => exists j, 0 <= j < fw_i w /\ j mod 4 = Z.of_nat ind
                                      /\ buffered_dof v = dof_of_index j)
             (fw_buffer w))
  /\ (forall m0 m1 m2 r, In r (fst c m0 m1 m2) ->
        exists ind w j,
          nth_error (snd c) ind = Some w
          /\ 0 <= j < fw_i w /\ j mod 4 = Z.of_nat ind
          /\ record_dof r = dof_of_index j
          /\ owned_before (Z.of_nat ind) j + fw_bufsize w
             < owned_before (Z.of_nat ind) (fw_i w)).

(** Decidable forms of the well-formedness predicates. *)
Definition array_okb (n : nat) (a : list Z) : bool :=
  (length a =? n)%nat && forallb in_byte a.

Definition hkstate_okb (s : hkstate_t) : bool :=
  (length s =? 4)%nat && forallb (array_okb 16) s.

(** One step of the populate phase by the thread [ind], and a run along a
    schedule (the list of the threads that step, in order). *)
Definition step_at (seed : Z) (c : phase1) (ind : nat) : phase1 :=
  match nth_error (snd c) ind with
  | Some w =>
      let r := populatetable_iter (Z.of_nat ind) seed (fst c) w in
      (fst r, set (snd c) ind (snd r))
  | None => c
  end.

Definition run_schedule (seed : Z) (sched : list nat) (c : phase1) : phase1 :=
  fold_left (step_at seed) sched c.

(** Every step of the schedule is taken by a thread that has not finished. *)
Fixpoint schedule_ok (seed size : Z) (sched : list nat) (c : phase1) : bool :=
  match sched with
  | [] => true
  | ind :: rest =>
      match nth_error (snd c) ind with
      | Some w => (fw_i w <? size) && schedule_ok seed size rest (step_at seed c ind)
      | None => false
      end
  end.

Definition phase1_joinedb (size : Z) (c : phase1) : bool :=
  forallb (fun w => fw_i w =? size) (snd c).

(** Sample inputs: the state 00 01 .. 3f, the all-zero state, and the
    guess vectors and seed of [search]. *)
Definition sample_lane : state_t := map Z.of_nat (seq 0 16).

Definition sample_state : hkstate_t :=
  [map Z.of_nat (seq 0 16); map Z.of_nat (seq 16 16);
   map Z.of_nat (seq 32 16); map Z.of_nat (seq 48 16)].

Definition zero_state : hkstate_t := repeat (repeat 0 16) 4.

Definition sample_seed : Z := 53.

(** The fingerprints of the index [i] under the guess vectors of [search],
    computed from the all-zero scratch state, and the 8-byte buffer entry
    {m0, m1, m2, m3, f0, f1, f2, f3} of the forward sweep. *)
Definition fwd_result (seed i : Z) : list Z :=
  snd (computefwd zero_state (guesses_ctx seed) guesses_x3 guesses_x4 guesses_x5
         (dof_of_index i)).

Definition bwd_result (seed i : Z) : list Z :=
  snd (computebwd zero_state (guesses_ctx seed) guesses_x3 guesses_x4 guesses_x5
         (dof_of_index i)).

Definition fwd_entry (seed i : Z) : list Z := fwd_result seed i ++ dof_of_index i.

(** Every buffered result and every table record is the forward result of
    an index of the sweep, filed under its first three fingerprint bytes. *)
Definition phase1_sound (seed size : Z) (c : phase1) : Prop :=
  (forall ind w, nth_error (snd c) ind = Some w ->
     0 <= fw_i w /\ hkstate_ok (fw_fwds w)
     /\ Forall (fun v => exists j, 0 <= j < size /\ v = fwd_entry seed j) (fw_buffer w))
  /\ (forall m0 m1 m2 r, In r (fst c m0 m1 m2) ->
        exists j, 0 <= j < size /\ m0 :: m1 :: m2 :: r = fwd_entry seed j).

(** The record of the index [j] is in the shard its fingerprint selects. *)
Definition in_table (fwdvecs : table_t) (seed j : Z) : Prop :=
  exists m0 m1 m2 m3,
    fwd_result seed j = [m0; m1; m2; m3]
    /\ In (m3 :: dof_of_index j) (fwdvecs m0 m1 m2).

(** Every index a thread has passed and owns is either in the table or
    still in its buffer, according to its rank among the owned indices. *)
Definition phase1_complete (seed : Z) (c : phase1) : Prop :=
  forall ind w, nth_error (snd c) ind = Some w ->
  forall j, 0 <= j < fw_i w -> j mod 4 = Z.of_nat ind ->
    (owned_before (Z.of_nat ind) j + fw_bufsize w
       < owned_before (Z.of_nat ind) (fw_i w) -> in_table (fst c) seed j)
    /\ (owned_before (Z.of_nat ind) (fw_i w)
          <= owned_before (Z.of_nat ind) j + fw_bufsize w ->
        In (fwd_entry seed j) (fw_buffer w)).

(** The value [bwdsearch] tests: the feed-forward sum of the permutation
    image and the input, with MIX, the diffusion and the row rotation of
    the last round undone. *)
Definition feed_forward_target (x0 : hkstate_t) : hkstate_t :=
  let pix0 := xor_state (haraka512pi x0) x0 in
  let pix0 := invmix512 pix0 in
  for_upto 4 (fun pix0 ii =>
    let pix0 := on_lane pix0 ii invmixcolumns in
    on_lane pix0 ii invshiftrows) pix0.

(** Every record of every shard consists of bytes. *)
Definition table_bytes (fwdvecs : table_t) : Prop :=
  forall m0 m1 m2 r, In r (fwdvecs m0 m1 m2) -> Forall byte r.

(** What a [bwdsearch] thread keeps true of its locals. *)
Definition bwd_worker_ok (w : bwd_worker) : Prop :=
  hkstate_ok (bw_bwds w) /\ hkstate_ok (bw_x0 w) /\ hkstate_ok (bw_pix0 w).

(** A report is right: [x0] is a state whose feed-forward target has the
    six bytes of the partial pattern at zero, and the report is flagged
    full exactly when the eight bytes of the full pattern are. *)
Definition report_ok (rep : report) : Prop :=
  hkstate_ok (rep_x0 rep)
  /\ printcond (feed_forward_target (rep_x0 rep)) = true
  /\ rep_full rep = fullcond (feed_forward_target (rep_x0 rep))
  /\ rep_sum rep
     = mix512 (for_upto 4 (fun pix0 ii => on_lane pix0 ii shiftrows)
                 (feed_forward_target (rep_x0 rep))).

(** What [bwdsearch] buffers for the index [i]. *)
Definition bwd_entry (seed i : Z) : list Z := bwd_result seed i ++ dof_of_index i.

(** The x0 the recombination writes for a pair of DegreesOfFreedom. *)
Definition recombined (seed : Z) (fwddof bwddof : list Z) : hkstate_t :=
  fst (compute_x0_pix0_from_choices rc_main zero_state zero_state (guesses_ctx seed)
         guesses_x3 guesses_x4 guesses_x5 fwddof bwddof).

(** Where a report comes from: the index [i] of the backward sweep and a
    record of the shard that the backward fingerprint of [i] selects, with
    the fourth fingerprint byte in front. *)
Definition report_of (fwdvecs : table_t) (seed i : Z) (rep : report) : Prop :=
  exists vv,
    In vv (fwdvecs (bwd_result seed i).[0] (bwd_result seed i).[1]
                   (bwd_result seed i).[2])
    /\ vv.[0] = (bwd_result seed i).[3]
    /\ rep_x0 rep = recombined seed [vv.[1]; vv.[2]; vv.[3]; vv.[4]] (dof_of_index i).

(** The indices the thread [ind] has passed when it is at [n], and those
    of them that are no longer counted in a buffer of [bufsize] entries. *)
Definition passed (ind n i : Z) : Prop := 0 <= i < n /\ i mod 4 = ind.

Definition flushed (ind n bufsize i : Z) : Prop :=
  passed ind n i /\ owned_before ind (i + 1) <= owned_before ind n - bufsize.

(** What holds of a [bwdsearch] thread between two iterations: its locals
    are well formed, [bufsize] counts the indices it owned modulo the flush
    period, the buffer holds results of indices it passed, and every report
    is right and comes from an index that has been flushed. *)
Definition bwd_inv (fwdvecs : table_t) (seed ind : Z) (w : bwd_worker) : Prop :=
  0 <= bw_i w /\ bwd_worker_ok w
  /\ 0 <= bw_bufsize w <= 10000
  /\ (0 <= ind < 4 ->
        bw_bufsize w <= owned_before ind (bw_i w)
        /\ (owned_before ind (bw_i w) - bw_bufsize w) mod 10001 = 0)
  /\ Forall (fun v => exists i, passed ind (bw_i w) i /\ v = bwd_entry seed i)
       (bw_buffer w)
  /\ Forall (fun rep => report_ok rep
              /\ exists i, flushed ind (bw_i w) (bw_bufsize w) i
                           /\ report_of fwdvecs seed i rep)
       (bw_out w).

(** A report of the search: the forward index [j] and the backward index
    [i] have the same fingerprint, and x0 is their recombination. *)
Definition matched_pair (seed ind size1 size2 : Z) (rep : report) : Prop :=
  exists j i,
    0 <= j < size1 /\ 0 <= i < size2 /\ i mod 4 = ind
    /\ fwd_result seed j = bwd_result seed i
    /\ rep_x0 rep = recombined seed (dof_of_index j) (dof_of_index i).

(** What one pass [f] of the loop over [matches] does to the locals of the
    thread, for the match [v]. *)
Definition match_step (f : bwd_worker -> list Z -> bwd_worker) (seed : Z)
    (w : bwd_worker) (v : list Z) : Prop :=
  let x0 := recombined seed [v.[0]; v.[1]; v.[2]; v.[3]] [v.[4]; v.[5]; v.[6]; v.[7]] in
  bw_x0 (f w v) = x0 /\ hkstate_ok x0 /\ hkstate_ok (bw_pix0 (f w v))
  /\ bw_bwds (f w v) = bw_bwds w /\ bw_buffer (f w v) = bw_buffer w
  /\ bw_bufsize (f w v) = bw_bufsize w
  /\ bw_out (f w v)
     = bw_out w ++
       (if printcond (feed_forward_target x0)
        then [{| rep_full := fullcond (feed_forward_target x0); rep_x0 := x0;
                 rep_sum := mix512 (for_upto 4 (fun pix0 ii => on_lane pix0 ii shiftrows)
                                      (feed_forward_target x0)) |}]
        else []).

(** A sample run of the first phase: a sweep of 40001 indices, the four
    threads scheduled one after the other, from all-zero scratch states.
    Thread 0 owns 10001 indices and flushes once. *)
Definition sample_sweep : Z := 40001.

Definition sample_schedule : list nat :=
  repeat 0%nat (Z.to_nat sample_sweep) ++ repeat 1%nat (Z.to_nat sample_sweep)
  ++ repeat 2%nat (Z.to_nat sample_sweep) ++ repeat 3%nat (Z.to_nat sample_sweep).

Definition sample_scratch : list hkstate_t :=
  [zero_state; zero_state; zero_state; zero_state].

Definition sample_final : phase1 :=
  run_schedule sample_seed sample_schedule (phase1_init sample_scratch).

(** The ten rounds undone, last round first, with the inverse steps of the
    source. *)
Definition invharaka512pi (hkstate : hkstate_t) : hkstate_t :=
  for_upto 10 (fun hkstate k =>
    let r := (9 - k)%nat in
    let hkstate := if (r mod 2 =? 1)%nat then invmix512 hkstate else hkstate in
    invaesenc_all hkstate r) hkstate.

(** The state after the rounds 0..4 of the permutation. *)
Definition x5_of_x0 (s : hkstate_t) : hkstate_t :=
  aesenc_all (mix512 (aesenc_all (aesenc_all (mix512
    (aesenc_all (aesenc_all s 0) 1)) 2) 3)) 4.

(** The indices of the thread whose results are still in its buffer. *)
Definition buffered (ind n bufsize i : Z) : Prop :=
  passed ind n i /\ owned_before ind n - bufsize < owned_before ind (i + 1).

(** Nothing is lost on the way: the result of every index still counted in
    [bufsize] is in the buffer, and every pair of a flushed index and a
    record of its shard with the same fourth fingerprint byte whose x0
    passes [printcond] on its feed-forward target has been reported. *)
Definition bwd_complete (fwdvecs : table_t) (seed ind : Z) (w : bwd_worker) : Prop :=
  (forall i, buffered ind (bw_i w) (bw_bufsize w) i -> In (bwd_entry seed i) (bw_buffer w))
  /\ (forall i vv,
        flushed ind (bw_i w) (bw_bufsize w) i ->
        In vv (fwdvecs (bwd_result seed i).[0] (bwd_result seed i).[1]
                       (bwd_result seed i).[2]) ->
        vv.[0] = (bwd_result seed i).[3] ->
        printcond (feed_forward_target
                     (recombined seed [vv.[1]; vv.[2]; vv.[3]; vv.[4]] (dof_of_index i)))
        = true ->
        exists rep, In rep (bw_out w)
          /\ rep_x0 rep = recombined seed [vv.[1]; vv.[2]; vv.[3]; vv.[4]]
                            (dof_of_index i)).

(** A sample table for the second phase: every shard holds one record
    whose first byte is the fourth fingerprint byte of the backward
    index 0. *)
Definition sample_record : list Z := [(bwd_result sample_seed 0).[3]; 1; 0; 0; 0].

Definition sample_table : table_t := fun _ _ _ => [sample_record].

(** The indices at which a worker loop runs its evaluator, read off the
    run of the loop itself over [n] iterations.  Both loops count every
    evaluator result they push in [bufsize], in the statement after the
    call, and change [bufsize] nowhere else but to reset it when it has
    exceeded 10000; so the evaluator ran in an iteration exactly when the
    iteration changed [bufsize]. *)
Fixpoint populatetable_trace (n : nat) (ind seed : Z) (fwdvecs : table_t)
    (w : fwd_worker) : list Z :=
  match n with
  | O => []
  | S n' =>
      let r := populatetable_iter ind seed fwdvecs w in
      (if fw_bufsize (snd r) =? fw_bufsize w then [] else [fw_i w])
      ++ populatetable_trace n' ind seed (fst r) (snd r)
  end.

Fixpoint bwdsearch_trace (n : nat) (rc : list m128i) (fwdvecs : table_t)
    (ind seed : Z) (w : bwd_worker) : list Z :=
  match n with
  | O => []
  | S n' =>
      let w' := bwdsearch_iter rc fwdvecs ind seed w in
      (if bw_bufsize w' =? bw_bufsize w then [] else [bw_i w])
      ++ bwdsearch_trace n' rc fwdvecs ind seed w'
  end.

(** A sample for the unexamined tail of the second phase: a sweep of 40005
    indices, of which thread 0 owns 10002, and a table whose every shard
    holds a record for the fourth fingerprint byte of the backward index 0
    (flushed) and one for that of the backward index 40004 (the tail). *)
Definition sample_tail_sweep : Z := 40005.

Definition sample_tail_record : list Z := [(bwd_result sample_seed 40004).[3]; 2; 0; 0; 0].

Definition sample_tail_table : table_t := fun _ _ _ => [sample_record; sample_tail_record].

(** ** Which bytes of a state an evaluator knows *)

(** A mask marks positions [(lane, byte)] of a Haraka state. *)
Definition mask_t : Type := list (list bool).

Definition mask_at (M : mask_t) (j i : nat) : bool := nth i (nth j M []) false.

Definition mask_of (f : nat -> nat -> bool) : mask_t :=
  map (fun j => map (fun i => f j i) (seq 0 16)) (seq 0 4).

(** Two well-formed states that hold the same byte at every marked
    position. *)
Definition agree (M : mask_t) (s t : hkstate_t) : Prop :=
  hkstate_ok s /\ hkstate_ok t
  /\ forall j i, mask_at M j i = true -> s.[j, i] = t.[j, i].

(** Where [invmix512] takes the byte it writes at [(j, i)], and where
    [invshiftrows] takes the byte it writes at [p]: the maps are read off
    the code run on the state 00 01 .. 3f. *)
Definition invmix512_src (j i : nat) : nat * nat :=
  let v := (invmix512 sample_state).[j, i] in (Z.to_nat (v / 16), Z.to_nat (v mod 16)).

Definition invshiftrows_src (p : nat) : nat := Z.to_nat (invshiftrows sample_lane).[p].

(** The masks after [invmix512], after [invaesenc] on the lanes [lanes] (a
    byte is known when its whole column was), and after a store. *)
Definition mask_invmix512 (M : mask_t) : mask_t :=
  mask_of (fun j i => mask_at M (fst (invmix512_src j i)) (snd (invmix512_src j i))).

Definition col_known (M : mask_t) (j p : nat) : bool :=
  forallb (fun k => mask_at M j (4 * (invshiftrows_src p / 4) + k)) (seq 0 4).

Definition mask_invaesenc (M : mask_t) (lanes : list nat) : mask_t :=
  mask_of (fun j p => if existsb (Nat.eqb j) lanes then col_known M j p else mask_at M j p).

Definition mask_set (M : mask_t) (j i : nat) (b : bool) : mask_t :=
  mask_of (fun j' i' => if (j' =? j)%nat && (i' =? i)%nat then b else mask_at M j' i').

Definition mask_sets (M : mask_t) (ps : list (nat * nat)) (b : bool) : mask_t :=
  fold_left (fun M p => mask_set M (fst p) (snd p) b) ps M.

Definition mask_le (M' M : mask_t) : bool :=
  forallb (fun j => forallb (fun i => implb (mask_at M' j i) (mask_at M j i)) (seq 0 16))
    (seq 0 4).

Definition mask_lanes (lanes : list nat) : mask_t :=
  mask_of (fun j _ => existsb (Nat.eqb j) lanes).

(** Lane 0 of x3 as the forward evaluator fills it: the four forward
    DegreesOfFreedom bytes and the eight bytes it deduces from them and
    from [round2_match_through_mc]. *)
Definition fwd_lane0 (l : state_t) (round2_match_through_mc dof : list Z) : Prop :=
  [l.[1]; l.[6]; l.[11]; l.[12]; l.[0]; l.[2]; l.[5]; l.[7]; l.[8]; l.[10]; l.[13]; l.[15]]
  = [dof.[0] ^^ rccon 2 0 1; dof.[1] ^^ rccon 2 0 6;
     dof.[2] ^^ rccon 2 0 11; dof.[3] ^^ rccon 2 0 12;
     times201 round2_match_through_mc.[0] ^^ times68 round2_match_through_mc.[1]
       ^^ times203 dof.[0] ^^ rccon 2 0 0;
     times68 round2_match_through_mc.[0] ^^ times201 round2_match_through_mc.[1]
       ^^ times71 dof.[0] ^^ rccon 2 0 2;
     times68 round2_match_through_mc.[2] ^^ times201 round2_match_through_mc.[3]
       ^^ times203 dof.[1] ^^ rccon 2 0 5;
     times201 round2_match_through_mc.[2] ^^ times68 round2_match_through_mc.[3]
       ^^ times71 dof.[1] ^^ rccon 2 0 7;
     times201 round2_match_through_mc.[4] ^^ times68 round2_match_through_mc.[5]
       ^^ times71 dof.[2] ^^ rccon 2 0 8;
     times68 round2_match_through_mc.[4] ^^ times201 round2_match_through_mc.[5]
       ^^ times203 dof.[2] ^^ rccon 2 0 10;
     times68 round2_match_through_mc.[6] ^^ times201 round2_match_through_mc.[7]
       ^^ times71 dof.[3] ^^ rccon 2 0 13;
     times201 round2_match_through_mc.[6] ^^ times68 round2_match_through_mc.[7]
       ^^ times203 dof.[3] ^^ rccon 2 0 15].

(** Lane 0 after the backward evaluator has created z2a in it. *)
Definition z2a_lane (a : state_t) (round2_match_through_mc : list Z) : state_t :=
  let w2a_3 := a.[3] ^^ rccon 2 0 3 in
  let w2a_4 := a.[4] ^^ rccon 2 0 4 in
  let w2a_9 := a.[9] ^^ rccon 2 0 9 in
  let w2a_14 := a.[14] ^^ rccon 2 0 14 in
  let a := a.[1 <- round2_match_through_mc.[0] ^^ times13 w2a_3] in
  let a := a.[3 <- round2_match_through_mc.[1] ^^ times14 w2a_3] in
  let a := a.[4 <- round2_match_through_mc.[2] ^^ times14 w2a_4] in
  let a := a.[6 <- round2_match_through_mc.[3] ^^ times13 w2a_4] in
  let a := a.[9 <- round2_match_through_mc.[4] ^^ times14 w2a_9] in
  let a := a.[11 <- round2_match_through_mc.[5] ^^ times13 w2a_9] in
  let a := a.[12 <- round2_match_through_mc.[6] ^^ times13 w2a_14] in
  let a := a.[14 <- round2_match_through_mc.[7] ^^ times14 w2a_14] in
  a.

Definition mask_bounded (M : mask_t) : bool :=
  (length M <=? 4)%nat && forallb (fun l => (length l <=? 16)%nat) M.

(** The positions written by the stores of the guessed bytes of x3 and of
    x4, in the order of the stores. *)
Definition x3_positions : list (nat * nat) :=
  [(1, 1); (1, 2); (1, 6); (1, 7); (1, 8); (1, 11); (1, 12); (1, 13);
   (2, 1); (2, 6); (2, 11); (2, 12);
   (3, 0); (3, 1); (3, 5); (3, 6); (3, 10); (3, 11); (3, 12); (3, 15)]%nat.

Definition x4_positions : list (nat * nat) :=
  [(1, 0); (1, 1); (1, 2); (1, 3); (1, 12); (1, 13); (1, 14); (1, 15);
   (3, 4); (3, 5); (3, 6); (3, 7); (3, 12); (3, 13); (3, 14); (3, 15)]%nat.

(** The statements of [computebwd] that create z2a in lane 0. *)
Definition store_z2a (s : hkstate_t) (round2_match_through_mc : list Z) : hkstate_t :=
  let w2a_3 := s.[0, 3] ^^ rccon 2 0 3 in
  let w2a_4 := s.[0, 4] ^^ rccon 2 0 4 in
  let w2a_9 := s.[0, 9] ^^ rccon 2 0 9 in
  let w2a_14 := s.[0, 14] ^^ rccon 2 0 14 in
  let s := s.[0, 1 <- round2_match_through_mc.[0] ^^ times13 w2a_3] in
  let s := s.[0, 3 <- round2_match_through_mc.[1] ^^ times14 w2a_3] in
  let s := s.[0, 4 <- round2_match_through_mc.[2] ^^ times14 w2a_4] in
  let s := s.[0, 6 <- round2_match_through_mc.[3] ^^ times13 w2a_4] in
  let s := s.[0, 9 <- round2_match_through_mc.[4] ^^ times14 w2a_9] in
  let s := s.[0, 11 <- round2_match_through_mc.[5] ^^ times13 w2a_9] in
  let s := s.[0, 12 <- round2_match_through_mc.[6] ^^ times13 w2a_14] in
  let s := s.[0, 14 <- round2_match_through_mc.[7] ^^ times14 w2a_14] in
  s.

(** After z2a has been created and [invsbsr] applied, the backward
    evaluator knows columns 1 and 3 of lane 0. *)
Definition mask_round2_lane0 (M : mask_t) : mask_t :=
  mask_of (fun j i =>
    if (j =? 0)%nat then existsb (Nat.eqb i) [4; 5; 6; 7; 12; 13; 14; 15]%nat
    else mask_at M j i).

(** The bytes of x4 on which the true state agrees with the forward
    evaluator's round-3 output, and the bytes of x3 this leaves. *)
Definition mask_fwd_x4 : mask_t := mask_sets (mask_lanes [0; 1; 3]%nat) x4_positions false.

Definition mask_invaesenc_all (M : mask_t) : mask_t :=
  mask_invaesenc (mask_invaesenc (mask_invaesenc (mask_invaesenc M [0]%nat)
    [1]%nat) [2]%nat) [3]%nat.

Definition mask_fwd_x3 : mask_t := mask_invaesenc_all (mask_invmix512 mask_fwd_x4).

(** The bytes the backward evaluator knows of x4, x3 (before and after its
    stores) and x2. *)
Definition mask_bwd_x4 : mask_t := mask_sets (mask_lanes [2]%nat) x4_positions true.

Definition mask_bwd_x3 : mask_t :=
  mask_sets (mask_invaesenc_all (mask_invmix512 mask_bwd_x4)) x3_positions true.

Definition mask_bwd_x2 : mask_t :=
  mask_invaesenc (mask_invaesenc (mask_invaesenc (mask_round2_lane0 mask_bwd_x3)
    [1]%nat) [2]%nat) [3]%nat.


Lemma all_bytes_complete b : byte b -> In b all_bytes.
Proof.
  intros H. unfold all_bytes. apply in_map_iff. exists (Z.to_nat b).
  unfold byte in H. split; [lia | apply in_seq; lia].
Qed.

Lemma forall_byte (P : Z -> bool) :
  forallb P all_bytes = true -> forall b, byte b -> P b = true.
Proof.
  intros H b Hb. rewrite forallb_forall in H. apply H, all_bytes_complete, Hb.
Qed.

Lemma byte_lxor a b : byte a -> byte b -> byte (a ^^ b).
Proof.
  unfold byte. intros Ha Hb.
  assert (0 <= a ^^ b) by (apply Z.lxor_nonneg; lia).
  split; [assumption|].
  destruct (Z.eq_dec (a ^^ b) 0) as [->|Hn]; [lia|].
  apply (Z.log2_lt_pow2 _ 8); [lia|].
  pose proof (Z.log2_lxor a b ltac:(lia) ltac:(lia)) as Hl.
  assert (Z.log2 a < 8).
  { destruct (Z.eq_dec a 0) as [->|]; [cbn; lia | apply Z.log2_lt_pow2; lia]. }
  assert (Z.log2 b < 8).
  { destruct (Z.eq_dec b 0) as [->|]; [cbn; lia | apply Z.log2_lt_pow2; lia]. }
  lia.
Qed.

Lemma lxor_cancel_r a k : a ^^ k ^^ k = a.
Proof. rewrite Z.lxor_assoc, Z.lxor_nilpotent. apply Z.lxor_0_r. Qed.

Ltac by_enumeration P :=
  let b := fresh "b" in let Hb := fresh "Hb" in
  intros b Hb; pattern b; revert b Hb;
  match goal with
  | |- forall b, byte b -> ?Q b =>
      intros b Hb; generalize (forall_byte P ltac:(vm_compute; reflexivity) b Hb)
  end.

Lemma in_byte_spec z : in_byte z = true -> byte z.
Proof. unfold in_byte, byte. intros H. apply andb_prop in H. lia. Qed.

Ltac table_range f :=
  let b := fresh "b" in let Hb := fresh "Hb" in
  intros b Hb; apply in_byte_spec;
  exact (forall_byte (fun x => in_byte (f x)) ltac:(vm_compute; reflexivity) b Hb).

Lemma times2_ok : table_ok times2. Proof. table_range times2. Qed.
Lemma times3_ok : table_ok times3. Proof. table_range times3. Qed.
Lemma times7_ok : table_ok times7. Proof. table_range times7. Qed.
Lemma times9_ok : table_ok times9. Proof. table_range times9. Qed.
Lemma times11_ok : table_ok times11. Proof. table_range times11. Qed.
Lemma times13_ok : table_ok times13. Proof. table_range times13. Qed.
Lemma times14_ok : table_ok times14. Proof. table_range times14. Qed.
Lemma times68_ok : table_ok times68. Proof. table_range times68. Qed.
Lemma times71_ok : table_ok times71. Proof. table_range times71. Qed.
Lemma times201_ok : table_ok times201. Proof. table_range times201. Qed.
Lemma times203_ok : table_ok times203. Proof. table_range times203. Qed.
Lemma sbox_ok : table_ok sbox. Proof. table_range sbox. Qed.
Lemma invsbox_ok : table_ok invsbox. Proof. table_range invsbox. Qed.

Lemma parts_sum y : byte y -> xor_all (parts y) = y.
Proof.
  intros Hy. apply Z.eqb_eq.
  exact (forall_byte (fun y => xor_all (parts y) =? y) ltac:(vm_compute; reflexivity) y Hy).
Qed.

Lemma parts_units y : byte y -> forallb unit_or_zero (parts y) = true.
Proof.
  intros Hy.
  exact (forall_byte (fun y => forallb unit_or_zero (parts y))
           ltac:(vm_compute; reflexivity) y Hy).
Qed.

Lemma additive_at_unit f p :
  additive_on_units f = true -> unit_or_zero p = true -> byte p /\ additive_at f p.
Proof.
  intros Hf Hp. unfold unit_or_zero in Hp. apply existsb_exists in Hp.
  destruct Hp as [k [Hk Hpk]]. apply Z.eqb_eq in Hpk. subst k.
  split.
  - unfold byte. cbn in Hk. intuition lia.
  - unfold additive_on_units in Hf. rewrite forallb_forall in Hf.
    specialize (Hf p Hk). intros x Hx. apply Z.eqb_eq.
    exact (forall_byte _ Hf x Hx).
Qed.

Lemma additive_at_xor f y1 y2 :
  byte y1 -> byte y2 -> additive_at f y1 -> additive_at f y2 ->
  additive_at f (y1 ^^ y2).
Proof.
  intros B1 B2 H1 H2 x Hx.
  rewrite <- Z.lxor_assoc, (H2 (x ^^ y1)) by (apply byte_lxor; assumption).
  rewrite (H1 x Hx), (H2 y1 B1). apply Z.lxor_assoc.
Qed.

Lemma additive_at_xor_all f l :
  additive_on_units f = true -> forallb unit_or_zero l = true ->
  byte (xor_all l) /\ additive_at f (xor_all l).
Proof.
  intros Hf. induction l as [|p l IH]; intros Hl.
  - apply (additive_at_unit f 0 Hf). reflexivity.
  - cbn in Hl. apply andb_prop in Hl. destruct Hl as [Hp Hl].
    destruct (IH Hl) as [Bl Al].
    destruct (additive_at_unit f p Hf Hp) as [Bp Ap].
    cbn [xor_all fold_right]. split.
    + apply byte_lxor; assumption.
    + apply additive_at_xor; assumption.
Qed.

Lemma additive_from_units f : additive_on_units f = true -> additive f.
Proof.
  intros Hf a b Ha Hb.
  rewrite <- (parts_sum b Hb).
  apply (additive_at_xor_all f (parts b) Hf (parts_units b Hb)). exact Ha.
Qed.

Lemma times2_additive : additive times2.
Proof. apply additive_from_units. vm_compute. reflexivity. Qed.
Lemma times3_additive : additive times3.
Proof. apply additive_from_units. vm_compute. reflexivity. Qed.
Lemma times9_additive : additive times9.
Proof. apply additive_from_units. vm_compute. reflexivity. Qed.
Lemma times11_additive : additive times11.
Proof. apply additive_from_units. vm_compute. reflexivity. Qed.
Lemma times13_additive : additive times13.
Proof. apply additive_from_units. vm_compute. reflexivity. Qed.
Lemma times14_additive : additive times14.
Proof. apply additive_from_units. vm_compute. reflexivity. Qed.

Lemma invsbox_sbox b : byte b -> invsbox (sbox b) = b.
Proof.
  intros Hb. apply Z.eqb_eq.
  exact (forall_byte (fun b => invsbox (sbox b) =? b) ltac:(vm_compute; reflexivity) b Hb).
Qed.

Lemma sbox_invsbox b : byte b -> sbox (invsbox b) = b.
Proof.
  intros Hb. apply Z.eqb_eq.
  exact (forall_byte (fun b => sbox (invsbox b) =? b) ltac:(vm_compute; reflexivity) b Hb).
Qed.

(** * Properties *)

(** ** Arrays *)

Lemma length_set {A : Type} (a : list A) i v : length (set a i v) = length a.
Proof.
  revert i. induction a as [|h t IH]; intros [|i]; cbn; auto.
Qed.

Lemma Forall_set {A : Type} (P : A -> Prop) a i v :
  Forall P a -> P v -> Forall P (set a i v).
Proof.
  intros Ha Hv. revert i.
  induction Ha as [|h t Hh Ht IH]; intros [|i]; cbn; auto.
Qed.

Lemma Forall_set_nth {A : Type} (P : A -> Prop) a i d (f : A -> A) :
  Forall P a -> (forall x, P x -> P (f x)) -> Forall P (set a i (f (nth i a d))).
Proof.
  intros Ha Hf. revert i.
  induction Ha as [|h t Hh Ht IH]; intros [|i]; cbn; auto.
Qed.

Lemma Forall_nth_default {A : Type} (P : A -> Prop) a i d :
  Forall P a -> P d -> P (nth i a d).
Proof.
  intros Ha Hd. revert i.
  induction Ha as [|h t Hh Ht IH]; intros [|i]; cbn; auto.
Qed.

Lemma byte_0 : byte 0.
Proof. unfold byte. lia. Qed.

Lemma get_byte a i : Forall byte a -> byte a.[i].
Proof.
  intros Ha. unfold get. apply Forall_nth_default; [assumption | apply byte_0].
Qed.

Lemma state_ok_set a i v : state_ok a -> byte v -> state_ok a.[i <- v].
Proof.
  intros [L F] Hv. split; [rewrite length_set; assumption | apply Forall_set; assumption].
Qed.

Lemma hkstate_ok_shape s : hkstate_ok s -> shape s.
Proof.
  intros [L F]. split; [assumption|].
  apply (Forall_impl _ (P := state_ok)); [intros a [La _]; exact La | assumption].
Qed.

Lemma get2_byte s j i : hkstate_ok s -> byte s.[j, i].
Proof.
  intros [L F]. unfold get2, lane. apply get_byte.
  apply (Forall_nth_default (fun l => Forall byte l)); [|constructor].
  apply (Forall_impl _ (P := state_ok)); [intros a [_ Fa]; exact Fa | assumption].
Qed.

Lemma on_lane_ok s j f :
  hkstate_ok s -> (forall l, state_ok l -> state_ok (f l)) -> hkstate_ok (on_lane s j f).
Proof.
  intros [L F] Hf. unfold on_lane, lane. split.
  - rewrite length_set. assumption.
  - apply Forall_set_nth; assumption.
Qed.

Lemma set2_ok s j i v : hkstate_ok s -> byte v -> hkstate_ok s.[j, i <- v].
Proof.
  intros Hs Hv. apply (on_lane_ok s j (fun l => l.[i <- v])); [assumption|].
  intros l Hl. apply state_ok_set; assumption.
Qed.

Lemma for_upto_inv {S : Type} (P : S -> Prop) n (body : S -> nat -> S) s :
  (forall s i, P s -> P (body s i)) -> P s -> P (for_upto n body s).
Proof.
  intros Hb. unfold for_upto. generalize (seq 0 n). intros l. revert s.
  induction l as [|i l IH]; intros s Hs; cbn; auto.
Qed.

(** ** Symbolic evaluation of the byte code *)

Ltac hk_eval :=
  lazy -[Z.lxor sbox invsbox aes_sbox gf_mul
         times2 times3 times7 times9 times11 times13 times14
         times68 times71 times201 times203 rcons_at byte].

Ltac explode_list a H :=
  repeat (destruct a as [|? a]; [discriminate H|];
          cbn [length] in H; injection H as H);
  destruct a; [clear H|discriminate H].

Ltac split_forall F :=
  repeat (let B := fresh "B" in
          apply Forall_cons_iff in F; destruct F as [B F]);
  clear F.

(** A well-formed lane as sixteen named bytes. *)
Ltac explode_state s H :=
  let L := fresh "L" in let F := fresh "F" in
  destruct H as [L F]; explode_list s L; split_forall F.

(** A Haraka state of the right shape as 64 named values. *)
Ltac explode_shape s H :=
  let L := fresh "L" in let F := fresh "F" in
  destruct H as [L F];
  explode_list s L;
  repeat match goal with
  | F : Forall _ (?l :: _) |- _ =>
      let H1 := fresh "L" in
      apply Forall_cons_iff in F; destruct F as [H1 F];
      explode_list l H1
  | F : Forall _ [] |- _ => clear F
  end.

(** A well-formed Haraka state as 64 named bytes. *)
Ltac explode_hkstate s H :=
  let L := fresh "L" in let F := fresh "F" in
  destruct H as [L F];
  explode_list s L;
  repeat match goal with
  | F : Forall state_ok (?l :: _) |- _ =>
      let H1 := fresh "K" in
      apply Forall_cons_iff in F; destruct F as [H1 F];
      explode_state l H1
  | F : Forall state_ok [] |- _ => clear F
  end.

Lemma rcons_at_byte k b : byte (rcons_at k b).
Proof.
  unfold rcons_at. apply Forall_nth_default; [|apply byte_0].
  apply (Forall_nth_default (fun l => Forall byte l)); [|constructor].
  apply Forall_forall. intros row Hrow. apply Forall_forall. intros x Hx.
  apply in_byte_spec.
  assert (Hall : forallb (fun row => forallb in_byte row) haraka_rcons_table = true)
    by (vm_compute; reflexivity).
  rewrite forallb_forall in Hall. specialize (Hall row Hrow).
  rewrite forallb_forall in Hall. exact (Hall x Hx).
Qed.

Lemma byte_times2 b : byte b -> byte (times2 b). Proof. apply times2_ok. Qed.
Lemma byte_times3 b : byte b -> byte (times3 b). Proof. apply times3_ok. Qed.
Lemma byte_times7 b : byte b -> byte (times7 b). Proof. apply times7_ok. Qed.
Lemma byte_times9 b : byte b -> byte (times9 b). Proof. apply times9_ok. Qed.
Lemma byte_times11 b : byte b -> byte (times11 b). Proof. apply times11_ok. Qed.
Lemma byte_times13 b : byte b -> byte (times13 b). Proof. apply times13_ok. Qed.
Lemma byte_times14 b : byte b -> byte (times14 b). Proof. apply times14_ok. Qed.
Lemma byte_times68 b : byte b -> byte (times68 b). Proof. apply times68_ok. Qed.
Lemma byte_times71 b : byte b -> byte (times71 b). Proof. apply times71_ok. Qed.
Lemma byte_times201 b : byte b -> byte (times201 b). Proof. apply times201_ok. Qed.
Lemma byte_times203 b : byte b -> byte (times203 b). Proof. apply times203_ok. Qed.
Lemma byte_sbox b : byte b -> byte (sbox b). Proof. apply sbox_ok. Qed.
Lemma byte_invsbox b : byte b -> byte (invsbox b). Proof. apply invsbox_ok. Qed.

Create HintDb hk discriminated.
#[local] Hint Resolve byte_0 byte_lxor rcons_at_byte get_byte get2_byte
  byte_times2 byte_times3 byte_times7 byte_times9 byte_times11 byte_times13
  byte_times14 byte_times68 byte_times71 byte_times201 byte_times203
  byte_sbox byte_invsbox : hk.

(** Closes [state_ok] of an evaluated lane and [hkstate_ok] of an
    evaluated state. *)
Ltac lane_goal :=
  split;
  [reflexivity
  | repeat (apply Forall_cons; [auto 12 with hk|]); apply Forall_nil].

Ltac state_goal :=
  split;
  [reflexivity
  | repeat (apply Forall_cons; [cbv beta; lane_goal|]); apply Forall_nil].

Ltac lane_ok_by_eval :=
  let s := fresh "s" in let H := fresh "H" in
  intros s H; explode_state s H; hk_eval; lane_goal.

Lemma subbytes_ok : forall s, state_ok s -> state_ok (subbytes s).
Proof. lane_ok_by_eval. Qed.

Lemma invsubbytes_ok : forall s, state_ok s -> state_ok (invsubbytes s).
Proof. lane_ok_by_eval. Qed.

Lemma shiftrows_ok : forall s, state_ok s -> state_ok (shiftrows s).
Proof. lane_ok_by_eval. Qed.

Lemma invshiftrows_ok : forall s, state_ok s -> state_ok (invshiftrows s).
Proof. lane_ok_by_eval. Qed.

Lemma sbsr_ok : forall s, state_ok s -> state_ok (sbsr s).
Proof. lane_ok_by_eval. Qed.

Lemma invsbsr_ok : forall s, state_ok s -> state_ok (invsbsr s).
Proof. lane_ok_by_eval. Qed.

Lemma mixcolumns_ok : forall s, state_ok s -> state_ok (mixcolumns s).
Proof. lane_ok_by_eval. Qed.

Lemma invmixcolumns_ok : forall s, state_ok s -> state_ok (invmixcolumns s).
Proof. lane_ok_by_eval. Qed.

Lemma xor_rcons_ok r j : forall s, state_ok s -> state_ok (xor_rcons s r j).
Proof.
  unfold xor_rcons. generalize (4 * r + j)%nat. intros k. lane_ok_by_eval.
Qed.

Lemma mcrc_ok r j : forall s, state_ok s -> state_ok (mcrc s r j).
Proof.
  unfold mcrc. generalize (4 * r + j)%nat. intros k. lane_ok_by_eval.
Qed.

Lemma invmcrc_ok r j : forall s, state_ok s -> state_ok (invmcrc s r j).
Proof.
  unfold invmcrc. generalize (4 * r + j)%nat. intros k. lane_ok_by_eval.
Qed.

Lemma aesenc_ok r j : forall s, state_ok s -> state_ok (aesenc s r j).
Proof. intros s H. unfold aesenc. apply mcrc_ok, sbsr_ok, H. Qed.

Lemma invaesenc_ok r j : forall s, state_ok s -> state_ok (invaesenc s r j).
Proof. intros s H. unfold invaesenc. apply invsbsr_ok, invmcrc_ok, H. Qed.

Lemma mix512_ok : forall s, hkstate_ok s -> hkstate_ok (mix512 s).
Proof. intros s H. explode_hkstate s H. hk_eval. state_goal. Qed.

Lemma invmix512_ok : forall s, hkstate_ok s -> hkstate_ok (invmix512 s).
Proof. intros s H. explode_hkstate s H. hk_eval. state_goal. Qed.

Lemma aesenc_all_ok r : forall s, hkstate_ok s -> hkstate_ok (aesenc_all s r).
Proof.
  intros s H. unfold aesenc_all. apply for_upto_inv; [|assumption].
  intros s' j Hs'. apply on_lane_ok; [assumption | apply aesenc_ok].
Qed.

Lemma invaesenc_all_ok r : forall s, hkstate_ok s -> hkstate_ok (invaesenc_all s r).
Proof.
  intros s H. unfold invaesenc_all. apply for_upto_inv; [|assumption].
  intros s' j Hs'. apply on_lane_ok; [assumption | apply invaesenc_ok].
Qed.

(** ** Round trips of the primitives *)

Lemma xor_regroup a1 b1 c1 d1 a2 b2 c2 d2 a3 b3 c3 d3 a4 b4 c4 d4 :
  (a1 ^^ b1 ^^ c1 ^^ d1) ^^ (a2 ^^ b2 ^^ c2 ^^ d2)
  ^^ (a3 ^^ b3 ^^ c3 ^^ d3) ^^ (a4 ^^ b4 ^^ c4 ^^ d4)
  = (a1 ^^ a2 ^^ a3 ^^ a4) ^^ (b1 ^^ b2 ^^ b3 ^^ b4)
    ^^ (c1 ^^ c2 ^^ c3 ^^ c4) ^^ (d1 ^^ d2 ^^ d3 ^^ d4).
Proof.
  apply Z.bits_inj'. intros n _. rewrite !Z.lxor_spec. btauto.
Qed.

Lemma additive4 f : additive f -> forall x y z w,
  byte x -> byte y -> byte z -> byte w ->
  f (x ^^ y ^^ z ^^ w) = f x ^^ f y ^^ f z ^^ f w.
Proof.
  intros Hf x y z w Bx By Bz Bw. rewrite !Hf; auto using byte_lxor.
Qed.

Section InverseRow.
Variables f0 f1 f2 f3 : Z -> Z.
Hypothesis A0 : additive f0.
Hypothesis A1 : additive f1.
Hypothesis A2 : additive f2.
Hypothesis A3 : additive f3.
Variable k : nat.
Hypothesis Hrow : row_inverts f0 f1 f2 f3 k = true.

Lemma row_inverts_column a b c d :
    byte a -> byte b -> byte c -> byte d ->
    f0 (times2 a ^^ times3 b ^^ c ^^ d)
    ^^ f1 (a ^^ times2 b ^^ times3 c ^^ d)
    ^^ f2 (a ^^ b ^^ times2 c ^^ times3 d)
    ^^ f3 (times3 a ^^ b ^^ c ^^ times2 d)
    = col_sel k 0 a ^^ col_sel k 1 b ^^ col_sel k 2 c ^^ col_sel k 3 d.
Proof.
    intros Ba Bb Bc Bd.
    rewrite (additive4 f0 A0), (additive4 f1 A1), (additive4 f2 A2), (additive4 f3 A3)
      by auto with hk.
    rewrite xor_regroup.
    unfold row_inverts in Hrow.
    pose proof (forall_byte _ Hrow a Ba) as Ha.
    pose proof (forall_byte _ Hrow b Bb) as Hb.
    pose proof (forall_byte _ Hrow c Bc) as Hc.
    pose proof (forall_byte _ Hrow d Bd) as Hd.
    cbv beta in Ha, Hb, Hc, Hd.
    repeat match goal with
    | H : _ && _ = true |- _ => apply andb_prop in H; destruct H
    | H : (_ =? _) = true |- _ => apply Z.eqb_eq in H
    end.
    congruence.
Qed.
End InverseRow.

Lemma inv_row0 a b c d :
  byte a -> byte b -> byte c -> byte d ->
  times14 (times2 a ^^ times3 b ^^ c ^^ d)
  ^^ times11 (a ^^ times2 b ^^ times3 c ^^ d)
  ^^ times13 (a ^^ b ^^ times2 c ^^ times3 d)
  ^^ times9 (times3 a ^^ b ^^ c ^^ times2 d) = a.
Proof.
  intros Ba Bb Bc Bd.
  rewrite (row_inverts_column times14 times11 times13 times9
             times14_additive times11_additive times13_additive times9_additive 0%nat)
    by (assumption || (vm_compute; reflexivity)).
  unfold col_sel; cbn [Nat.eqb]. rewrite ?Z.lxor_0_r, ?Z.lxor_0_l. reflexivity.
Qed.

Lemma inv_row1 a b c d :
  byte a -> byte b -> byte c -> byte d ->
  times9 (times2 a ^^ times3 b ^^ c ^^ d)
  ^^ times14 (a ^^ times2 b ^^ times3 c ^^ d)
  ^^ times11 (a ^^ b ^^ times2 c ^^ times3 d)
  ^^ times13 (times3 a ^^ b ^^ c ^^ times2 d) = b.
Proof.
  intros Ba Bb Bc Bd.
  rewrite (row_inverts_column times9 times14 times11 times13
             times9_additive times14_additive times11_additive times13_additive 1%nat)
    by (assumption || (vm_compute; reflexivity)).
  unfold col_sel; cbn [Nat.eqb]. rewrite ?Z.lxor_0_r, ?Z.lxor_0_l. reflexivity.
Qed.

Lemma inv_row2 a b c d :
  byte a -> byte b -> byte c -> byte d ->
  times13 (times2 a ^^ times3 b ^^ c ^^ d)
  ^^ times9 (a ^^ times2 b ^^ times3 c ^^ d)
  ^^ times14 (a ^^ b ^^ times2 c ^^ times3 d)
  ^^ times11 (times3 a ^^ b ^^ c ^^ times2 d) = c.
Proof.
  intros Ba Bb Bc Bd.
  rewrite (row_inverts_column times13 times9 times14 times11
             times13_additive times9_additive times14_additive times11_additive 2%nat)
    by (assumption || (vm_compute; reflexivity)).
  unfold col_sel; cbn [Nat.eqb]. rewrite ?Z.lxor_0_r, ?Z.lxor_0_l. reflexivity.
Qed.

Lemma inv_row3 a b c d :
  byte a -> byte b -> byte c -> byte d ->
  times11 (times2 a ^^ times3 b ^^ c ^^ d)
  ^^ times13 (a ^^ times2 b ^^ times3 c ^^ d)
  ^^ times9 (a ^^ b ^^ times2 c ^^ times3 d)
  ^^ times14 (times3 a ^^ b ^^ c ^^ times2 d) = d.
Proof.
  intros Ba Bb Bc Bd.
  rewrite (row_inverts_column times11 times13 times9 times14
             times11_additive times13_additive times9_additive times14_additive 3%nat)
    by (assumption || (vm_compute; reflexivity)).
  unfold col_sel; cbn [Nat.eqb]. rewrite ?Z.lxor_0_r, ?Z.lxor_0_l. reflexivity.
Qed.

Ltac close_rows :=
  repeat f_equal;
  first [ apply inv_row0 | apply inv_row1 | apply inv_row2 | apply inv_row3 ];
  auto with hk.

(** C6. For every lane of sixteen bytes, the inverse diffusion
    [invmixcolumns] (tables 9, 11, 13, 14) applied after the diffusion
    [mixcolumns] (tables 2, 3) returns the lane. *)
Theorem invmixcolumns_mixcolumns (s : state_t) :
  state_ok s -> invmixcolumns (mixcolumns s) = s.
Proof.
  intros H. explode_state s H. hk_eval. close_rows.
Qed.

(** ** The tables as polynomials in [times2] *)

Ltac byte_identity P :=
  let x := fresh "x" in let Hx := fresh "Hx" in
  intros x Hx; apply Z.eqb_eq;
  exact (forall_byte P ltac:(vm_compute; reflexivity) x Hx).

Lemma times3_poly : forall x, byte x -> times3 x = times2 x ^^ x.
Proof. byte_identity (fun x => times3 x =? times2 x ^^ x). Qed.

Lemma times7_poly : forall x, byte x ->
  times7 x = times2 (times2 x) ^^ times2 x ^^ x.
Proof. byte_identity (fun x => times7 x =? times2 (times2 x) ^^ times2 x ^^ x). Qed.

Lemma times9_poly : forall x, byte x ->
  times9 x = times2 (times2 (times2 x)) ^^ x.
Proof. byte_identity (fun x => times9 x =? times2 (times2 (times2 x)) ^^ x). Qed.

Lemma times11_poly : forall x, byte x ->
  times11 x = times2 (times2 (times2 x)) ^^ times2 x ^^ x.
Proof.
  byte_identity (fun x => times11 x =? times2 (times2 (times2 x)) ^^ times2 x ^^ x).
Qed.

Lemma times13_poly : forall x, byte x ->
  times13 x = times2 (times2 (times2 x)) ^^ times2 (times2 x) ^^ x.
Proof.
  byte_identity
    (fun x => times13 x =? times2 (times2 (times2 x)) ^^ times2 (times2 x) ^^ x).
Qed.

Lemma times14_poly : forall x, byte x ->
  times14 x = times2 (times2 (times2 x)) ^^ times2 (times2 x) ^^ times2 x.
Proof.
  byte_identity
    (fun x => times14 x =? times2 (times2 (times2 x)) ^^ times2 (times2 x) ^^ times2 x).
Qed.

(** Equality of two exclusive-or combinations of the same terms. *)
Ltac xor_ring :=
  apply Z.bits_inj'; intros ? _; rewrite ?Z.lxor_spec; btauto.

(** Normalises an equation between GF(2)-linear combinations of bytes:
    every table becomes a polynomial in [times2], [times2] is pushed
    through the exclusive-ors, and the two sides are compared. *)
Ltac gf_linear :=
  rewrite ?times3_poly, ?times7_poly, ?times9_poly, ?times11_poly,
          ?times13_poly, ?times14_poly by auto 20 with hk;
  rewrite ?times2_additive by auto 20 with hk;
  xor_ring.

Lemma fwd_row0 a b c d :
  byte a -> byte b -> byte c -> byte d ->
  times2 (times14 a ^^ times11 b ^^ times13 c ^^ times9 d)
  ^^ times3 (times9 a ^^ times14 b ^^ times11 c ^^ times13 d)
  ^^ (times13 a ^^ times9 b ^^ times14 c ^^ times11 d)
  ^^ (times11 a ^^ times13 b ^^ times9 c ^^ times14 d) = a.
Proof. intros. gf_linear. Qed.

Lemma fwd_row1 a b c d :
  byte a -> byte b -> byte c -> byte d ->
  (times14 a ^^ times11 b ^^ times13 c ^^ times9 d)
  ^^ times2 (times9 a ^^ times14 b ^^ times11 c ^^ times13 d)
  ^^ times3 (times13 a ^^ times9 b ^^ times14 c ^^ times11 d)
  ^^ (times11 a ^^ times13 b ^^ times9 c ^^ times14 d) = b.
Proof. intros. gf_linear. Qed.

Lemma fwd_row2 a b c d :
  byte a -> byte b -> byte c -> byte d ->
  (times14 a ^^ times11 b ^^ times13 c ^^ times9 d)
  ^^ (times9 a ^^ times14 b ^^ times11 c ^^ times13 d)
  ^^ times2 (times13 a ^^ times9 b ^^ times14 c ^^ times11 d)
  ^^ times3 (times11 a ^^ times13 b ^^ times9 c ^^ times14 d) = c.
Proof. intros. gf_linear. Qed.

Lemma fwd_row3 a b c d :
  byte a -> byte b -> byte c -> byte d ->
  times3 (times14 a ^^ times11 b ^^ times13 c ^^ times9 d)
  ^^ (times9 a ^^ times14 b ^^ times11 c ^^ times13 d)
  ^^ (times13 a ^^ times9 b ^^ times14 c ^^ times11 d)
  ^^ times2 (times11 a ^^ times13 b ^^ times9 c ^^ times14 d) = d.
Proof. intros. gf_linear. Qed.

Lemma mixcolumns_invmixcolumns (s : state_t) :
  state_ok s -> mixcolumns (invmixcolumns s) = s.
Proof.
  intros H. explode_state s H. hk_eval. repeat f_equal;
  first [ apply fwd_row0 | apply fwd_row1 | apply fwd_row2 | apply fwd_row3 ];
  assumption.
Qed.

Lemma invmcrc_mcrc (s : state_t) (r j : nat) :
  state_ok s -> invmcrc (mcrc s r j) r j = s.
Proof.
  intros H. unfold invmcrc, mcrc. generalize (4 * r + j)%nat. intros k.
  explode_state s H. hk_eval. rewrite !lxor_cancel_r. close_rows.
Qed.

Lemma mcrc_invmcrc (s : state_t) (r j : nat) :
  state_ok s -> mcrc (invmcrc s r j) r j = s.
Proof.
  intros H. unfold invmcrc, mcrc. generalize (4 * r + j)%nat. intros k.
  explode_state s H. hk_eval.
  repeat f_equal;
  (rewrite ?fwd_row0, ?fwd_row1, ?fwd_row2, ?fwd_row3 by auto with hk);
  apply lxor_cancel_r.
Qed.

Lemma invsbsr_sbsr (s : state_t) : state_ok s -> invsbsr (sbsr s) = s.
Proof.
  intros H. explode_state s H. hk_eval.
  rewrite !invsbox_sbox by assumption. reflexivity.
Qed.

Lemma sbsr_invsbsr (s : state_t) : state_ok s -> sbsr (invsbsr s) = s.
Proof.
  intros H. explode_state s H. hk_eval.
  rewrite !sbox_invsbox by assumption. reflexivity.
Qed.

Lemma invaesenc_aesenc (s : state_t) (r j : nat) :
  state_ok s -> invaesenc (aesenc s r j) r j = s.
Proof.
  intros H. unfold invaesenc, aesenc. cbv zeta.
  rewrite invmcrc_mcrc by (apply sbsr_ok, H). apply invsbsr_sbsr, H.
Qed.

Lemma aesenc_invaesenc (s : state_t) (r j : nat) :
  state_ok s -> aesenc (invaesenc s r j) r j = s.
Proof.
  intros H. unfold invaesenc, aesenc. cbv zeta.
  rewrite sbsr_invsbsr by (apply invmcrc_ok, H). apply mcrc_invmcrc, H.
Qed.

Lemma invmix512_mix512 (s : hkstate_t) : shape s -> invmix512 (mix512 s) = s.
Proof. intros H. explode_shape s H. reflexivity. Qed.

Lemma mix512_invmix512 (s : hkstate_t) : shape s -> mix512 (invmix512 s) = s.
Proof. intros H. explode_shape s H. reflexivity. Qed.

(** C5. For every lane of sixteen bytes, every round [r] in 0..9 and every
    lane index [j] in 0..3, [invaesenc] undoes [aesenc] at the same
    [(r, j)]; and for every Haraka state of four lanes, [invmix512] undoes
    [mix512]. *)
Theorem round_and_mix_invertible (s : state_t) (r j : nat) (hk : hkstate_t) :
  state_ok s -> (r < 10)%nat -> (j < 4)%nat -> hkstate_ok hk ->
  invaesenc (aesenc s r j) r j = s /\ invmix512 (mix512 hk) = hk.
Proof.
  intros Hs _ _ Hhk. split.
  - apply invaesenc_aesenc, Hs.
  - apply invmix512_mix512, hkstate_ok_shape, Hhk.
Qed.

(** ** The two forms of the round constants *)

Lemma rc_main_table : rc_main = haraka_rcons_table.
Proof. vm_compute. reflexivity. Qed.

(** C8. For every entry [k] in 0..39 and byte position [b] in 0..15, byte
    [b] of the vector constant [rc[k]] built in [main] equals
    [haraka_rcons_table[k][b]]. *)
Theorem rc_bytes_agree (k b : nat) :
  (k < 40)%nat -> (b < 16)%nat -> (rc_at rc_main k).[b] = rcons_at k b.
Proof.
  intros _ _. unfold rc_at, rcons_at, get. rewrite rc_main_table. reflexivity.
Qed.

Lemma rcons_row_length k :
  (k < 40)%nat -> length (nth k haraka_rcons_table []) = 16%nat.
Proof.
  intros Hk. apply Nat.eqb_eq.
  assert (Hall : forallb (fun k => length (nth k haraka_rcons_table []) =? 16)%nat
                   (seq 0 40) = true) by (vm_compute; reflexivity).
  rewrite forallb_forall in Hall. apply Hall, in_seq. lia.
Qed.

(** ** The AES-NI round against the tables *)

Lemma aes_sbox_table : forall x, byte x -> aes_sbox x = sbox x.
Proof. byte_identity (fun x => aes_sbox x =? sbox x). Qed.

Lemma gf_mul_2_table : forall x, byte x -> gf_mul x 2 = times2 x.
Proof. byte_identity (fun x => gf_mul x 2 =? times2 x). Qed.

Lemma gf_mul_3_table : forall x, byte x -> gf_mul x 3 = times3 x.
Proof. byte_identity (fun x => gf_mul x 3 =? times3 x). Qed.

Lemma mm_aesenc_si128_aesenc (a : state_t) (r j : nat) :
  state_ok a -> (4 * r + j < 40)%nat ->
  mm_aesenc_si128 a (rc_at rc_main (4 * r + j)) = aesenc a r j.
Proof.
  intros Ha. unfold aesenc, mcrc, rcons_at, rc_at. rewrite rc_main_table.
  unfold m128i, state_t.
  generalize (4 * r + j)%nat. intros k Hk.
  pose proof (rcons_row_length k Hk) as Hrow.
  revert Hrow. generalize (nth k haraka_rcons_table []). intros row Hrow.
  explode_list row Hrow. explode_state a Ha. hk_eval.
  rewrite !aes_sbox_table by assumption.
  rewrite !gf_mul_2_table, !gf_mul_3_table by auto with hk.
  reflexivity.
Qed.

Lemma mix_unpack_mix512 (s : hkstate_t) : shape s -> mix_unpack s = mix512 s.
Proof. intros H. explode_shape s H. reflexivity. Qed.

Lemma aesenc4_aesenc_all (s : hkstate_t) (r : nat) :
  hkstate_ok s -> (r < 10)%nat -> aesenc4 rc_main s r = aesenc_all s r.
Proof.
  intros [L F] Hr.
  destruct s as [|s0 [|s1 [|s2 [|s3 [|]]]]]; try discriminate L.
  repeat (let K := fresh "K" in apply Forall_cons_iff in F; destruct F as [K F]).
  unfold aesenc4, aesenc_all, for_upto, on_lane, lane.
  cbn [seq fold_left set nth].
  replace (rc_at rc_main (4 * r)) with (rc_at rc_main (4 * r + 0)) by (f_equal; lia).
  rewrite (mm_aesenc_si128_aesenc s0 r 0), (mm_aesenc_si128_aesenc s1 r 1),
    (mm_aesenc_si128_aesenc s2 r 2), (mm_aesenc_si128_aesenc s3 r 3)
    by (assumption || lia).
  reflexivity.
Qed.

Lemma for_upto_ext {S : Type} (P : S -> Prop) n (f g : S -> nat -> S) s :
  (forall s i, P s -> (i < n)%nat -> f s i = g s i /\ P (g s i)) ->
  P s -> for_upto n f s = for_upto n g s.
Proof.
  unfold for_upto. intros H.
  assert (Hin : forall i, In i (seq 0 n) -> (i < n)%nat) by (intros i Hi; apply in_seq in Hi; lia).
  revert Hin. generalize (seq 0 n). intros l. revert s.
  induction l as [|i l IH]; intros s Hin Hs; cbn; [reflexivity|].
  destruct (H s i Hs (Hin i (or_introl eq_refl))) as [E Hg].
  rewrite E. apply IH; [intros; apply Hin; right; assumption | assumption].
Qed.

(** One round of [haraka512pi] and of [haraka512pi_opt]. *)
Lemma round_opt_portable (s : hkstate_t) (r : nat) :
  hkstate_ok s -> (r < 10)%nat ->
  (let s := aesenc4 rc_main s r in if (r mod 2 =? 1)%nat then mix_unpack s else s)
  = (let s := aesenc_all s r in if (r mod 2 =? 1)%nat then mix512 s else s).
Proof.
  intros Hs Hr. cbv zeta. rewrite aesenc4_aesenc_all by assumption.
  destruct (r mod 2 =? 1)%nat; [|reflexivity].
  apply mix_unpack_mix512, hkstate_ok_shape, aesenc_all_ok, Hs.
Qed.

Lemma round_portable_ok (s : hkstate_t) (r : nat) :
  hkstate_ok s ->
  hkstate_ok (let s := aesenc_all s r in if (r mod 2 =? 1)%nat then mix512 s else s).
Proof.
  intros Hs. cbv zeta. destruct (r mod 2 =? 1)%nat.
  - apply mix512_ok, aesenc_all_ok, Hs.
  - apply aesenc_all_ok, Hs.
Qed.

Lemma haraka512pi_ok (s : hkstate_t) : hkstate_ok s -> hkstate_ok (haraka512pi s).
Proof.
  intros Hs. unfold haraka512pi. apply for_upto_inv; [|assumption].
  intros s' r Hs'. apply (round_portable_ok s' r Hs').
Qed.

Lemma haraka512pi_opt_unfold (rc : list m128i) (hkstate : hkstate_t) :
  haraka512pi_opt rc hkstate =
  for_upto 4 (fun hk i =>
    set hk i (value_to_state (lane hk i)
      (lane (for_upto 10 (fun s r =>
               let s := aesenc4 rc s r in
               if (r mod 2 =? 1)%nat then mix_unpack s else s)
             (for_upto 4 (fun s i => set s i (state_to_value (lane hkstate i)))
                uninit4)) i))) hkstate.
Proof. reflexivity. Qed.

(** C1. For every 512-bit state of four lanes and the round constants built
    in [main], the AES-NI permutation [haraka512pi_opt] and the
    byte-oriented permutation [haraka512pi] return the same state after
    their ten rounds. *)
Theorem haraka512pi_opt_correct (hkstate : hkstate_t) :
  hkstate_ok hkstate -> haraka512pi_opt rc_main hkstate = haraka512pi hkstate.
Proof.
  intros H. rewrite haraka512pi_opt_unfold.
  assert (Hs1 : for_upto 4 (fun s i => set s i (state_to_value (lane hkstate i))) uninit4
                = hkstate).
  { destruct H as [L _]. explode_list hkstate L. reflexivity. }
  rewrite Hs1. clear Hs1.
  assert (Hs2 : for_upto 10 (fun s r =>
               let s := aesenc4 rc_main s r in
               if (r mod 2 =? 1)%nat then mix_unpack s else s) hkstate
                = haraka512pi hkstate).
  { unfold haraka512pi.
    apply (for_upto_ext hkstate_ok); [|exact H].
    intros s r Hs Hr. split.
    - apply (round_opt_portable s r Hs Hr).
    - apply (round_portable_ok s r Hs). }
  rewrite Hs2. clear Hs2.
  pose proof (haraka512pi_ok hkstate H) as Hout.
  revert Hout. generalize (haraka512pi hkstate). intros out [Lo _].
  destruct H as [L _].
  explode_list hkstate L. explode_list out Lo. reflexivity.
Qed.

(** ** The evaluators do not read their scratch state *)

Lemma computefwd_scratch (s s' : hkstate_t)
    (round2_match_through_mc x3_guesses x4_guesses x5_guesses dof : list Z) :
  shape s -> shape s' ->
  length round2_match_through_mc = 8%nat -> length x3_guesses = 20%nat ->
  length x4_guesses = 16%nat -> length x5_guesses = 12%nat -> length dof = 4%nat ->
  snd (computefwd s round2_match_through_mc x3_guesses x4_guesses x5_guesses dof)
  = snd (computefwd s' round2_match_through_mc x3_guesses x4_guesses x5_guesses dof).
Proof.
  intros Hs Hs' H1 H2 H3 H4 H5.
  explode_shape s Hs. explode_shape s' Hs'.
  explode_list round2_match_through_mc H1. explode_list x3_guesses H2.
  explode_list x4_guesses H3. explode_list x5_guesses H4. explode_list dof H5.
  hk_eval. reflexivity.
Qed.

(** C4. Two runs of [computefwd] on the same [dof], guess vectors and
    [round2_match_through_mc] write the same [output_tuple], whatever the
    scratch state [s] each run was handed. *)
Theorem computefwd_pure (s s' : hkstate_t)
    (round2_match_through_mc x3_guesses x4_guesses x5_guesses dof : list Z) :
  shape s -> shape s' ->
  length round2_match_through_mc = 8%nat -> length x3_guesses = 20%nat ->
  length x4_guesses = 16%nat -> length x5_guesses = 12%nat -> length dof = 4%nat ->
  snd (computefwd s round2_match_through_mc x3_guesses x4_guesses x5_guesses dof)
  = snd (computefwd s' round2_match_through_mc x3_guesses x4_guesses x5_guesses dof).
Proof. apply computefwd_scratch. Qed.

Lemma computebwd_scratch (s s' : hkstate_t)
    (round2_match_through_mc x3_guesses x4_guesses x5_guesses dof : list Z) :
  shape s -> shape s' ->
  length round2_match_through_mc = 8%nat -> length x3_guesses = 20%nat ->
  length x4_guesses = 16%nat -> length x5_guesses = 12%nat -> length dof = 4%nat ->
  snd (computebwd s round2_match_through_mc x3_guesses x4_guesses x5_guesses dof)
  = snd (computebwd s' round2_match_through_mc x3_guesses x4_guesses x5_guesses dof).
Proof.
  intros Hs Hs' H1 H2 H3 H4 H5.
  explode_shape s Hs. explode_shape s' Hs'.
  explode_list round2_match_through_mc H1. explode_list x3_guesses H2.
  explode_list x4_guesses H3. explode_list x5_guesses H4. explode_list dof H5.
  hk_eval. reflexivity.
Qed.

(** C10. Two runs of [computebwd] on the same [dof], guess vectors and
    [round2_match_through_mc] write the same [output_tuple], whatever the
    scratch state [s] each run was handed. *)
Theorem computebwd_pure (s s' : hkstate_t)
    (round2_match_through_mc x3_guesses x4_guesses x5_guesses dof : list Z) :
  shape s -> shape s' ->
  length round2_match_through_mc = 8%nat -> length x3_guesses = 20%nat ->
  length x4_guesses = 16%nat -> length x5_guesses = 12%nat -> length dof = 4%nat ->
  snd (computebwd s round2_match_through_mc x3_guesses x4_guesses x5_guesses dof)
  = snd (computebwd s' round2_match_through_mc x3_guesses x4_guesses x5_guesses dof).
Proof. apply computebwd_scratch. Qed.

(** ** Recombination *)

Lemma array_get n a i : array_ok n a -> byte a.[i].
Proof. intros [_ F]. apply get_byte, F. Qed.

#[local] Hint Resolve array_get : hk.

Ltac stores_ok :=
  cbv zeta; repeat (apply set2_ok; [|eauto 12 with hk]); try assumption.

Lemma store_x3_guesses_ok s g :
  hkstate_ok s -> array_ok 20 g -> hkstate_ok (store_x3_guesses s g).
Proof. intros Hs Hg. unfold store_x3_guesses. stores_ok. Qed.

Lemma store_x4_guesses_ok s g :
  hkstate_ok s -> array_ok 16 g -> hkstate_ok (store_x4_guesses s g).
Proof. intros Hs Hg. unfold store_x4_guesses. stores_ok. Qed.

Lemma store_x5_guesses_ok s g :
  hkstate_ok s -> array_ok 12 g -> hkstate_ok (store_x5_guesses s g).
Proof. intros Hs Hg. unfold store_x5_guesses. stores_ok. Qed.

Lemma store_bwddof_ok s dof :
  hkstate_ok s -> array_ok 4 dof -> hkstate_ok (store_bwddof s dof).
Proof. intros Hs Hg. unfold store_bwddof. stores_ok. Qed.

Lemma computefwd_x5_ok s ctx g3 g4 g5 dof :
  hkstate_ok s -> array_ok 8 ctx -> array_ok 20 g3 -> array_ok 16 g4 ->
  array_ok 12 g5 -> array_ok 4 dof ->
  hkstate_ok (computefwd_x5 s ctx g3 g4 g5 dof).
Proof.
  intros Hs H1 H2 H3 H4 H5. unfold computefwd_x5, rccon. cbv zeta.
  apply store_x5_guesses_ok; [|assumption].
  do 3 (apply on_lane_ok; [|apply aesenc_ok]).
  apply store_x4_guesses_ok; [|assumption].
  apply mix512_ok, aesenc_all_ok.
  apply store_x3_guesses_ok; [|assumption].
  do 12 (apply set2_ok; [|eauto 12 with hk]). assumption.
Qed.

Lemma aesenc_all_invaesenc_all (s : hkstate_t) (r : nat) :
  hkstate_ok s -> aesenc_all (invaesenc_all s r) r = s.
Proof.
  intros [L F].
  destruct s as [|s0 [|s1 [|s2 [|s3 [|]]]]]; try discriminate L.
  repeat (let K := fresh "K" in apply Forall_cons_iff in F; destruct F as [K F]).
  unfold aesenc_all, invaesenc_all, for_upto, on_lane, lane.
  cbn [seq fold_left set nth].
  rewrite !aesenc_invaesenc by assumption. reflexivity.
Qed.

Lemma haraka512pi_rounds (s : hkstate_t) :
  haraka512pi s =
  mix512 (aesenc_all (aesenc_all
  (mix512 (aesenc_all (aesenc_all
  (mix512 (aesenc_all (aesenc_all
  (mix512 (aesenc_all (aesenc_all
  (mix512 (aesenc_all (aesenc_all s 0) 1)) 2) 3)) 4) 5)) 6) 7)) 8) 9).
Proof.
  unfold haraka512pi, for_upto at 1. cbn [seq fold_left].
  cbn [Nat.modulo Nat.divmod Nat.eqb snd fst Nat.sub].
  unfold aesenc_all. reflexivity.
Qed.

(** The forward rounds 0..4 lead from the reconstructed x0 back to x5. *)
Lemma rounds_0_4_of_x0 (x5 : hkstate_t) :
  hkstate_ok x5 ->
  aesenc_all (mix512 (aesenc_all (aesenc_all (mix512 (aesenc_all (aesenc_all
    (invaesenc_all (invaesenc_all (invmix512 (invaesenc_all (invaesenc_all
      (invmix512 (invaesenc_all x5 4)) 3) 2)) 1) 0)
    0) 1)) 2) 3)) 4 = x5.
Proof.
  intros H.
  pose proof (invaesenc_all_ok 4 _ H) as H4.
  pose proof (invmix512_ok _ H4) as H4m.
  pose proof (invaesenc_all_ok 3 _ H4m) as H3.
  pose proof (invaesenc_all_ok 2 _ H3) as H2.
  pose proof (invmix512_ok _ H2) as H2m.
  pose proof (invaesenc_all_ok 1 _ H2m) as H1.
  rewrite (aesenc_all_invaesenc_all _ 0 H1).
  rewrite (aesenc_all_invaesenc_all _ 1 H2m).
  rewrite (mix512_invmix512 _ (hkstate_ok_shape _ H2)).
  rewrite (aesenc_all_invaesenc_all _ 2 H3).
  rewrite (aesenc_all_invaesenc_all _ 3 H4m).
  rewrite (mix512_invmix512 _ (hkstate_ok_shape _ H4)).
  apply (aesenc_all_invaesenc_all _ 4 H).
Qed.

Lemma x8_of_x5_ok s : hkstate_ok s -> hkstate_ok (x8_of_x5 s).
Proof.
  intros H. unfold x8_of_x5.
  apply mix512_ok, aesenc_all_ok, aesenc_all_ok, mix512_ok, aesenc_all_ok, H.
Qed.

(** The AES-NI rounds 5..9 of the recombination are the portable ones. *)
Lemma rounds_5_9_opt (x5 pix0 : hkstate_t) :
  hkstate_ok x5 -> length pix0 = 4%nat ->
  (let v := [state_to_value (lane x5 0); state_to_value (lane x5 1);
             state_to_value (lane x5 2); state_to_value (lane x5 3)] in
   let v := aesenc4 rc_main v 5 in
   let v := mix_unpack v in
   let v := aesenc4 rc_main v 6 in
   let v := aesenc4 rc_main v 7 in
   let v := mix_unpack v in
   let v := aesenc4 rc_main v 8 in
   let v := aesenc4 rc_main v 9 in
   let v := mix_unpack v in
   let pix0 := set pix0 0 (value_to_state (lane pix0 0) (lane v 0)) in
   let pix0 := set pix0 1 (value_to_state (lane pix0 1) (lane v 1)) in
   let pix0 := set pix0 2 (value_to_state (lane pix0 2) (lane v 2)) in
   let pix0 := set pix0 3 (value_to_state (lane pix0 3) (lane v 3)) in
   pix0)
  = mix512 (aesenc_all (aesenc_all (x8_of_x5 x5) 8) 9).
Proof.
  intros H Lp. cbv zeta.
  assert (Hv : [state_to_value (lane x5 0); state_to_value (lane x5 1);
                state_to_value (lane x5 2); state_to_value (lane x5 3)] = x5).
  { destruct H as [L _]. explode_list x5 L. reflexivity. }
  rewrite Hv. clear Hv. unfold x8_of_x5.
  pose proof (aesenc_all_ok 5 _ H) as H5.
  rewrite (aesenc4_aesenc_all _ 5 H) by lia.
  rewrite (mix_unpack_mix512 _ (hkstate_ok_shape _ H5)).
  pose proof (mix512_ok _ H5) as H5m.
  rewrite (aesenc4_aesenc_all _ 6 H5m) by lia.
  pose proof (aesenc_all_ok 6 _ H5m) as H6.
  rewrite (aesenc4_aesenc_all _ 7 H6) by lia.
  pose proof (aesenc_all_ok 7 _ H6) as H7.
  rewrite (mix_unpack_mix512 _ (hkstate_ok_shape _ H7)).
  pose proof (mix512_ok _ H7) as H7m.
  rewrite (aesenc4_aesenc_all _ 8 H7m) by lia.
  pose proof (aesenc_all_ok 8 _ H7m) as H8.
  rewrite (aesenc4_aesenc_all _ 9 H8) by lia.
  pose proof (aesenc_all_ok 9 _ H8) as H9.
  rewrite (mix_unpack_mix512 _ (hkstate_ok_shape _ H9)).
  pose proof (mix512_ok _ H9) as [Lo _].
  revert Lo. generalize (mix512 (aesenc_all (aesenc_all (mix512 (aesenc_all
    (aesenc_all (mix512 (aesenc_all x5 5)) 6) 7)) 8) 9)).
  intros out Lo. explode_list pix0 Lp. explode_list out Lo. reflexivity.
Qed.

(** ** The fingerprint on the two sides of the diffusion of round 8 *)

Lemma lane2_on_lane2 (s : hkstate_t) (f : state_t -> state_t) :
  length s = 4%nat -> lane (on_lane s 2 f) 2 = f (lane s 2).
Proof. intros L. explode_list s L. reflexivity. Qed.

Lemma length_on_lane (s : hkstate_t) j f : length (on_lane s j f) = length s.
Proof. apply length_set. Qed.

Lemma lane2_aesenc_all (s : hkstate_t) (r : nat) :
  length s = 4%nat -> lane (aesenc_all s r) 2 = aesenc (lane s 2) r 2.
Proof.
  intros L. explode_list s L.
  unfold aesenc_all, for_upto, on_lane, lane. cbn [seq fold_left set nth].
  reflexivity.
Qed.

Lemma bwd_fingerprint_lane2 (s : hkstate_t) :
  shape s ->
  snd (bwd_fingerprint s)
  = bwd_tuple (xor_rcons (invaesenc (lane (invmix512 s) 2) 9 2) 8 2).
Proof.
  intros Hs.
  assert (L : length (invmix512 s) = 4%nat) by (explode_shape s Hs; reflexivity).
  unfold bwd_fingerprint. cbv zeta. cbn [snd]. unfold bwd_tuple, get2.
  rewrite !lane2_on_lane2 by (rewrite ?length_on_lane; exact L).
  reflexivity.
Qed.

Lemma fwd_fingerprint_lane2 (s : hkstate_t) :
  length s = 4%nat ->
  snd (fwd_fingerprint s) = fwd_tuple (shiftrows (subbytes (lane s 2))).
Proof.
  intros L. unfold fwd_fingerprint. cbv zeta. cbn [snd]. unfold fwd_tuple, get2.
  rewrite !lane2_on_lane2 by (rewrite ?length_on_lane; exact L).
  reflexivity.
Qed.

Lemma xor_rcons_mcrc (z : state_t) (r j : nat) :
  state_ok z -> xor_rcons (mcrc z r j) r j = mixcolumns z.
Proof.
  intros H. unfold xor_rcons, mcrc. generalize (4 * r + j)%nat. intros k.
  explode_state z H. hk_eval. rewrite !lxor_cancel_r. reflexivity.
Qed.

Lemma sbsr_shiftrows_subbytes (l : state_t) :
  state_ok l -> sbsr l = shiftrows (subbytes l).
Proof. intros H. explode_state l H. reflexivity. Qed.

(** The bytes read behind the diffusion are the combination read in front
    of it. *)
Lemma bwd_tuple_mixcolumns (z : state_t) :
  state_ok z -> bwd_tuple (mixcolumns z) = fwd_tuple z.
Proof.
  intros H. explode_state z H. hk_eval.
  repeat (apply (f_equal2 (@cons Z)); [gf_linear|]). reflexivity.
Qed.

Lemma lane_ok (s : hkstate_t) (j : nat) :
  hkstate_ok s -> (j < 4)%nat -> state_ok (lane s j).
Proof.
  intros [L F] Hj. unfold lane. rewrite Forall_forall in F.
  apply F, nth_In. lia.
Qed.

Lemma bwd_fingerprint_of_output (x8 : hkstate_t) :
  hkstate_ok x8 ->
  snd (bwd_fingerprint (mix512 (aesenc_all (aesenc_all x8 8) 9)))
  = snd (fwd_fingerprint x8).
Proof.
  intros H.
  pose proof (aesenc_all_ok 8 _ H) as H8.
  pose proof (aesenc_all_ok 9 _ H8) as H9.
  pose proof (mix512_ok _ H9) as Hm.
  rewrite (bwd_fingerprint_lane2 _ (hkstate_ok_shape _ Hm)).
  rewrite (invmix512_mix512 _ (hkstate_ok_shape _ H9)).
  rewrite (lane2_aesenc_all _ 9) by (apply H8).
  assert (K8 : state_ok (lane (aesenc_all x8 8) 2)) by (apply lane_ok; [assumption | lia]).
  rewrite (invaesenc_aesenc _ 9 2 K8).
  rewrite (lane2_aesenc_all _ 8) by (apply H).
  assert (K : state_ok (lane x8 2)) by (apply lane_ok; [assumption | lia]).
  unfold aesenc. cbv zeta.
  rewrite (xor_rcons_mcrc _ 8 2 (sbsr_ok _ K)).
  rewrite (bwd_tuple_mixcolumns _ (sbsr_ok _ K)).
  rewrite (sbsr_shiftrows_subbytes _ K).
  symmetry. apply fwd_fingerprint_lane2. apply H.
Qed.

(** The partial rounds of [computefwd] read nothing that the bytes of the
    backward side, or the lane they skip, could change. *)
Lemma computefwd_from_x5_full (x5 : hkstate_t) (dof : list Z) :
  shape x5 -> length dof = 4%nat ->
  snd (computefwd_from_x5 x5) = snd (fwd_fingerprint (x8_of_x5 (store_bwddof x5 dof))).
Proof.
  intros H L. explode_shape x5 H. explode_list dof L. hk_eval. reflexivity.
Qed.

Lemma compute_x0_pix0_fst (rc : list m128i) (s pix0 : hkstate_t)
    (ctx g3 g4 g5 fwddof bwddof : list Z) :
  fst (compute_x0_pix0_from_choices rc s pix0 ctx g3 g4 g5 fwddof bwddof)
  = invaesenc_all (invaesenc_all (invmix512 (invaesenc_all (invaesenc_all
      (invmix512 (invaesenc_all
         (store_bwddof (computefwd_x5 s ctx g3 g4 g5 fwddof) bwddof) 4)) 3) 2)) 1) 0.
Proof. reflexivity. Qed.

Lemma compute_x0_pix0_snd (s pix0 : hkstate_t)
    (ctx g3 g4 g5 fwddof bwddof : list Z) :
  hkstate_ok (store_bwddof (computefwd_x5 s ctx g3 g4 g5 fwddof) bwddof) ->
  length pix0 = 4%nat ->
  snd (compute_x0_pix0_from_choices rc_main s pix0 ctx g3 g4 g5 fwddof bwddof)
  = mix512 (aesenc_all (aesenc_all
      (x8_of_x5 (store_bwddof (computefwd_x5 s ctx g3 g4 g5 fwddof) bwddof)) 8) 9).
Proof.
  intros H L.
  rewrite <- (rounds_5_9_opt _ pix0 H L). reflexivity.
Qed.

(** C2. Let the forward evaluator on [fwddof] and the backward evaluator on
    [bwddof] write the same four fingerprint bytes, for the same guess
    vectors and match context.  Then the pair [(x0, pix0)] returned by
    [compute_x0_pix0_from_choices] satisfies: the full permutation of [x0]
    is [pix0], and the fingerprint read from that permutation output at
    the positions the backward evaluator reads (one MIX and round 9 undone
    on lane 2, the constant of round 8 removed) is that same fingerprint. *)
Theorem match_soundness (sf sb sx pix : hkstate_t)
    (round2_match_through_mc x3_guesses x4_guesses x5_guesses fwddof bwddof : list Z) :
  hkstate_ok sf -> hkstate_ok sb -> hkstate_ok sx -> hkstate_ok pix ->
  array_ok 8 round2_match_through_mc -> array_ok 20 x3_guesses ->
  array_ok 16 x4_guesses -> array_ok 12 x5_guesses ->
  array_ok 4 fwddof -> array_ok 4 bwddof ->
  snd (computefwd sf round2_match_through_mc x3_guesses x4_guesses x5_guesses fwddof)
  = snd (computebwd sb round2_match_through_mc x3_guesses x4_guesses x5_guesses bwddof) ->
  let x0_pix0 :=
    compute_x0_pix0_from_choices rc_main sx pix round2_match_through_mc
      x3_guesses x4_guesses x5_guesses fwddof bwddof in
  haraka512pi (fst x0_pix0) = snd x0_pix0
  /\ snd (bwd_fingerprint (haraka512pi (fst x0_pix0)))
     = snd (computebwd sb round2_match_through_mc
              x3_guesses x4_guesses x5_guesses bwddof)
  /\ snd (bwd_fingerprint (haraka512pi (fst x0_pix0)))
     = snd (computefwd sf round2_match_through_mc
              x3_guesses x4_guesses x5_guesses fwddof).
Proof.
  intros Hsf Hsb Hsx Hpix Hc H3 H4 H5 Hf Hb Hmatch x0_pix0.
  set (x0 := fst x0_pix0). set (pix0 := snd x0_pix0).
  pose proof (computefwd_x5_ok sx _ _ _ _ _ Hsx Hc H3 H4 H5 Hf) as Hx5p.
  pose proof (store_bwddof_ok _ _ Hx5p Hb) as Hx5.
  assert (Hpix0 : pix0 = mix512 (aesenc_all (aesenc_all
      (x8_of_x5 (store_bwddof (computefwd_x5 sx round2_match_through_mc x3_guesses
         x4_guesses x5_guesses fwddof) bwddof)) 8) 9)).
  { subst pix0 x0_pix0. apply compute_x0_pix0_snd; [exact Hx5 | exact (proj1 Hpix)]. }
  assert (Hpi : haraka512pi x0 = pix0).
  { rewrite Hpix0. subst x0 x0_pix0. unfold x8_of_x5.
    rewrite compute_x0_pix0_fst, haraka512pi_rounds.
    rewrite (rounds_0_4_of_x0 _ Hx5). reflexivity. }
  clearbody x0 pix0. clear x0_pix0.
  assert (Hfp : snd (bwd_fingerprint (haraka512pi x0))
     = snd (computefwd sf round2_match_through_mc
              x3_guesses x4_guesses x5_guesses fwddof)).
  { rewrite Hpi, Hpix0.
    rewrite (bwd_fingerprint_of_output _ (x8_of_x5_ok _ Hx5)).
    rewrite (computefwd_scratch sf sx) by
      first [ apply hkstate_ok_shape; assumption
            | match goal with H : array_ok _ ?a |- length ?a = _ => exact (proj1 H) end ].
    change (computefwd sx round2_match_through_mc x3_guesses x4_guesses x5_guesses fwddof)
      with (computefwd_from_x5
              (computefwd_x5 sx round2_match_through_mc
                 x3_guesses x4_guesses x5_guesses fwddof)).
    symmetry. apply computefwd_from_x5_full.
    - apply hkstate_ok_shape, Hx5p.
    - exact (proj1 Hb). }
  split; [exact Hpi|]. split; [|exact Hfp].
  rewrite Hfp. exact Hmatch.
Qed.

(** ** The two solution predicates *)

(** C9. [printcond] holds exactly when six designated bytes of lane 2 are
    zero, [fullcond] exactly when eight are, and [fullcond] implies
    [printcond]. *)
Theorem printcond_fullcond (pix0 : hkstate_t) :
  (printcond pix0 = true <->
     pix0.[2, 4] = 0 /\ pix0.[2, 7] = 0 /\ pix0.[2, 8] = 0 /\ pix0.[2, 9] = 0
     /\ pix0.[2, 13] = 0 /\ pix0.[2, 14] = 0)
  /\ (fullcond pix0 = true <->
     pix0.[2, 2] = 0 /\ pix0.[2, 3] = 0 /\ pix0.[2, 13] = 0 /\ pix0.[2, 14] = 0
     /\ pix0.[2, 4] = 0 /\ pix0.[2, 7] = 0 /\ pix0.[2, 8] = 0 /\ pix0.[2, 9] = 0)
  /\ (fullcond pix0 = true -> printcond pix0 = true).
Proof.
  unfold printcond, fullcond.
  rewrite !andb_true_iff, !Z.eqb_eq. tauto.
Qed.

(** ** The static partition of the two sweeps *)

Lemma owns_spec ind i : 0 <= i -> owns ind i = true <-> i mod 4 = ind.
Proof.
  intros Hi. unfold owns. rewrite Z.eqb_eq, Z.rem_mod_nonneg by lia. reflexivity.
Qed.

Lemma worker_indices_spec ind size i :
  In i (worker_indices ind size) <-> 0 <= i < size /\ i mod 4 = ind.
Proof.
  unfold worker_indices. rewrite filter_In, in_map_iff. split.
  - intros [[n [<- Hn]] Ho]. apply in_seq in Hn.
    split; [lia|]. apply owns_spec; [lia | exact Ho].
  - intros [Hi Hm]. split.
    + exists (Z.to_nat i). split; [lia | apply in_seq; lia].
    + apply owns_spec; [lia | exact Hm].
Qed.

Lemma worker_indices_NoDup ind size : NoDup (worker_indices ind size).
Proof.
  unfold worker_indices. apply NoDup_filter.
  apply Injective_map_NoDup; [|apply seq_NoDup].
  intros a b. apply Nat2Z.inj.
Qed.

Lemma byte_of_index i k : 0 <= k -> Z.land (Z.shiftr i k) 255 = (i / 2 ^ k) mod 256.
Proof.
  intros Hk. rewrite Z.shiftr_div_pow2 by assumption.
  change 255 with (Z.ones 8). rewrite Z.land_ones by lia. reflexivity.
Qed.

Lemma dof_of_index_inj i j :
  0 <= i < 2 ^ 32 -> 0 <= j < 2 ^ 32 -> dof_of_index i = dof_of_index j -> i = j.
Proof.
  intros Hi Hj. unfold dof_of_index.
  replace (Z.land i 255) with (Z.land (Z.shiftr i 0) 255) by (rewrite Z.shiftr_0_r; reflexivity).
  replace (Z.land j 255) with (Z.land (Z.shiftr j 0) 255) by (rewrite Z.shiftr_0_r; reflexivity).
  rewrite !byte_of_index by lia.
  intros E. injection E as E0 E1 E2 E3.
  change (2 ^ 0) with 1 in *. change (2 ^ 8) with 256 in *.
  change (2 ^ 16) with 65536 in *. change (2 ^ 24) with 16777216 in *.
  change (2 ^ 32) with 4294967296 in *.
  Z.div_mod_to_equations. lia.
Qed.

(** ** The populate phase *)

Lemma nth_error_set {A : Type} (a : list A) i j v :
  nth_error (set a i v) j =
  if Nat.eqb i j
  then match nth_error a j with Some _ => Some v | None => None end
  else nth_error a j.
Proof.
  revert i j. induction a as [|h t IH]; intros i j.
  - destruct i, j; cbn; try reflexivity; destruct (Nat.eqb i j); reflexivity.
  - destruct i as [|i], j as [|j]; cbn; try reflexivity. apply IH.
Qed.

Lemma flush_buffer_In buffer : forall fwdvecs m0 m1 m2 r,
  In r (flush_buffer fwdvecs buffer m0 m1 m2) ->
  In r (fwdvecs m0 m1 m2)
  \/ exists v, In v buffer /\ record_dof r = buffered_dof v.
Proof.
  unfold flush_buffer.
  induction buffer as [|v buffer IH]; intros fwdvecs m0 m1 m2 r H; cbn in H.
  - left. exact H.
  - apply IH in H. destruct H as [H | [v' [Hv' E]]].
    + unfold push_back_at in H.
      destruct ((m0 =? v.[0]) && (m1 =? v.[1]) && (m2 =? v.[2])).
      * apply in_app_or in H. destruct H as [H | [<- | []]].
        -- left. exact H.
        -- right. exists v. split; [left; reflexivity | reflexivity].
      * left. exact H.
    + right. exists v'. split; [right; exact Hv' | exact E].
Qed.

(** What one loop iteration does to the table, the buffer and the
    counter. *)
Lemma populatetable_iter_cases ind seed fwdvecs w :
  let r := populatetable_iter ind seed fwdvecs w in
  fw_i (snd r) = fw_i w + 1
  /\ ((owns ind (fw_i w) = false /\ fst r = fwdvecs
       /\ fw_buffer (snd r) = fw_buffer w /\ fw_bufsize (snd r) = fw_bufsize w)
      \/ (owns ind (fw_i w) = true /\ fw_bufsize w + 1 <= 10000 /\ fst r = fwdvecs
          /\ fw_bufsize (snd r) = fw_bufsize w + 1
          /\ exists v, fw_buffer (snd r) = fw_buffer w ++ [v]
                       /\ buffered_dof v = dof_of_index (fw_i w))
      \/ (owns ind (fw_i w) = true /\ fw_bufsize w + 1 > 10000
          /\ fw_bufsize (snd r) = 0 /\ fw_buffer (snd r) = []
          /\ exists v, fst r = flush_buffer fwdvecs (fw_buffer w ++ [v])
                       /\ buffered_dof v = dof_of_index (fw_i w))).
Proof.
  unfold populatetable_iter.
  destruct (owns ind (fw_i w)).
  - destruct (computefwd (fw_fwds w) (guesses_ctx seed) guesses_x3 guesses_x4
                guesses_x5 (dof_of_index (fw_i w))) as [fwds res].
    destruct (fw_bufsize w + 1 >? 10000) eqn:E; cbn [fst snd fw_i fw_buffer fw_bufsize].
    + split; [reflexivity|]. right. right.
      repeat split; try reflexivity; [lia|].
      eexists. split; reflexivity.
    + split; [reflexivity|]. right. left.
      repeat split; try reflexivity; [lia|].
      eexists. split; reflexivity.
  - cbn [fst snd fw_i fw_buffer fw_bufsize].
    split; [reflexivity|]. left. repeat split; reflexivity.
Qed.

Lemma owned_before_step ind i :
  0 <= ind < 4 -> 0 <= i ->
  owned_before ind (i + 1)
  = if owns ind i then owned_before ind i + 1 else owned_before ind i.
Proof.
  intros Hind Hi. unfold owned_before, owns.
  rewrite Z.rem_mod_nonneg by lia.
  destruct (i mod 4 =? ind) eqn:E; [apply Z.eqb_eq in E | apply Z.eqb_neq in E];
    Z.div_mod_to_equations; lia.
Qed.

Lemma owned_before_mono ind i j : i <= j -> owned_before ind i <= owned_before ind j.
Proof. intros H. unfold owned_before. apply Z.div_le_mono; lia. Qed.

Lemma phase1_init_inv scratch : length scratch = 4%nat -> phase1_inv (phase1_init scratch).
Proof.
  intros L. unfold phase1_inv, phase1_init. cbn [fst snd].
  split; [rewrite length_map; exact L|]. split.
  - intros ind w H.
    assert (Hlt : (ind < 4)%nat).
    { rewrite <- L, <- (length_map fwd_worker_init). apply nth_error_Some. congruence. }
    pose proof (nth_error_In _ _ H) as Hin. apply in_map_iff in Hin.
    destruct Hin as [s [<- _]]. cbn [fw_i fw_bufsize fw_buffer fwd_worker_init].
    split; [lia|]. split; [|constructor].
    unfold owned_before.
    replace ((0 + 3 - Z.of_nat ind) / 4) with 0 by (Z.div_mod_to_equations; lia).
    reflexivity.
  - intros m0 m1 m2 r [].
Qed.

Lemma phase1_step_inv seed size c c' :
  phase1_inv c -> phase1_step seed size c c' -> phase1_inv c'.
Proof.
  intros [L [HW HT]] Hstep. destruct Hstep as [fwdvecs ws ind w Hw Hlt].
  cbn [fst snd] in L, HW, HT.
  assert (Hind : (ind < 4)%nat) by (rewrite <- L; apply nth_error_Some; congruence).
  destruct (HW ind w Hw) as [Hi [Hb Hbuf]].
  assert (Hb0 : 0 <= fw_bufsize w < 10001) by (rewrite Hb; apply Z.mod_pos_bound; lia).
  pose proof (populatetable_iter_cases (Z.of_nat ind) seed fwdvecs w) as Hc.
  cbv zeta in Hc. destruct Hc as [Hi' Hc].
  pose proof (owned_before_step (Z.of_nat ind) (fw_i w) ltac:(lia) Hi) as Hstepn.
  set (r := populatetable_iter (Z.of_nat ind) seed fwdvecs w) in *.
  (* the stepping thread after the iteration *)
  assert (HW' : 0 <= fw_i (snd r)
     /\ fw_bufsize (snd r) = owned_before (Z.of_nat ind) (fw_i (snd r)) mod 10001
     /\ Forall (fun v => exists j, 0 <= j < fw_i (snd r) /\ j mod 4 = Z.of_nat ind
                                   /\ buffered_dof v = dof_of_index j)
          (fw_buffer (snd r))).
  { rewrite Hi'. split; [lia|].
    assert (Hold : Forall (fun v => exists j, 0 <= j < fw_i w + 1 /\ j mod 4 = Z.of_nat ind
                                   /\ buffered_dof v = dof_of_index j) (fw_buffer w)).
    { apply (Forall_impl _ (P := fun v => exists j, 0 <= j < fw_i w /\ j mod 4 = Z.of_nat ind
                                   /\ buffered_dof v = dof_of_index j)); [|exact Hbuf].
      intros v [j [Hj [Hm E]]]. exists j. repeat split; try assumption; lia. }
    destruct Hc as [[Ho [_ [Eb Es]]] | [[Ho [Hle [_ [Es [v [Eb Ev]]]]]] | [Ho [Hgt [Es [Eb _]]]]]];
      rewrite Hstepn, Ho, Es, Eb.
    - split; [exact Hb | exact Hold].
    - split.
      + rewrite Hb in Hle |- *. Z.div_mod_to_equations. lia.
      + apply Forall_app. split; [exact Hold|]. constructor; [|constructor].
        exists (fw_i w). repeat split; try lia; [|exact Ev].
        apply owns_spec; [lia | exact Ho].
    - split; [|constructor].
      rewrite Hb in Hgt. Z.div_mod_to_equations. lia. }
  unfold phase1_inv. cbn [fst snd]. split; [rewrite length_set; exact L|]. split.
  - intros ind' w' Hw'. rewrite nth_error_set in Hw'.
    destruct (Nat.eqb ind ind') eqn:E.
    + apply Nat.eqb_eq in E. subst ind'. rewrite Hw in Hw'. injection Hw' as <-.
      exact HW'.
    + apply (HW ind' w' Hw').
  - intros m0 m1 m2 rec Hin.
    assert (Hkeep : forall ind' w' j,
      nth_error ws ind' = Some w' ->
      0 <= j < fw_i w' -> j mod 4 = Z.of_nat ind' ->
      record_dof rec = dof_of_index j ->
      owned_before (Z.of_nat ind') j + fw_bufsize w'
        < owned_before (Z.of_nat ind') (fw_i w') ->
      exists ind0 w0 j0,
        nth_error (set ws ind (snd r)) ind0 = Some w0
        /\ 0 <= j0 < fw_i w0 /\ j0 mod 4 = Z.of_nat ind0
        /\ record_dof rec = dof_of_index j0
        /\ owned_before (Z.of_nat ind0) j0 + fw_bufsize w0
           < owned_before (Z.of_nat ind0) (fw_i w0)).
    { intros ind' w' j Hw' Hj Hm Er Hlt'.
      destruct (Nat.eqb ind ind') eqn:E.
      - apply Nat.eqb_eq in E. subst ind'. rewrite Hw in Hw'. injection Hw' as <-.
        exists ind, (snd r), j. rewrite nth_error_set, Nat.eqb_refl, Hw.
        repeat split; try assumption; try lia.
        rewrite Hi', Hstepn.
        destruct Hc as [[Ho [_ [_ Es]]] | [[Ho [_ [_ [Es _]]]] | [Ho [_ [Es _]]]]];
          rewrite Ho, Es; lia.
      - exists ind', w', j. rewrite nth_error_set, E.
        repeat split; try assumption; lia. }
    destruct Hc as [[_ [Et _]] | [[_ [_ [Et _]]] | [Ho [Hgt [Es [_ [v [Et Ev]]]]]]]].
    + rewrite Et in Hin. destruct (HT _ _ _ _ Hin) as [ind' [w' [j [A [B [C [D E]]]]]]].
      exact (Hkeep ind' w' j A B C D E).
    + rewrite Et in Hin. destruct (HT _ _ _ _ Hin) as [ind' [w' [j [A [B [C [D E]]]]]]].
      exact (Hkeep ind' w' j A B C D E).
    + rewrite Et in Hin. apply flush_buffer_In in Hin.
      destruct Hin as [Hin | [v' [Hv' Er]]].
      * destruct (HT _ _ _ _ Hin) as [ind' [w' [j [A [B [C [D E]]]]]]].
        exact (Hkeep ind' w' j A B C D E).
      * assert (Hj : exists j, 0 <= j <= fw_i w /\ j mod 4 = Z.of_nat ind
                               /\ buffered_dof v' = dof_of_index j).
        { apply in_app_or in Hv'. destruct Hv' as [Hv' | [<- | []]].
          - rewrite Forall_forall in Hbuf. destruct (Hbuf v' Hv') as [j [Hj [Hm E]]].
            exists j. repeat split; try assumption; lia.
          - exists (fw_i w). repeat split; try lia; [|exact Ev].
            apply owns_spec; [lia | exact Ho]. }
        destruct Hj as [j [Hj [Hm Ej]]].
        exists ind, (snd r), j. rewrite nth_error_set, Nat.eqb_refl, Hw.
        destruct HW' as [_ [Hb' _]].
        repeat split; try lia; [congruence|].
        rewrite Hi', Hstepn, Ho.
        rewrite Es.
        pose proof (owned_before_mono (Z.of_nat ind) j (fw_i w) ltac:(lia)). lia.
Qed.

Lemma phase1_run_inv seed size c c' :
  phase1_inv c -> phase1_run seed size c c' -> phase1_inv c'.
Proof.
  intros Hc Hrun. induction Hrun as [c | c1 c2 c3 _ IH Hstep].
  - exact Hc.
  - apply (phase1_step_inv seed size c2 c3); [apply IH, Hc | exact Hstep].
Qed.

(** The records of the last [owned mod 10001] indices a thread owns are
    in no shard when the phase is over. *)
Lemma tail_not_in_table (seed size : Z) (scratch : list hkstate_t) (c : phase1)
    (i m0 m1 m2 : Z) :
  length scratch = 4%nat ->
  phase1_run seed size (phase1_init scratch) c ->
  phase1_joined size c ->
  0 <= i < size -> size <= 2 ^ 32 ->
  owned_before (i mod 4) size - owned_before (i mod 4) i
    <= owned_before (i mod 4) size mod 10001 ->
  Forall (fun r => record_dof r <> dof_of_index i) (fst c m0 m1 m2).
Proof.
  intros L Hrun Hjoin Hi Hsize Htail.
  pose proof (phase1_run_inv seed size _ c (phase1_init_inv scratch L) Hrun)
    as [Lc [HW HT]].
  apply Forall_forall. intros r Hr Er.
  destruct (HT m0 m1 m2 r Hr) as [ind [w [j [Hw [Hj [Hm [Ej Hlt]]]]]]].
  unfold phase1_joined in Hjoin. rewrite Forall_forall in Hjoin.
  pose proof (Hjoin w (nth_error_In _ _ Hw)) as Hend.
  destruct (HW ind w Hw) as [_ [Hb _]].
  rewrite Hend in *.
  assert (j = i) by (apply dof_of_index_inj; [lia | lia | congruence]).
  subst j. rewrite Hm in Htail. lia.
Qed.

(** ** Checking well-formedness by evaluation *)

Lemma array_okb_spec n a : array_okb n a = true -> array_ok n a.
Proof.
  unfold array_okb, array_ok. intros H. apply andb_prop in H. destruct H as [L F].
  apply Nat.eqb_eq in L. split; [exact L|].
  apply Forall_forall. intros x Hx. apply in_byte_spec.
  rewrite forallb_forall in F. exact (F x Hx).
Qed.

Lemma state_okb_spec a : array_okb 16 a = true -> state_ok a.
Proof. apply array_okb_spec. Qed.

Lemma hkstate_okb_spec s : hkstate_okb s = true -> hkstate_ok s.
Proof.
  unfold hkstate_okb, hkstate_ok. intros H. apply andb_prop in H. destruct H as [L F].
  apply Nat.eqb_eq in L. split; [exact L|].
  apply Forall_forall. intros a Ha. apply state_okb_spec.
  rewrite forallb_forall in F. exact (F a Ha).
Qed.

Lemma sample_state_ok : hkstate_ok sample_state.
Proof. apply hkstate_okb_spec. reflexivity. Qed.

Lemma zero_state_ok : hkstate_ok zero_state.
Proof. apply hkstate_okb_spec. reflexivity. Qed.

Lemma sample_lane_ok : state_ok sample_lane.
Proof. apply state_okb_spec. reflexivity. Qed.

(** ** Instances *)

Lemma haraka512pi_opt_correct_witness :
  hkstate_ok sample_state
  /\ haraka512pi_opt rc_main sample_state = haraka512pi sample_state.
Proof.
  split; [exact sample_state_ok|].
  apply (haraka512pi_opt_correct sample_state). exact sample_state_ok.
Defined.

Lemma computefwd_pure_witness :
  shape zero_state /\ shape sample_state
  /\ length (guesses_ctx sample_seed) = 8%nat /\ length guesses_x3 = 20%nat
  /\ length guesses_x4 = 16%nat /\ length guesses_x5 = 12%nat
  /\ length (dof_of_index 7) = 4%nat
  /\ snd (computefwd zero_state (guesses_ctx sample_seed)
            guesses_x3 guesses_x4 guesses_x5 (dof_of_index 7))
     = snd (computefwd sample_state (guesses_ctx sample_seed)
              guesses_x3 guesses_x4 guesses_x5 (dof_of_index 7)).
Proof.
  assert (H0 : shape zero_state) by (apply hkstate_ok_shape, zero_state_ok).
  assert (H1 : shape sample_state) by (apply hkstate_ok_shape, sample_state_ok).
  do 7 (split; [first [assumption | reflexivity]|]).
  apply (computefwd_pure zero_state sample_state); first [assumption | reflexivity].
Defined.

Lemma computebwd_pure_witness :
  shape zero_state /\ shape sample_state
  /\ length (guesses_ctx sample_seed) = 8%nat /\ length guesses_x3 = 20%nat
  /\ length guesses_x4 = 16%nat /\ length guesses_x5 = 12%nat
  /\ length (dof_of_index 7) = 4%nat
  /\ snd (computebwd zero_state (guesses_ctx sample_seed)
            guesses_x3 guesses_x4 guesses_x5 (dof_of_index 7))
     = snd (computebwd sample_state (guesses_ctx sample_seed)
              guesses_x3 guesses_x4 guesses_x5 (dof_of_index 7)).
Proof.
  assert (H0 : shape zero_state) by (apply hkstate_ok_shape, zero_state_ok).
  assert (H1 : shape sample_state) by (apply hkstate_ok_shape, sample_state_ok).
  do 7 (split; [first [assumption | reflexivity]|]).
  apply (computebwd_pure zero_state sample_state); first [assumption | reflexivity].
Defined.

Lemma round_and_mix_invertible_witness :
  state_ok sample_lane /\ (3 < 10)%nat /\ (1 < 4)%nat /\ hkstate_ok sample_state
  /\ invaesenc (aesenc sample_lane 3 1) 3 1 = sample_lane
  /\ invmix512 (mix512 sample_state) = sample_state.
Proof.
  split; [exact sample_lane_ok|]. split; [lia|]. split; [lia|].
  split; [exact sample_state_ok|].
  apply (round_and_mix_invertible sample_lane 3 1 sample_state);
    first [exact sample_lane_ok | exact sample_state_ok | lia].
Defined.

Lemma invmixcolumns_mixcolumns_witness :
  state_ok sample_lane /\ invmixcolumns (mixcolumns sample_lane) = sample_lane.
Proof.
  split; [exact sample_lane_ok|].
  apply (invmixcolumns_mixcolumns sample_lane). exact sample_lane_ok.
Defined.

Lemma rc_bytes_agree_witness :
  (7 < 40)%nat /\ (3 < 16)%nat /\ (rc_at rc_main 7).[3] = rcons_at 7 3.
Proof.
  split; [lia|]. split; [lia|]. apply (rc_bytes_agree 7 3); lia.
Defined.

(** ** Runs along a schedule *)

Lemma phase1_run_front seed size c1 c2 c3 :
  phase1_step seed size c1 c2 -> phase1_run seed size c2 c3 ->
  phase1_run seed size c1 c3.
Proof.
  intros Hstep Hrun. induction Hrun as [c | c2 c3 c4 _ IH Hs].
  - apply (phase1_trans seed size c1 c1 c); [apply phase1_refl | exact Hstep].
  - apply (phase1_trans seed size c1 c3 c4); [apply IH, Hstep | exact Hs].
Qed.

Lemma step_at_step seed size c ind w :
  nth_error (snd c) ind = Some w -> fw_i w < size ->
  phase1_step seed size c (step_at seed c ind).
Proof.
  intros Hw Hlt. destruct c as [fwdvecs ws]. unfold step_at. cbn [fst snd] in *.
  rewrite Hw. cbv zeta. apply phase1_iter; assumption.
Qed.

Lemma run_schedule_run seed size sched : forall c,
  schedule_ok seed size sched c = true ->
  phase1_run seed size c (run_schedule seed sched c).
Proof.
  induction sched as [|ind rest IH]; intros c H; cbn in H.
  - apply phase1_refl.
  - destruct (nth_error (snd c) ind) as [w|] eqn:Hw; [|discriminate].
    apply andb_prop in H. destruct H as [Hlt Hrest].
    apply (phase1_run_front seed size c (step_at seed c ind)).
    + apply (step_at_step seed size c ind w Hw). lia.
    + apply IH, Hrest.
Qed.

Lemma phase1_joinedb_spec size c : phase1_joinedb size c = true -> phase1_joined size c.
Proof.
  unfold phase1_joinedb, phase1_joined. intros H. apply Forall_forall. intros w Hw.
  rewrite forallb_forall in H. apply Z.eqb_eq, H, Hw.
Qed.

(** C3. What the code does instead of the claimed invariant.  In every
    execution of the four [populatetable] threads over a sweep of [size]
    indices (at most 2^32), once all four have been joined, no shard of
    the table holds a record of the index [i] when [i] is among the last
    [n mod 10001] of the [n] indices its thread owns: the buffer is emptied
    only when it exceeds 10000 entries, and what it holds when the loop
    ends is dropped. *)
Theorem populate_drops_buffered_tail (seed size : Z) (scratch : list hkstate_t)
    (c : phase1) (i m0 m1 m2 : Z) :
  length scratch = 4%nat ->
  phase1_run seed size (phase1_init scratch) c ->
  phase1_joined size c ->
  0 <= i < size -> size <= 2 ^ 32 ->
  owned_before (i mod 4) size - owned_before (i mod 4) i
    <= owned_before (i mod 4) size mod 10001 ->
  Forall (fun r => record_dof r <> dof_of_index i) (fst c m0 m1 m2).
Proof. apply tail_not_in_table. Qed.

(** The sweep of [search]: the record of the last index, 2^29 - 1, is in no
    shard when the populate phase is over. *)
Corollary search_drops_last_index (seed : Z) (scratch : list hkstate_t)
    (c : phase1) (m0 m1 m2 : Z) :
  length scratch = 4%nat ->
  phase1_run seed size1 (phase1_init scratch) c ->
  phase1_joined size1 c ->
  Forall (fun r => record_dof r <> dof_of_index (size1 - 1)) (fst c m0 m1 m2).
Proof.
  intros L Hrun Hjoin.
  apply (tail_not_in_table seed size1 scratch c (size1 - 1) m0 m1 m2 L Hrun Hjoin).
  - unfold size1. cbn. lia.
  - unfold size1. cbn. lia.
  - vm_compute. discriminate.
Qed.

Lemma populate_drops_buffered_tail_witness :
  let scratch := [zero_state; zero_state; zero_state; zero_state] in
  let c := run_schedule sample_seed [0; 1; 2; 3]%nat (phase1_init scratch) in
  length scratch = 4%nat
  /\ phase1_run sample_seed 1 (phase1_init scratch) c
  /\ phase1_joined 1 c
  /\ 0 <= 0 < 1 /\ 1 <= 2 ^ 32
  /\ owned_before (0 mod 4) 1 - owned_before (0 mod 4) 0
       <= owned_before (0 mod 4) 1 mod 10001
  /\ Forall (fun r => record_dof r <> dof_of_index 0) (fst c 0 0 0).
Proof.
  intros scratch c.
  assert (H1 : length scratch = 4%nat) by reflexivity.
  assert (H2 : phase1_run sample_seed 1 (phase1_init scratch) c)
    by (apply run_schedule_run; vm_compute; reflexivity).
  assert (H3 : phase1_joined 1 c)
    by (apply phase1_joinedb_spec; vm_compute; reflexivity).
  assert (H4 : 0 <= 0 < 1) by lia.
  assert (H5 : 1 <= 2 ^ 32) by (cbn; lia).
  assert (H6 : owned_before (0 mod 4) 1 - owned_before (0 mod 4) 0
                <= owned_before (0 mod 4) 1 mod 10001)
    by (vm_compute; discriminate).
  split; [exact H1|]. split; [exact H2|]. split; [exact H3|].
  split; [exact H4|]. split; [exact H5|]. split; [exact H6|].
  exact (populate_drops_buffered_tail sample_seed 1 scratch c 0 0 0 0 H1 H2 H3 H4 H5 H6).
Defined.

(** * Further properties of the primitives *)

(** X1. One forward round is the four textbook steps in order:
    substitution, row rotation, diffusion, round-constant addition. *)
Theorem aesenc_steps (s : state_t) (r j : nat) :
  length s = 16%nat ->
  aesenc s r j = xor_rcons (mixcolumns (shiftrows (subbytes s))) r j.
Proof.
  intros L. unfold aesenc, mcrc, xor_rcons. generalize (4 * r + j)%nat. intros k.
  explode_list s L. hk_eval. reflexivity.
Qed.

(** X2. One inverse round undoes them in the reverse order: constant,
    inverse diffusion, inverse row rotation, inverse substitution. *)
Theorem invaesenc_steps (s : state_t) (r j : nat) :
  length s = 16%nat ->
  invaesenc s r j = invsubbytes (invshiftrows (invmixcolumns (xor_rcons s r j))).
Proof.
  intros L. unfold invaesenc, invmcrc, xor_rcons. generalize (4 * r + j)%nat. intros k.
  explode_list s L. hk_eval. reflexivity.
Qed.

(** X3. The inverse operations are inverses on the other side too: a
    forward round after the inverse round, MIX after its inverse, and the
    diffusion after the inverse diffusion all return their argument. *)
Theorem inverses_two_sided (s : state_t) (r j : nat) (hk : hkstate_t) :
  state_ok s -> hkstate_ok hk ->
  aesenc (invaesenc s r j) r j = s
  /\ mix512 (invmix512 hk) = hk
  /\ mixcolumns (invmixcolumns s) = s.
Proof.
  intros Hs Hhk. split; [apply aesenc_invaesenc, Hs|]. split.
  - apply mix512_invmix512, hkstate_ok_shape, Hhk.
  - apply mixcolumns_invmixcolumns, Hs.
Qed.

Lemma inverses_two_sided_witness :
  state_ok sample_lane /\ hkstate_ok sample_state
  /\ aesenc (invaesenc sample_lane 4 2) 4 2 = sample_lane
  /\ mix512 (invmix512 sample_state) = sample_state
  /\ mixcolumns (invmixcolumns sample_lane) = sample_lane.
Proof.
  split; [exact sample_lane_ok|]. split; [exact sample_state_ok|].
  exact (inverses_two_sided sample_lane 4 2 sample_state sample_lane_ok sample_state_ok).
Defined.

Lemma aesenc_steps_witness :
  length sample_lane = 16%nat
  /\ aesenc sample_lane 3 1
     = xor_rcons (mixcolumns (shiftrows (subbytes sample_lane))) 3 1.
Proof.
  split; [reflexivity|]. apply (aesenc_steps sample_lane 3 1). reflexivity.
Defined.

Lemma invaesenc_steps_witness :
  length sample_lane = 16%nat
  /\ invaesenc sample_lane 3 1
     = invsubbytes (invshiftrows (invmixcolumns (xor_rcons sample_lane 3 1))).
Proof.
  split; [reflexivity|]. apply (invaesenc_steps sample_lane 3 1). reflexivity.
Defined.

(** X4. The row rotation and the substitution are undone by their
    inverses, in both orders, and adding a round constant twice returns
    the lane. *)
Theorem byte_steps_invertible (s : state_t) (r j : nat) :
  state_ok s ->
  invshiftrows (shiftrows s) = s /\ shiftrows (invshiftrows s) = s
  /\ invsubbytes (subbytes s) = s /\ subbytes (invsubbytes s) = s
  /\ xor_rcons (xor_rcons s r j) r j = s.
Proof.
  intros H. unfold xor_rcons. generalize (4 * r + j)%nat. intros k.
  explode_state s H.
  split; [reflexivity|]. split; [reflexivity|].
  split; [hk_eval; rewrite !invsbox_sbox by assumption; reflexivity|].
  split; [hk_eval; rewrite !sbox_invsbox by assumption; reflexivity|].
  hk_eval. rewrite !lxor_cancel_r. reflexivity.
Qed.

Lemma byte_steps_invertible_witness :
  state_ok sample_lane
  /\ invshiftrows (shiftrows sample_lane) = sample_lane
  /\ shiftrows (invshiftrows sample_lane) = sample_lane
  /\ invsubbytes (subbytes sample_lane) = sample_lane
  /\ subbytes (invsubbytes sample_lane) = sample_lane
  /\ xor_rcons (xor_rcons sample_lane 7 2) 7 2 = sample_lane.
Proof.
  split; [exact sample_lane_ok|].
  exact (byte_steps_invertible sample_lane 7 2 sample_lane_ok).
Defined.

(** X5. Each multiplication table holds the products of its constant in
    GF(2^8) modulo x^8 + x^4 + x^3 + x + 1. *)
Theorem tables_are_gf_products (b : Z) :
  byte b ->
  times2 b = gf_mul b 2 /\ times3 b = gf_mul b 3 /\ times7 b = gf_mul b 7
  /\ times9 b = gf_mul b 9 /\ times11 b = gf_mul b 11 /\ times13 b = gf_mul b 13
  /\ times14 b = gf_mul b 14 /\ times68 b = gf_mul b 68 /\ times71 b = gf_mul b 71
  /\ times201 b = gf_mul b 201 /\ times203 b = gf_mul b 203.
Proof.
  intros Hb.
  pose proof (forall_byte
    (fun b => (times2 b =? gf_mul b 2) && (times3 b =? gf_mul b 3)
              && (times7 b =? gf_mul b 7) && (times9 b =? gf_mul b 9)
              && (times11 b =? gf_mul b 11) && (times13 b =? gf_mul b 13)
              && (times14 b =? gf_mul b 14) && (times68 b =? gf_mul b 68)
              && (times71 b =? gf_mul b 71) && (times201 b =? gf_mul b 201)
              && (times203 b =? gf_mul b 203))
    ltac:(vm_compute; reflexivity) b Hb) as H.
  cbv beta in H. rewrite !andb_true_iff, !Z.eqb_eq in H. tauto.
Qed.

Lemma tables_are_gf_products_witness :
  byte 87
  /\ times2 87 = gf_mul 87 2 /\ times3 87 = gf_mul 87 3 /\ times7 87 = gf_mul 87 7
  /\ times9 87 = gf_mul 87 9 /\ times11 87 = gf_mul 87 11 /\ times13 87 = gf_mul 87 13
  /\ times14 87 = gf_mul 87 14 /\ times68 87 = gf_mul 87 68 /\ times71 87 = gf_mul 87 71
  /\ times201 87 = gf_mul 87 201 /\ times203 87 = gf_mul 87 203.
Proof.
  assert (H : byte 87) by (unfold byte; lia).
  split; [exact H|]. exact (tables_are_gf_products 87 H).
Defined.

(** X6. [sbox_table] is the AES S-box of FIPS-197 (the field inverse followed
    by the affine map), and [invsbox_table] is its inverse table. *)
Theorem sbox_is_aes_sbox (b : Z) :
  byte b ->
  sbox b = aes_sbox b /\ invsbox (sbox b) = b /\ sbox (invsbox b) = b.
Proof.
  intros Hb. split; [symmetry; apply aes_sbox_table, Hb|].
  split; [apply invsbox_sbox, Hb | apply sbox_invsbox, Hb].
Qed.

Lemma sbox_is_aes_sbox_witness :
  byte 83 /\ sbox 83 = aes_sbox 83 /\ invsbox (sbox 83) = 83 /\ sbox (invsbox 83) = 83.
Proof.
  assert (H : byte 83) by (unfold byte; lia).
  split; [exact H|]. exact (sbox_is_aes_sbox 83 H).
Defined.

(** X7. One [_mm_aesenc_si128] with the constant [rc[4r + j]] built in
    [main] is the table-driven round [aesenc] at [(r, j)]. *)
Theorem aesni_round_is_aesenc (a : state_t) (r j : nat) :
  state_ok a -> (r < 10)%nat -> (j < 4)%nat ->
  mm_aesenc_si128 (state_to_value a) (rc_at rc_main (4 * r + j)) = aesenc a r j.
Proof.
  intros Ha Hr Hj. unfold state_to_value. apply mm_aesenc_si128_aesenc; [exact Ha | lia].
Qed.

Lemma aesni_round_is_aesenc_witness :
  state_ok sample_lane /\ (9 < 10)%nat /\ (3 < 4)%nat
  /\ mm_aesenc_si128 (state_to_value sample_lane) (rc_at rc_main (4 * 9 + 3))
     = aesenc sample_lane 9 3.
Proof.
  split; [exact sample_lane_ok|]. split; [lia|]. split; [lia|].
  apply (aesni_round_is_aesenc sample_lane 9 3); [exact sample_lane_ok | lia | lia].
Defined.

(** X8. The eight unpack instructions of the AES-NI code compute MIX. *)
Theorem unpack_sequence_is_mix512 (s : hkstate_t) :
  shape s -> mix_unpack s = mix512 s.
Proof. apply mix_unpack_mix512. Qed.

Lemma unpack_sequence_is_mix512_witness :
  shape sample_state /\ mix_unpack sample_state = mix512 sample_state.
Proof.
  assert (H : shape sample_state) by (apply hkstate_ok_shape, sample_state_ok).
  split; [exact H|]. exact (unpack_sequence_is_mix512 sample_state H).
Defined.

(** * The table during and after the populate phase *)

Lemma guesses_ok seed :
  byte seed ->
  array_ok 8 (guesses_ctx seed) /\ array_ok 20 guesses_x3
  /\ array_ok 16 guesses_x4 /\ array_ok 12 guesses_x5.
Proof.
  intros Hs. split.
  - split; [reflexivity|]. unfold guesses_ctx.
    repeat (apply Forall_cons; [first [exact Hs | apply byte_0]|]). apply Forall_nil.
  - split; [|split]; apply array_okb_spec; reflexivity.
Qed.

Lemma dof_of_index_ok i : array_ok 4 (dof_of_index i).
Proof.
  split; [reflexivity|]. unfold dof_of_index.
  assert (H : forall x, byte (Z.land x 255)).
  { intros x. unfold byte. change 255 with (Z.ones 8). rewrite Z.land_ones by lia.
    apply Z.mod_pos_bound. lia. }
  repeat (apply Forall_cons; [apply H|]). apply Forall_nil.
Qed.

Lemma computefwd_from_x5_ok s : hkstate_ok s -> hkstate_ok (fst (computefwd_from_x5 s)).
Proof.
  intros H. unfold computefwd_from_x5, fwd_fingerprint. cbv zeta. cbn [fst].
  apply on_lane_ok; [|apply shiftrows_ok].
  apply on_lane_ok; [|apply subbytes_ok].
  apply mix512_ok.
  do 6 (apply on_lane_ok; [|apply aesenc_ok]).
  apply mix512_ok, aesenc_all_ok, H.
Qed.

Lemma computefwd_ok s ctx g3 g4 g5 dof :
  hkstate_ok s -> array_ok 8 ctx -> array_ok 20 g3 -> array_ok 16 g4 ->
  array_ok 12 g5 -> array_ok 4 dof ->
  hkstate_ok (fst (computefwd s ctx g3 g4 g5 dof)).
Proof.
  intros. unfold computefwd. cbv zeta.
  apply computefwd_from_x5_ok, computefwd_x5_ok; assumption.
Qed.

Lemma computefwd_output_length s ctx g3 g4 g5 dof :
  length (snd (computefwd s ctx g3 g4 g5 dof)) = 4%nat.
Proof. reflexivity. Qed.

(** The entry a thread buffers for the index [i]. *)
Lemma buffered_entry s seed i :
  hkstate_ok s ->
  let res := snd (computefwd s (guesses_ctx seed) guesses_x3 guesses_x4 guesses_x5
                    (dof_of_index i)) in
  let fwddof := dof_of_index i in
  [res.[0]; res.[1]; res.[2]; res.[3]; fwddof.[0]; fwddof.[1]; fwddof.[2]; fwddof.[3]]
  = fwd_entry seed i.
Proof.
  intros Hs res fwddof. unfold fwd_entry, fwd_result.
  rewrite (computefwd_scratch zero_state s) by
    first [ apply hkstate_ok_shape; first [exact zero_state_ok | exact Hs] | reflexivity ].
  fold res.
  pose proof (computefwd_output_length s (guesses_ctx seed) guesses_x3 guesses_x4
                guesses_x5 (dof_of_index i)) as L.
  fold res in L. clearbody res. explode_list res L. reflexivity.
Qed.

Lemma populatetable_iter_sound ind seed fwdvecs w :
  byte seed -> hkstate_ok (fw_fwds w) ->
  let r := populatetable_iter ind seed fwdvecs w in
  hkstate_ok (fw_fwds (snd r))
  /\ fw_i (snd r) = fw_i w + 1
  /\ ((owns ind (fw_i w) = false /\ fst r = fwdvecs /\ fw_buffer (snd r) = fw_buffer w)
      \/ (owns ind (fw_i w) = true /\ fst r = fwdvecs
          /\ fw_buffer (snd r) = fw_buffer w ++ [fwd_entry seed (fw_i w)])
      \/ (owns ind (fw_i w) = true /\ fw_buffer (snd r) = []
          /\ fst r = flush_buffer fwdvecs (fw_buffer w ++ [fwd_entry seed (fw_i w)]))).
Proof.
  intros Hseed Hs. destruct (guesses_ok seed Hseed) as [G1 [G2 [G3 G4]]].
  pose proof (computefwd_ok (fw_fwds w) _ _ _ _ _ Hs G1 G2 G3 G4
                (dof_of_index_ok (fw_i w))) as Hok.
  pose proof (buffered_entry (fw_fwds w) seed (fw_i w) Hs) as Hentry.
  cbv zeta in Hentry.
  unfold populatetable_iter.
  destruct (owns ind (fw_i w)).
  - revert Hok Hentry.
    destruct (computefwd (fw_fwds w) (guesses_ctx seed) guesses_x3 guesses_x4
                guesses_x5 (dof_of_index (fw_i w))) as [fwds res].
    cbn [fst snd]. intros Hok Hentry. rewrite Hentry.
    destruct (fw_bufsize w + 1 >? 10000); cbn [fst snd fw_i fw_buffer fw_bufsize fw_fwds].
    + split; [exact Hok|]. split; [reflexivity|]. right. right.
      repeat split; reflexivity.
    + split; [exact Hok|]. split; [reflexivity|]. right. left.
      repeat split; reflexivity.
  - cbn [fst snd fw_i fw_buffer fw_bufsize fw_fwds].
    split; [exact Hs|]. split; [reflexivity|]. left. repeat split; reflexivity.
Qed.

Lemma fwd_entry_cons seed j :
  exists m0 m1 m2 m3,
    fwd_result seed j = [m0; m1; m2; m3]
    /\ fwd_entry seed j = m0 :: m1 :: m2 :: m3 :: dof_of_index j.
Proof.
  unfold fwd_entry.
  pose proof (computefwd_output_length zero_state (guesses_ctx seed) guesses_x3
                guesses_x4 guesses_x5 (dof_of_index j)) as L.
  fold (fwd_result seed j) in L. revert L. generalize (fwd_result seed j). intros res L.
  explode_list res L. eexists _, _, _, _. split; reflexivity.
Qed.

(** What [flush_buffer] adds to a shard, for a buffer of forward entries. *)
Lemma flush_buffer_sound seed size buffer : forall fwdvecs m0 m1 m2 r,
  Forall (fun v => exists j, 0 <= j < size /\ v = fwd_entry seed j) buffer ->
  In r (flush_buffer fwdvecs buffer m0 m1 m2) ->
  In r (fwdvecs m0 m1 m2)
  \/ exists j, 0 <= j < size /\ m0 :: m1 :: m2 :: r = fwd_entry seed j.
Proof.
  unfold flush_buffer.
  induction buffer as [|v buffer IH]; intros fwdvecs m0 m1 m2 r HF H; cbn in H.
  - left. exact H.
  - apply Forall_cons_iff in HF. destruct HF as [[j [Hj Ev]] HF].
    apply (IH _ _ _ _ _ HF) in H. destruct H as [H | H]; [|right; exact H].
    unfold push_back_at in H.
    destruct ((m0 =? v.[0]) && (m1 =? v.[1]) && (m2 =? v.[2])) eqn:E.
    + apply in_app_or in H. destruct H as [H | [<- | []]]; [left; exact H|].
      right. exists j. split; [exact Hj|].
      apply andb_prop in E. destruct E as [E E2]. apply andb_prop in E.
      destruct E as [E0 E1]. apply Z.eqb_eq in E0, E1, E2. subst m0 m1 m2.
      destruct (fwd_entry_cons seed j) as [a [b [c0 [d [_ Ee]]]]].
      rewrite Ev, Ee. unfold dof_of_index. reflexivity.
    + left. exact H.
Qed.

Lemma phase1_init_sound seed size scratch :
  Forall hkstate_ok scratch -> phase1_sound seed size (phase1_init scratch).
Proof.
  intros Hsc. unfold phase1_sound, phase1_init. cbn [fst snd]. split.
  - intros ind w H. pose proof (nth_error_In _ _ H) as Hin. apply in_map_iff in Hin.
    destruct Hin as [s [<- Hs]]. cbn [fw_i fw_fwds fw_buffer fwd_worker_init].
    split; [lia|]. split; [|constructor].
    rewrite Forall_forall in Hsc. exact (Hsc s Hs).
  - intros m0 m1 m2 r [].
Qed.

Lemma phase1_step_sound seed size c c' :
  byte seed -> phase1_sound seed size c -> phase1_step seed size c c' ->
  phase1_sound seed size c'.
Proof.
  intros Hseed [HW HT] Hstep. destruct Hstep as [fwdvecs ws ind w Hw Hlt].
  cbn [fst snd] in HW, HT.
  destruct (HW ind w Hw) as [Hi [Hs Hbuf]].
  pose proof (populatetable_iter_sound (Z.of_nat ind) seed fwdvecs w Hseed Hs) as Hc.
  cbv zeta in Hc. destruct Hc as [Hs' [Hi' Hc]].
  set (r := populatetable_iter (Z.of_nat ind) seed fwdvecs w) in *.
  assert (Hnew : Forall (fun v => exists j, 0 <= j < size /\ v = fwd_entry seed j)
                   (fw_buffer w ++ [fwd_entry seed (fw_i w)])).
  { apply Forall_app. split; [exact Hbuf|]. constructor; [|constructor].
    exists (fw_i w). split; [lia | reflexivity]. }
  unfold phase1_sound. cbn [fst snd]. split.
  - intros ind' w' Hw'. rewrite nth_error_set in Hw'.
    destruct (Nat.eqb ind ind') eqn:E.
    + apply Nat.eqb_eq in E. subst ind'. rewrite Hw in Hw'. injection Hw' as <-.
      split; [lia|]. split; [exact Hs'|].
      destruct Hc as [[_ [_ Eb]] | [[_ [_ Eb]] | [_ [Eb _]]]]; rewrite Eb.
      * exact Hbuf.
      * exact Hnew.
      * constructor.
    + apply (HW ind' w' Hw').
  - intros m0 m1 m2 rec Hin.
    destruct Hc as [[_ [Et _]] | [[_ [Et _]] | [_ [_ Et]]]]; rewrite Et in Hin.
    + exact (HT _ _ _ _ Hin).
    + exact (HT _ _ _ _ Hin).
    + apply (flush_buffer_sound seed size _ _ _ _ _ _ Hnew) in Hin.
      destruct Hin as [Hin | Hin]; [exact (HT _ _ _ _ Hin) | exact Hin].
Qed.

Lemma phase1_run_sound seed size c c' :
  byte seed -> phase1_sound seed size c -> phase1_run seed size c c' ->
  phase1_sound seed size c'.
Proof.
  intros Hseed Hc Hrun. induction Hrun as [c | c1 c2 c3 _ IH Hstep].
  - exact Hc.
  - apply (phase1_step_sound seed size c2 c3 Hseed); [apply IH, Hc | exact Hstep].
Qed.

(** X9. At every moment of the populate phase, in every interleaving of
    the threads, each record of each shard is a genuine forward result:
    the shard indices followed by the record are the four fingerprint
    bytes and the four DegreesOfFreedom bytes of one index of the sweep,
    the fingerprint being the one [computefwd] returns for that index. *)
Theorem table_records_genuine (seed size : Z) (scratch : list hkstate_t)
    (c : phase1) (m0 m1 m2 : Z) :
  byte seed -> Forall hkstate_ok scratch ->
  phase1_run seed size (phase1_init scratch) c ->
  Forall (fun r => exists j, 0 <= j < size
                   /\ m0 :: m1 :: m2 :: r = fwd_result seed j ++ dof_of_index j)
         (fst c m0 m1 m2).
Proof.
  intros Hseed Hsc Hrun.
  pose proof (phase1_run_sound seed size _ c Hseed
                (phase1_init_sound seed size scratch Hsc) Hrun) as [_ HT].
  apply Forall_forall. intros r Hr. exact (HT m0 m1 m2 r Hr).
Qed.

Lemma flush_buffer_mono buffer : forall fwdvecs m0 m1 m2 r,
  In r (fwdvecs m0 m1 m2) -> In r (flush_buffer fwdvecs buffer m0 m1 m2).
Proof.
  unfold flush_buffer.
  induction buffer as [|v buffer IH]; intros fwdvecs m0 m1 m2 r H; cbn.
  - exact H.
  - apply IH. unfold push_back_at.
    destruct ((m0 =? v.[0]) && (m1 =? v.[1]) && (m2 =? v.[2]));
      [apply in_or_app; left; exact H | exact H].
Qed.

Lemma flush_buffer_inserts buffer : forall fwdvecs v,
  In v buffer ->
  In [v.[3]; v.[4]; v.[5]; v.[6]; v.[7]] (flush_buffer fwdvecs buffer v.[0] v.[1] v.[2]).
Proof.
  induction buffer as [|u buffer IH]; intros fwdvecs v Hin; [destruct Hin|].
  destruct Hin as [<- | H].
  - unfold flush_buffer. cbn [fold_left].
    apply (flush_buffer_mono buffer). unfold push_back_at.
    rewrite !Z.eqb_refl. cbn [andb]. apply in_or_app. right. left. reflexivity.
  - unfold flush_buffer. cbn [fold_left]. apply IH, H.
Qed.

Lemma flush_buffer_in_table seed buffer fwdvecs j :
  In (fwd_entry seed j) buffer -> in_table (flush_buffer fwdvecs buffer) seed j.
Proof.
  intros H. destruct (fwd_entry_cons seed j) as [m0 [m1 [m2 [m3 [Er Ee]]]]].
  exists m0, m1, m2, m3. split; [exact Er|].
  pose proof (flush_buffer_inserts buffer fwdvecs _ H) as Hi.
  rewrite Ee in Hi. exact Hi.
Qed.

Lemma in_table_flush seed buffer fwdvecs j :
  in_table fwdvecs seed j -> in_table (flush_buffer fwdvecs buffer) seed j.
Proof.
  intros [m0 [m1 [m2 [m3 [Er Hi]]]]]. exists m0, m1, m2, m3.
  split; [exact Er | apply flush_buffer_mono, Hi].
Qed.

Lemma phase1_init_complete seed scratch : phase1_complete seed (phase1_init scratch).
Proof.
  intros ind w H j Hj. pose proof (nth_error_In _ _ H) as Hin.
  apply in_map_iff in Hin. destruct Hin as [s [<- _]]. cbn in Hj. lia.
Qed.

Lemma phase1_step_complete seed size c c' :
  byte seed -> phase1_inv c -> phase1_sound seed size c -> phase1_complete seed c ->
  phase1_step seed size c c' -> phase1_complete seed c'.
Proof.
  intros Hseed [L [HW _]] [HS _] HC Hstep.
  destruct Hstep as [fwdvecs ws ind w Hw Hlt].
  cbn [fst snd] in L, HW, HS, HC.
  assert (Hind : (ind < 4)%nat) by (rewrite <- L; apply nth_error_Some; congruence).
  destruct (HW ind w Hw) as [Hi [Hb _]].
  destruct (HS ind w Hw) as [_ [Hs _]].
  assert (Hb0 : 0 <= fw_bufsize w < 10001) by (rewrite Hb; apply Z.mod_pos_bound; lia).
  pose proof (populatetable_iter_cases (Z.of_nat ind) seed fwdvecs w) as Hc.
  pose proof (populatetable_iter_sound (Z.of_nat ind) seed fwdvecs w Hseed Hs) as Hd.
  cbv zeta in Hc, Hd. destruct Hc as [Hi' Hc]. destruct Hd as [_ [_ Hd]].
  pose proof (owned_before_step (Z.of_nat ind) (fw_i w) ltac:(lia) Hi) as Hstepn.
  set (r := populatetable_iter (Z.of_nat ind) seed fwdvecs w) in *.
  assert (Hmono : forall j, in_table fwdvecs seed j -> in_table (fst r) seed j).
  { intros j Hj.
    destruct Hd as [[_ [Et _]] | [[_ [Et _]] | [_ [_ Et]]]]; rewrite Et;
      [exact Hj | exact Hj | apply in_table_flush, Hj]. }
  intros ind' w' Hw' j Hj Hm. cbn [fst snd] in *. rewrite nth_error_set in Hw'.
  destruct (Nat.eqb ind ind') eqn:E.
  - apply Nat.eqb_eq in E. subst ind'. rewrite Hw in Hw'. injection Hw' as <-.
    rewrite Hi' in Hj |- *. rewrite Hstepn.
    assert (Hold : j < fw_i w ->
      (owned_before (Z.of_nat ind) j + fw_bufsize w
         < owned_before (Z.of_nat ind) (fw_i w) -> in_table fwdvecs seed j)
      /\ (owned_before (Z.of_nat ind) (fw_i w)
            <= owned_before (Z.of_nat ind) j + fw_bufsize w ->
          In (fwd_entry seed j) (fw_buffer w))).
    { intros Hlt'. apply (HC ind w Hw j); [lia | exact Hm]. }
    pose proof (owned_before_mono (Z.of_nat ind) j (fw_i w)) as Hmj.
    destruct Hc as [[Ho [_ [_ Es]]] | [[Ho [Hle [_ [Es _]]]] | [Ho [Hgt [Es _]]]]];
      rewrite Ho, Es.
    + (* the index is not owned: nothing changes *)
      assert (j < fw_i w).
      { destruct (Z.eq_dec j (fw_i w)) as [->|]; [|lia].
        apply owns_spec in Hm; [congruence | lia]. }
      destruct Hd as [[_ [Et Eb]] | [[Ho' _] | [Ho' _]]]; try congruence.
      rewrite Eb. destruct (Hold H) as [H1 H2].
      split; [intros Hx; apply Hmono, H1, Hx | exact H2].
    + (* owned and buffered *)
      destruct Hd as [[Ho' _] | [[_ [Et Eb]] | [_ [Eb _]]]]; try congruence.
      * rewrite Eb. destruct (Z.eq_dec j (fw_i w)) as [->|Hne].
        -- split; [intros Hx; lia|]. intros _. apply in_or_app. right. left. reflexivity.
        -- destruct (Hold ltac:(lia)) as [H1 H2]. split.
           ++ intros Hx. apply Hmono, H1. lia.
           ++ intros Hx. apply in_or_app. left. apply H2. lia.
      * pose proof (f_equal (@length _) Eb) as Hlen.
        pose proof (populatetable_iter_cases (Z.of_nat ind) seed fwdvecs w) as Hc'.
        cbv zeta in Hc'. fold r in Hc'.
        destruct Hc' as [_ [[Hf _] | [[_ [_ [_ [_ [v [Eb' _]]]]]] | [_ [Hgt _]]]]];
          [congruence | | lia].
        rewrite Eb in Eb'. destruct (fw_buffer w); discriminate Eb'.
    + (* owned and flushed *)
      destruct Hd as [[Ho' _] | [[_ [_ Eb]] | [_ [_ Et]]]]; try congruence.
      * pose proof (populatetable_iter_cases (Z.of_nat ind) seed fwdvecs w) as Hc'.
        cbv zeta in Hc'. fold r in Hc'.
        destruct Hc' as [_ [[Hf _] | [[_ [Hle _]] | [_ [_ [_ [Eb' _]]]]]]];
          [congruence | lia |].
        rewrite Eb in Eb'. destruct (fw_buffer w); discriminate Eb'.
      * split; [|intros Hx; specialize (Hmj ltac:(lia)); lia].
        intros _. rewrite Et.
        destruct (Z.eq_dec j (fw_i w)) as [->|Hne].
        -- apply flush_buffer_in_table, in_or_app. right. left. reflexivity.
        -- destruct (Hold ltac:(lia)) as [H1 H2].
           destruct (Z_lt_le_dec (owned_before (Z.of_nat ind) j + fw_bufsize w)
                       (owned_before (Z.of_nat ind) (fw_i w))) as [Hx | Hx].
           ++ apply in_table_flush, H1, Hx.
           ++ apply flush_buffer_in_table, in_or_app. left. apply H2, Hx.
  - destruct (HC ind' w' Hw' j Hj Hm) as [H1 H2].
    split; [intros Hx; apply Hmono, H1, Hx | exact H2].
Qed.

Lemma phase1_run_complete seed size scratch c :
  byte seed -> length scratch = 4%nat -> Forall hkstate_ok scratch ->
  phase1_run seed size (phase1_init scratch) c ->
  phase1_inv c /\ phase1_sound seed size c /\ phase1_complete seed c.
Proof.
  intros Hseed L Hsc Hrun.
  remember (phase1_init scratch) as c0 eqn:E.
  induction Hrun as [c | c1 c2 c3 Hrun IH Hstep]; subst.
  - split; [apply phase1_init_inv, L|].
    split; [apply phase1_init_sound, Hsc | apply phase1_init_complete].
  - destruct (IH eq_refl) as [H1 [H2 H3]].
    split; [apply (phase1_step_inv seed size c2 c3 H1 Hstep)|].
    split; [apply (phase1_step_sound seed size c2 c3 Hseed H2 Hstep)|].
    apply (phase1_step_complete seed size c2 c3 Hseed H1 H2 H3 Hstep).
Qed.

(** X10. When the four threads have been joined, in every interleaving,
    the record of every index of the sweep is in the shard selected by its
    first three fingerprint bytes, except for the last [n mod 10001] of
    the [n] indices each thread owns. *)
Theorem flushed_records_present (seed size : Z) (scratch : list hkstate_t)
    (c : phase1) (i : Z) :
  byte seed -> length scratch = 4%nat -> Forall hkstate_ok scratch ->
  phase1_run seed size (phase1_init scratch) c ->
  phase1_joined size c ->
  0 <= i < size ->
  owned_before (i mod 4) size mod 10001
    < owned_before (i mod 4) size - owned_before (i mod 4) i ->
  in_table (fst c) seed i.
Proof.
  intros Hseed L Hsc Hrun Hjoin Hi Hrank.
  destruct (phase1_run_complete seed size scratch c Hseed L Hsc Hrun)
    as [[Lc [HW _]] [_ HC]].
  assert (Hex : exists w, nth_error (snd c) (Z.to_nat (i mod 4)) = Some w).
  { destruct (nth_error (snd c) (Z.to_nat (i mod 4))) as [w|] eqn:E; [eauto|].
    apply nth_error_None in E. pose proof (Z.mod_pos_bound i 4). lia. }
  destruct Hex as [w Hw].
  unfold phase1_joined in Hjoin. rewrite Forall_forall in Hjoin.
  pose proof (Hjoin w (nth_error_In _ _ Hw)) as Hend.
  destruct (HW _ w Hw) as [_ [Hb _]].
  assert (Hz : Z.of_nat (Z.to_nat (i mod 4)) = i mod 4)
    by (pose proof (Z.mod_pos_bound i 4); lia).
  rewrite Hz, Hend in Hb.
  apply (HC _ w Hw i); rewrite ?Hz, ?Hend; try lia.
Qed.

(** ** The second phase: what [bwdsearch] reports *)

Lemma fullcond_implies_printcond pix0 : fullcond pix0 = true -> printcond pix0 = true.
Proof.
  unfold printcond, fullcond. rewrite !andb_true_iff, !Z.eqb_eq. tauto.
Qed.

Lemma report_test pix0 : (printcond pix0 && true) || fullcond pix0 = printcond pix0.
Proof.
  rewrite andb_true_r.
  destruct (fullcond pix0) eqn:E; [|apply orb_false_r].
  rewrite (fullcond_implies_printcond _ E). reflexivity.
Qed.

Lemma xor_state_ok a b : hkstate_ok a -> hkstate_ok b -> hkstate_ok (xor_state a b).
Proof.
  intros Ha Hb. unfold xor_state.
  apply for_upto_inv; [|assumption]. intros s ii Hs.
  apply for_upto_inv; [|assumption]. intros s' jj Hs'.
  apply set2_ok; auto with hk.
Qed.

Lemma unrotate_ok s :
  hkstate_ok s ->
  hkstate_ok (for_upto 4 (fun pix0 ii =>
    let pix0 := on_lane pix0 ii invmixcolumns in
    on_lane pix0 ii invshiftrows) s).
Proof.
  intros H. apply for_upto_inv; [|assumption]. intros s' ii Hs'. cbv zeta.
  apply on_lane_ok; [|apply invshiftrows_ok].
  apply on_lane_ok; [assumption | apply invmixcolumns_ok].
Qed.

Lemma rotate_ok s :
  hkstate_ok s -> hkstate_ok (for_upto 4 (fun pix0 ii => on_lane pix0 ii shiftrows) s).
Proof.
  intros H. apply for_upto_inv; [|assumption]. intros s' ii Hs'.
  apply on_lane_ok; [assumption | apply shiftrows_ok].
Qed.

Lemma feed_forward_target_ok x0 : hkstate_ok x0 -> hkstate_ok (feed_forward_target x0).
Proof.
  intros H. unfold feed_forward_target. cbv zeta.
  apply unrotate_ok, invmix512_ok, xor_state_ok; [apply haraka512pi_ok|]; assumption.
Qed.

(** The recombination returns a state and its image under the permutation. *)
Lemma recombination_image (s pix0 : hkstate_t) (ctx g3 g4 g5 fwddof bwddof : list Z) :
  hkstate_ok s -> length pix0 = 4%nat ->
  array_ok 8 ctx -> array_ok 20 g3 -> array_ok 16 g4 -> array_ok 12 g5 ->
  array_ok 4 fwddof -> array_ok 4 bwddof ->
  hkstate_ok (fst (compute_x0_pix0_from_choices rc_main s pix0 ctx g3 g4 g5 fwddof bwddof))
  /\ snd (compute_x0_pix0_from_choices rc_main s pix0 ctx g3 g4 g5 fwddof bwddof)
     = haraka512pi
         (fst (compute_x0_pix0_from_choices rc_main s pix0 ctx g3 g4 g5 fwddof bwddof)).
Proof.
  intros Hs L Hc H3 H4 H5 Hf Hb.
  pose proof (store_bwddof_ok _ _ (computefwd_x5_ok s _ _ _ _ _ Hs Hc H3 H4 H5 Hf) Hb)
    as Hx5.
  rewrite (compute_x0_pix0_snd s pix0 _ _ _ _ _ _ Hx5 L), compute_x0_pix0_fst.
  split.
  - apply invaesenc_all_ok, invaesenc_all_ok, invmix512_ok, invaesenc_all_ok,
      invaesenc_all_ok, invmix512_ok, invaesenc_all_ok. exact Hx5.
  - rewrite haraka512pi_rounds, (rounds_0_4_of_x0 _ Hx5). unfold x8_of_x5. reflexivity.
Qed.

Lemma recombination_scratch (s p s' p' : hkstate_t) (ctx g3 g4 g5 fwddof bwddof : list Z) :
  shape s -> shape s' ->
  length ctx = 8%nat -> length g3 = 20%nat -> length g4 = 16%nat ->
  length g5 = 12%nat -> length fwddof = 4%nat -> length bwddof = 4%nat ->
  fst (compute_x0_pix0_from_choices rc_main s p ctx g3 g4 g5 fwddof bwddof)
  = fst (compute_x0_pix0_from_choices rc_main s' p' ctx g3 g4 g5 fwddof bwddof).
Proof.
  intros Hs Hs' H1 H2 H3 H4 H5 H6. rewrite !compute_x0_pix0_fst.
  do 7 f_equal.
  explode_shape s Hs. explode_shape s' Hs'.
  explode_list ctx H1. explode_list g3 H2.
  explode_list g4 H3. explode_list g5 H4. explode_list fwddof H5. explode_list bwddof H6.
  hk_eval. reflexivity.
Qed.

Lemma computebwd_x0_ok s ctx g3 g4 g5 dof :
  hkstate_ok s -> array_ok 8 ctx -> array_ok 20 g3 -> array_ok 16 g4 ->
  array_ok 12 g5 -> array_ok 4 dof ->
  hkstate_ok (computebwd_x0 s ctx g3 g4 g5 dof).
Proof.
  intros Hs [_ H1] H2 H3 H4 H5. unfold computebwd_x0, rccon. cbv zeta.
  do 4 (apply on_lane_ok; [|apply invaesenc_ok]).
  apply invmix512_ok.
  apply for_upto_inv.
  { intros s' k Hs'. apply on_lane_ok; [assumption | apply invaesenc_ok]. }
  apply on_lane_ok; [|apply invsbsr_ok].
  assert (HX : hkstate_ok (store_x3_guesses (invaesenc_all (invmix512
            (store_x4_guesses (on_lane (store_x5_guesses (store_bwddof s dof) g5) 2
               (fun l => invaesenc l 4 2)) g4)) 3) g3)).
  { apply store_x3_guesses_ok; [|assumption].
    apply invaesenc_all_ok, invmix512_ok.
    apply store_x4_guesses_ok; [|assumption].
    apply on_lane_ok; [|apply invaesenc_ok].
    apply store_x5_guesses_ok; [|assumption].
    apply store_bwddof_ok; assumption. }
  revert HX. generalize (store_x3_guesses (invaesenc_all (invmix512
            (store_x4_guesses (on_lane (store_x5_guesses (store_bwddof s dof) g5) 2
               (fun l => invaesenc l 4 2)) g4)) 3) g3).
  intros X HX.
  do 8 (apply set2_ok; [|eauto 12 with hk]). exact HX.
Qed.

Lemma bwd_fingerprint_ok s :
  hkstate_ok s ->
  hkstate_ok (fst (bwd_fingerprint s)) /\ Forall byte (snd (bwd_fingerprint s)).
Proof.
  intros H. unfold bwd_fingerprint. cbv zeta. cbn [fst snd].
  assert (K : hkstate_ok (on_lane (on_lane (invmix512 s) 2 (fun l => invaesenc l 9 2)) 2
                            (fun l => xor_rcons l 8 2))).
  { apply on_lane_ok; [|apply xor_rcons_ok].
    apply on_lane_ok; [|apply invaesenc_ok]. apply invmix512_ok, H. }
  split; [exact K|].
  repeat (apply Forall_cons; [auto 8 with hk|]). apply Forall_nil.
Qed.

Lemma computebwd_ok s ctx g3 g4 g5 dof :
  hkstate_ok s -> array_ok 8 ctx -> array_ok 20 g3 -> array_ok 16 g4 ->
  array_ok 12 g5 -> array_ok 4 dof ->
  hkstate_ok (fst (computebwd s ctx g3 g4 g5 dof))
  /\ Forall byte (snd (computebwd s ctx g3 g4 g5 dof)).
Proof.
  intros. unfold computebwd. cbv zeta.
  apply bwd_fingerprint_ok, computebwd_x0_ok; assumption.
Qed.

Lemma match_dofs_ok v :
  Forall byte v ->
  array_ok 4 [v.[0]; v.[1]; v.[2]; v.[3]] /\ array_ok 4 [v.[4]; v.[5]; v.[6]; v.[7]].
Proof.
  intros H. split; (split; [reflexivity|]);
    repeat (apply Forall_cons; [apply get_byte, H|]); apply Forall_nil.
Qed.

Lemma feed_forward_target_unfold x0 :
  feed_forward_target x0
  = for_upto 4 (fun pix0 ii =>
      on_lane (on_lane pix0 ii invmixcolumns) ii invshiftrows)
      (invmix512 (xor_state (haraka512pi x0) x0)).
Proof. unfold feed_forward_target. reflexivity. Qed.

(** One pass of the loop over [matches]: the candidate is recombined, and
    it is reported exactly when its feed-forward target passes
    [printcond]. *)
Lemma check_match_spec seed w v :
  byte seed -> hkstate_ok (bw_x0 w) -> hkstate_ok (bw_pix0 w) -> Forall byte v ->
  match_step (check_match rc_main seed) seed w v.
Proof.
  intros Hseed Hx Hp Hv. destruct (guesses_ok seed Hseed) as [G1 [G2 [G3 G4]]].
  destruct (match_dofs_ok v Hv) as [Hf Hb].
  pose proof (recombination_image (bw_x0 w) (bw_pix0 w) _ _ _ _ _ _
                Hx (proj1 Hp) G1 G2 G3 G4 Hf Hb) as [Hok Himg].
  assert (Heq : fst (compute_x0_pix0_from_choices rc_main (bw_x0 w) (bw_pix0 w)
                (guesses_ctx seed) guesses_x3 guesses_x4 guesses_x5
                [v.[0]; v.[1]; v.[2]; v.[3]] [v.[4]; v.[5]; v.[6]; v.[7]])
              = recombined seed [v.[0]; v.[1]; v.[2]; v.[3]] [v.[4]; v.[5]; v.[6]; v.[7]]).
  { unfold recombined. apply recombination_scratch;
      first [ apply hkstate_ok_shape; first [exact Hx | exact zero_state_ok]
            | reflexivity ]. }
  unfold match_step, check_match. cbv zeta.
  revert Hok Himg Heq. generalize (recombined seed [v.[0]; v.[1]; v.[2]; v.[3]]
                                     [v.[4]; v.[5]; v.[6]; v.[7]]). intros x0'.
  generalize (compute_x0_pix0_from_choices rc_main (bw_x0 w) (bw_pix0 w)
                (guesses_ctx seed) guesses_x3 guesses_x4 guesses_x5
                [v.[0]; v.[1]; v.[2]; v.[3]] [v.[4]; v.[5]; v.[6]; v.[7]]).
  intros [x0 pix0]. cbn [fst snd]. intros Hok -> <-.
  rewrite <- !(feed_forward_target_unfold x0).
  rewrite report_test.
  pose proof (feed_forward_target_ok x0 Hok) as Ht.
  destruct (printcond (feed_forward_target x0)) eqn:E;
    cbn [bw_x0 bw_pix0 bw_bwds bw_buffer bw_bufsize bw_out]; rewrite ?E, ?app_nil_r.
  - split; [reflexivity|]. split; [exact Hok|].
    split; [apply mix512_ok, rotate_ok, Ht|]. auto.
  - split; [reflexivity|]. split; [exact Hok|]. split; [exact Ht|]. auto.
Qed.

Lemma report_ok_intro full x0 sum :
  hkstate_ok x0 -> printcond (feed_forward_target x0) = true ->
  full = fullcond (feed_forward_target x0) ->
  sum = mix512 (for_upto 4 (fun pix0 ii => on_lane pix0 ii shiftrows)
                  (feed_forward_target x0)) ->
  report_ok {| rep_full := full; rep_x0 := x0; rep_sum := sum |}.
Proof.
  intros H1 H2 H3 H4. unfold report_ok. cbn [rep_x0 rep_full rep_sum]. auto.
Qed.

(** The loop over [matches]: the locals stay well formed, and what is
    appended to the output are right reports of recombined matches. *)
Section FoldMatches.

Variable f : bwd_worker -> list Z -> bwd_worker.
Variable seed : Z.
Hypothesis Hf : forall w v,
  hkstate_ok (bw_x0 w) -> hkstate_ok (bw_pix0 w) -> Forall byte v -> match_step f seed w v.

Lemma fold_matches ms :
  Forall (Forall byte) ms ->
  forall w, hkstate_ok (bw_x0 w) -> hkstate_ok (bw_pix0 w) ->
  hkstate_ok (bw_x0 (fold_left f ms w))
  /\ hkstate_ok (bw_pix0 (fold_left f ms w))
  /\ bw_bwds (fold_left f ms w) = bw_bwds w
  /\ bw_buffer (fold_left f ms w) = bw_buffer w
  /\ bw_bufsize (fold_left f ms w) = bw_bufsize w
  /\ exists new,
       bw_out (fold_left f ms w) = bw_out w ++ new
       /\ Forall (fun rep =>
            report_ok rep
            /\ exists v, In v ms
                 /\ rep_x0 rep = recombined seed [v.[0]; v.[1]; v.[2]; v.[3]]
                                   [v.[4]; v.[5]; v.[6]; v.[7]]) new.
Proof.
  intros Hms. induction Hms as [|v ms Hv Hms IH]; intros w Hx Hp; cbn [fold_left].
  - split; [exact Hx|]. split; [exact Hp|]. split; [reflexivity|]. split; [reflexivity|].
    split; [reflexivity|].
    exists []. split; [symmetry; apply app_nil_r | constructor].
  - pose proof (Hf w v Hx Hp Hv) as E. unfold match_step in E. cbv zeta in E.
    revert E. generalize (f w v). intros w1 E.
    destruct E as [E0 [E1 [E2 [E3 [E4 [E6 E5]]]]]].
    assert (Hx' : hkstate_ok (bw_x0 w1)) by (rewrite E0; exact E1).
    destruct (IH w1 Hx' E2) as [I1 [I2 [I3 [I4 [I7 [new [I5 I6]]]]]]].
    split; [exact I1|]. split; [exact I2|].
    split; [rewrite I3; exact E3|]. split; [rewrite I4; exact E4|].
    split; [rewrite I7; exact E6|].
    remember (recombined seed [v.[0]; v.[1]; v.[2]; v.[3]] [v.[4]; v.[5]; v.[6]; v.[7]])
      as x0 eqn:Hx0.
    assert (Hrest : Forall (fun rep =>
              report_ok rep
              /\ exists v1, In v1 (v :: ms)
                   /\ rep_x0 rep = recombined seed [v1.[0]; v1.[1]; v1.[2]; v1.[3]]
                                     [v1.[4]; v1.[5]; v1.[6]; v1.[7]]) new).
    { apply (Forall_impl _ (P := fun rep => report_ok rep /\ exists v0, In v0 ms
               /\ rep_x0 rep = recombined seed [v0.[0]; v0.[1]; v0.[2]; v0.[3]]
                                 [v0.[4]; v0.[5]; v0.[6]; v0.[7]])); [|exact I6].
      intros rep [R [v0 [Hin Hr]]]. split; [exact R|].
      exists v0. split; [right; exact Hin | exact Hr]. }
    assert (Ht : exists t, t = feed_forward_target x0) by (eexists; reflexivity).
    destruct Ht as [t Ht]. rewrite <- Ht in E5.
    destruct (printcond t) eqn:Ep.
    + exists ({| rep_full := fullcond t; rep_x0 := x0;
                 rep_sum := mix512 (for_upto 4 (fun pix0 ii => on_lane pix0 ii shiftrows) t)
              |} :: new).
      split.
      * rewrite I5, E5, <- app_assoc. reflexivity.
      * constructor; [|exact Hrest]. split.
        -- apply report_ok_intro; [exact E1 | rewrite <- Ht; exact Ep | |];
             rewrite <- Ht; reflexivity.
        -- exists v. split; [left; reflexivity|]. cbn [rep_x0]. exact Hx0.
    + exists new. split; [|exact Hrest].
      rewrite I5, E5, app_nil_r. reflexivity.
Qed.

End FoldMatches.

Lemma fold_check_match seed ms :
  byte seed -> Forall (Forall byte) ms ->
  forall w, hkstate_ok (bw_x0 w) -> hkstate_ok (bw_pix0 w) ->
  hkstate_ok (bw_x0 (fold_left (check_match rc_main seed) ms w))
  /\ hkstate_ok (bw_pix0 (fold_left (check_match rc_main seed) ms w))
  /\ bw_bwds (fold_left (check_match rc_main seed) ms w) = bw_bwds w
  /\ bw_buffer (fold_left (check_match rc_main seed) ms w) = bw_buffer w
  /\ bw_bufsize (fold_left (check_match rc_main seed) ms w) = bw_bufsize w
  /\ exists new,
       bw_out (fold_left (check_match rc_main seed) ms w) = bw_out w ++ new
       /\ Forall (fun rep =>
            report_ok rep
            /\ exists v, In v ms
                 /\ rep_x0 rep = recombined seed [v.[0]; v.[1]; v.[2]; v.[3]]
                                   [v.[4]; v.[5]; v.[6]; v.[7]]) new.
Proof.
  intros Hseed. apply (fold_matches (check_match rc_main seed) seed).
  intros w v. apply (check_match_spec seed w v Hseed).
Qed.

Lemma collect_matches_In fwdvecs buffer mt :
  In mt (collect_matches fwdvecs buffer) ->
  exists v vv, In v buffer /\ In vv (fwdvecs v.[0] v.[1] v.[2]) /\ vv.[0] = v.[3]
    /\ mt = [vv.[1]; vv.[2]; vv.[3]; vv.[4]; v.[4]; v.[5]; v.[6]; v.[7]].
Proof.
  unfold collect_matches. intros H.
  apply in_flat_map in H. destruct H as [v [Hv H]].
  apply in_flat_map in H. destruct H as [vv [Hvv H]].
  destruct (vv.[0] =? v.[3]) eqn:E; [|destruct H].
  destruct H as [<-|[]]. apply Z.eqb_eq in E.
  exists v, vv. auto.
Qed.

Lemma bwd_result_ok seed i :
  byte seed -> array_ok 4 (bwd_result seed i).
Proof.
  intros Hseed. destruct (guesses_ok seed Hseed) as [G1 [G2 [G3 G4]]].
  split; [reflexivity|].
  apply (computebwd_ok zero_state _ _ _ _ _ zero_state_ok G1 G2 G3 G4 (dof_of_index_ok i)).
Qed.

Lemma bwd_entry_parts seed i :
  byte seed ->
  Forall byte (bwd_entry seed i)
  /\ (bwd_entry seed i).[0] = (bwd_result seed i).[0]
  /\ (bwd_entry seed i).[1] = (bwd_result seed i).[1]
  /\ (bwd_entry seed i).[2] = (bwd_result seed i).[2]
  /\ (bwd_entry seed i).[3] = (bwd_result seed i).[3]
  /\ [(bwd_entry seed i).[4]; (bwd_entry seed i).[5];
      (bwd_entry seed i).[6]; (bwd_entry seed i).[7]] = dof_of_index i.
Proof.
  intros Hseed. destruct (bwd_result_ok seed i Hseed) as [L F].
  unfold bwd_entry. split.
  - apply Forall_app. split; [exact F | apply dof_of_index_ok].
  - revert L. generalize (bwd_result seed i). intros res L.
    explode_list res L. unfold dof_of_index. repeat split; reflexivity.
Qed.

Lemma bwd_buffered_entry s seed i :
  hkstate_ok s ->
  let res := snd (computebwd s (guesses_ctx seed) guesses_x3 guesses_x4 guesses_x5
                    (dof_of_index i)) in
  let bwddof := dof_of_index i in
  [res.[0]; res.[1]; res.[2]; res.[3]; bwddof.[0]; bwddof.[1]; bwddof.[2]; bwddof.[3]]
  = bwd_entry seed i.
Proof.
  intros Hs res bwddof. unfold bwd_entry, bwd_result.
  rewrite (computebwd_scratch zero_state s) by
    first [ apply hkstate_ok_shape; first [exact zero_state_ok | exact Hs] | reflexivity ].
  fold res.
  assert (L : length res = 4%nat) by reflexivity.
  revert L. generalize res. intros r L. explode_list r L. reflexivity.
Qed.

Lemma collect_matches_ok fwdvecs seed (P : Z -> Prop) buffer :
  byte seed -> table_bytes fwdvecs ->
  Forall (fun v => exists i, P i /\ v = bwd_entry seed i) buffer ->
  Forall (fun mt =>
    Forall byte mt
    /\ exists i vv,
         P i
         /\ In vv (fwdvecs (bwd_result seed i).[0] (bwd_result seed i).[1]
                           (bwd_result seed i).[2])
         /\ vv.[0] = (bwd_result seed i).[3]
         /\ [mt.[0]; mt.[1]; mt.[2]; mt.[3]] = [vv.[1]; vv.[2]; vv.[3]; vv.[4]]
         /\ [mt.[4]; mt.[5]; mt.[6]; mt.[7]] = dof_of_index i)
    (collect_matches fwdvecs buffer).
Proof.
  intros Hseed Ht Hb. apply Forall_forall. intros mt Hin.
  apply collect_matches_In in Hin. destruct Hin as [v [vv [Hv [Hvv [E ->]]]]].
  rewrite Forall_forall in Hb. destruct (Hb v Hv) as [i [Hi ->]].
  destruct (bwd_entry_parts seed i Hseed) as [Fb [E0 [E1 [E2 [E3 E4]]]]].
  revert Hvv E Fb E0 E1 E2 E3 E4. generalize (bwd_entry seed i). intros e.
  intros Hvv E Fb E0 E1 E2 E3 E4.
  rewrite E0, E1, E2 in Hvv. rewrite E3 in E.
  pose proof (Ht _ _ _ _ Hvv) as Fvv.
  split.
  - repeat (apply Forall_cons; [apply get_byte; assumption|]). apply Forall_nil.
  - exists i, vv. split; [exact Hi|]. split; [exact Hvv|]. split; [exact E|].
    split; [reflexivity | exact E4].
Qed.

(** Flushing the buffer against the table. *)
Lemma flush_matches_inv fwdvecs seed (P : Z -> Prop) w :
  byte seed -> table_bytes fwdvecs ->
  hkstate_ok (bw_x0 w) -> hkstate_ok (bw_pix0 w) ->
  forall buffer,
  Forall (fun v => exists i, P i /\ v = bwd_entry seed i) buffer ->
  Forall (fun rep => report_ok rep /\ exists i, P i /\ report_of fwdvecs seed i rep)
    (bw_out w) ->
  hkstate_ok (bw_x0 (fold_left (check_match rc_main seed)
                       (collect_matches fwdvecs buffer) w))
  /\ hkstate_ok (bw_pix0 (fold_left (check_match rc_main seed)
                           (collect_matches fwdvecs buffer) w))
  /\ bw_bwds (fold_left (check_match rc_main seed) (collect_matches fwdvecs buffer) w)
     = bw_bwds w
  /\ bw_buffer (fold_left (check_match rc_main seed) (collect_matches fwdvecs buffer) w)
     = bw_buffer w
  /\ bw_bufsize (fold_left (check_match rc_main seed) (collect_matches fwdvecs buffer) w)
     = bw_bufsize w
  /\ Forall (fun rep => report_ok rep /\ exists i, P i /\ report_of fwdvecs seed i rep)
       (bw_out (fold_left (check_match rc_main seed)
                  (collect_matches fwdvecs buffer) w)).
Proof.
  intros Hseed Ht Hx Hp buffer Hbuf Hout.
  pose proof (collect_matches_ok fwdvecs seed P buffer Hseed Ht Hbuf) as Hms.
  revert Hms. generalize (collect_matches fwdvecs buffer). intros ms Hms.
  assert (Hbytes : Forall (Forall byte) ms).
  { apply (Forall_impl _ (P := fun mt => Forall byte mt /\ exists i vv,
         P i
         /\ In vv (fwdvecs (bwd_result seed i).[0] (bwd_result seed i).[1]
                           (bwd_result seed i).[2])
         /\ vv.[0] = (bwd_result seed i).[3]
         /\ [mt.[0]; mt.[1]; mt.[2]; mt.[3]] = [vv.[1]; vv.[2]; vv.[3]; vv.[4]]
         /\ [mt.[4]; mt.[5]; mt.[6]; mt.[7]] = dof_of_index i)); [|exact Hms].
    intros mt [H _]. exact H. }
  destruct (fold_check_match seed ms Hseed Hbytes w Hx Hp)
    as [I1 [I2 [I3 [I4 [I7 [new [I5 I6]]]]]]].
  revert I1 I2 I3 I4 I7 I5. generalize (fold_left (check_match rc_main seed) ms w).
  intros w' I1 I2 I3 I4 I7 I5.
  split; [exact I1|]. split; [exact I2|]. split; [exact I3|]. split; [exact I4|].
  split; [exact I7|].
  rewrite I5. apply Forall_app. split; [exact Hout|].
  rewrite Forall_forall in I6, Hms. apply Forall_forall. intros rep Hrep.
  destruct (I6 rep Hrep) as [R [v [Hv Hr]]]. split; [exact R|].
  destruct (Hms v Hv) as [_ [i [vv [Hi [Hvv [E [Ef Eb]]]]]]].
  exists i. split; [exact Hi|]. exists vv. split; [exact Hvv|].
  split; [exact E|]. rewrite Hr, Ef, Eb. reflexivity.
Qed.

(** ** Which indices a thread has flushed *)

Lemma passed_range ind n i : passed ind n i -> 0 <= ind < 4.
Proof. intros [_ <-]. apply Z.mod_pos_bound. lia. Qed.

Lemma passed_mono ind n m i : n <= m -> passed ind n i -> passed ind m i.
Proof. intros H [H1 H2]. split; [lia | exact H2]. Qed.

Lemma flushed_all ind n i : passed ind n i -> flushed ind n 0 i.
Proof.
  intros H. split; [exact H|]. destruct H as [H _].
  pose proof (owned_before_mono ind (i + 1) n ltac:(lia)). lia.
Qed.

Lemma flushed_keep ind n bs i :
  0 <= n -> owns ind n = false -> flushed ind n bs i -> flushed ind (n + 1) bs i.
Proof.
  intros Hn Ho [Hp Hr]. pose proof (passed_range _ _ _ Hp) as Hind.
  split; [apply (passed_mono ind n); [lia | exact Hp]|].
  rewrite (owned_before_step ind n Hind Hn), Ho. exact Hr.
Qed.

Lemma flushed_push ind n bs i :
  0 <= n -> owns ind n = true -> flushed ind n bs i -> flushed ind (n + 1) (bs + 1) i.
Proof.
  intros Hn Ho [Hp Hr]. pose proof (passed_range _ _ _ Hp) as Hind.
  split; [apply (passed_mono ind n); [lia | exact Hp]|].
  rewrite (owned_before_step ind n Hind Hn), Ho. lia.
Qed.

Lemma flushed_weaken ind n bs bs' i : bs' <= bs -> flushed ind n bs i -> flushed ind n bs' i.
Proof. intros H [Hp Hr]. split; [exact Hp | lia]. Qed.

Lemma reports_impl fwdvecs seed (P Q : Z -> Prop) out :
  (forall i, P i -> Q i) ->
  Forall (fun rep => report_ok rep /\ exists i, P i /\ report_of fwdvecs seed i rep) out ->
  Forall (fun rep => report_ok rep /\ exists i, Q i /\ report_of fwdvecs seed i rep) out.
Proof.
  intros HPQ. apply Forall_impl. intros rep [R [i [Hi F]]].
  split; [exact R|]. exists i. split; [apply HPQ, Hi | exact F].
Qed.

Lemma entries_impl seed (P Q : Z -> Prop) buffer :
  (forall i, P i -> Q i) ->
  Forall (fun v => exists i, P i /\ v = bwd_entry seed i) buffer ->
  Forall (fun v => exists i, Q i /\ v = bwd_entry seed i) buffer.
Proof.
  intros HPQ. apply Forall_impl. intros v [i [Hi E]].
  exists i. split; [apply HPQ, Hi | exact E].
Qed.

Lemma flush_period x : (x - 10000) mod 10001 = 0 -> (x + 1 - 0) mod 10001 = 0.
Proof. intros H. Z.div_mod_to_equations. lia. Qed.

Lemma bwdsearch_iter_inv fwdvecs seed ind w :
  byte seed -> table_bytes fwdvecs ->
  bwd_inv fwdvecs seed ind w ->
  bwd_inv fwdvecs seed ind (bwdsearch_iter rc_main fwdvecs ind seed w)
  /\ bw_i (bwdsearch_iter rc_main fwdvecs ind seed w) = bw_i w + 1.
Proof.
  intros Hseed Ht [Hi [[Hb [Hx Hp]] [Hbs [Hnum [Hbuf Hout]]]]].
  destruct (guesses_ok seed Hseed) as [G1 [G2 [G3 G4]]].
  pose proof (entries_impl seed _ _ _ (fun i => passed_mono ind (bw_i w) (bw_i w + 1) i
                ltac:(lia)) Hbuf) as Hbuf'.
  unfold bwdsearch_iter. cbv zeta.
  destruct (owns ind (bw_i w)) eqn:Eo.
  - pose proof Eo as Em. apply owns_spec in Em; [|exact Hi].
    assert (Hind : 0 <= ind < 4) by (rewrite <- Em; apply Z.mod_pos_bound; lia).
    destruct (Hnum Hind) as [Hle Hmod].
    pose proof (owned_before_step ind (bw_i w) Hind Hi) as Hstep. rewrite Eo in Hstep.
    pose proof (computebwd_ok (bw_bwds w) _ _ _ _ _ Hb G1 G2 G3 G4
                  (dof_of_index_ok (bw_i w))) as [Hb' _].
    pose proof (bwd_buffered_entry (bw_bwds w) seed (bw_i w) Hb) as Hentry.
    cbv zeta in Hentry. revert Hb' Hentry.
    generalize (computebwd (bw_bwds w) (guesses_ctx seed) guesses_x3 guesses_x4
                  guesses_x5 (dof_of_index (bw_i w))).
    intros [bwds res]. cbn [fst snd]. intros Hb' ->.
    cbn [bw_i bw_bwds bw_x0 bw_pix0 bw_buffer bw_bufsize bw_count_pairs bw_out].
    assert (Hnew : Forall (fun v => exists i, passed ind (bw_i w + 1) i
                                     /\ v = bwd_entry seed i)
                     (bw_buffer w ++ [bwd_entry seed (bw_i w)])).
    { apply Forall_app. split; [exact Hbuf'|]. constructor; [|constructor].
      exists (bw_i w). split; [|reflexivity]. split; [lia | exact Em]. }
    revert Hnew. generalize (bw_buffer w ++ [bwd_entry seed (bw_i w)]). intros buf Hnew.
    destruct (bw_bufsize w + 1 >? 10000) eqn:Eb.
    + apply Z.gtb_lt in Eb.
      pose proof (entries_impl seed _ _ _ (flushed_all ind (bw_i w + 1)) Hnew) as Hnew0.
      pose proof (reports_impl fwdvecs seed _ _ _
                    (fun i H => flushed_weaken ind (bw_i w + 1) (bw_bufsize w + 1) 0 i
                                  ltac:(lia) (flushed_push ind (bw_i w) _ i Hi Eo H))
                    Hout) as Hout0.
      pose proof (flush_matches_inv fwdvecs seed (flushed ind (bw_i w + 1) 0)
                    {| bw_i := bw_i w; bw_bwds := bwds; bw_x0 := bw_x0 w;
                       bw_pix0 := bw_pix0 w; bw_buffer := []; bw_bufsize := 0;
                       bw_count_pairs := bw_count_pairs w; bw_out := bw_out w |}
                    Hseed Ht Hx Hp buf Hnew0 Hout0) as F.
      revert F. generalize (fold_left (check_match rc_main seed)
                              (collect_matches fwdvecs buf)
                    {| bw_i := bw_i w; bw_bwds := bwds; bw_x0 := bw_x0 w;
                       bw_pix0 := bw_pix0 w; bw_buffer := []; bw_bufsize := 0;
                       bw_count_pairs := bw_count_pairs w; bw_out := bw_out w |}).
      intros w' [F1 [F2 [F3 [F4 [F5 F6]]]]].
      cbn [bw_i bw_bwds bw_x0 bw_pix0 bw_buffer bw_bufsize bw_count_pairs bw_out] in *.
      split; [|reflexivity]. unfold bwd_inv, bwd_worker_ok.
      cbn [bw_i bw_bwds bw_x0 bw_pix0 bw_buffer bw_bufsize bw_count_pairs bw_out].
      rewrite F3, F4, F5.
      split; [lia|]. split; [split; [exact Hb' | split; [exact F1 | exact F2]]|].
      split; [lia|]. split.
      { intros _. rewrite Hstep. split; [lia|].
        assert (E : bw_bufsize w = 10000) by lia. rewrite E in Hmod.
        apply flush_period, Hmod. }
      split; [constructor | exact F6].
    + rewrite Z.gtb_ltb in Eb. apply Z.ltb_ge in Eb.
      split; [|reflexivity]. unfold bwd_inv, bwd_worker_ok.
      cbn [bw_i bw_bwds bw_x0 bw_pix0 bw_buffer bw_bufsize bw_count_pairs bw_out].
      split; [lia|]. split; [split; [exact Hb' | split; [exact Hx | exact Hp]]|].
      split; [lia|]. split.
      { intros _. rewrite Hstep. split; [lia|].
        replace (owned_before ind (bw_i w) + 1 - (bw_bufsize w + 1))
          with (owned_before ind (bw_i w) - bw_bufsize w) by lia.
        exact Hmod. }
      split; [exact Hnew|].
      apply (reports_impl fwdvecs seed _ _ _
               (fun i H => flushed_push ind (bw_i w) _ i Hi Eo H) Hout).
  - assert (Hout' : Forall (fun rep => report_ok rep
                      /\ exists i, flushed ind (bw_i w + 1) (bw_bufsize w) i
                                   /\ report_of fwdvecs seed i rep) (bw_out w)).
    { apply (reports_impl fwdvecs seed _ _ _
               (fun i H => flushed_keep ind (bw_i w) _ i Hi Eo H) Hout). }
    destruct (bw_bufsize w >? 10000) eqn:Eb.
    + apply Z.gtb_lt in Eb. lia.
    + split; [|reflexivity]. unfold bwd_inv, bwd_worker_ok.
      cbn [bw_i bw_bwds bw_x0 bw_pix0 bw_buffer bw_bufsize bw_count_pairs bw_out].
      split; [lia|]. split; [split; [exact Hb | split; [exact Hx | exact Hp]]|].
      split; [exact Hbs|]. split.
      { intros Hind. rewrite (owned_before_step ind (bw_i w) Hind Hi), Eo.
        exact (Hnum Hind). }
      split; [exact Hbuf' | exact Hout'].
Qed.

Lemma bwdsearch_loop_inv fwdvecs seed ind n :
  byte seed -> table_bytes fwdvecs ->
  forall w, bwd_inv fwdvecs seed ind w ->
  bwd_inv fwdvecs seed ind (bwdsearch_loop n rc_main fwdvecs ind seed w)
  /\ bw_i (bwdsearch_loop n rc_main fwdvecs ind seed w) = bw_i w + Z.of_nat n.
Proof.
  intros Hseed Ht. induction n as [|n IH]; intros w Hw.
  - split; [exact Hw|]. cbn [bwdsearch_loop]. lia.
  - destruct (bwdsearch_iter_inv fwdvecs seed ind w Hseed Ht Hw) as [H1 H2].
    destruct (IH _ H1) as [I1 I2].
    change (bwdsearch_loop (S n) rc_main fwdvecs ind seed w)
      with (bwdsearch_loop n rc_main fwdvecs ind seed
              (bwdsearch_iter rc_main fwdvecs ind seed w)).
    split; [exact I1|]. rewrite I2, H2. lia.
Qed.

Lemma bwd_worker_init_inv fwdvecs seed ind bwds x0 pix0 :
  hkstate_ok bwds -> hkstate_ok x0 -> hkstate_ok pix0 ->
  bwd_inv fwdvecs seed ind (bwd_worker_init bwds x0 pix0).
Proof.
  intros Hb Hx Hp. unfold bwd_inv, bwd_worker_ok, bwd_worker_init.
  cbn [bw_i bw_bwds bw_x0 bw_pix0 bw_buffer bw_bufsize bw_count_pairs bw_out].
  split; [lia|]. split; [split; [exact Hb | split; [exact Hx | exact Hp]]|].
  split; [lia|]. split.
  { intros Hind. unfold owned_before. split; Z.div_mod_to_equations; lia. }
  split; constructor.
Qed.

Lemma buffered_count owned bufsize :
  0 <= bufsize <= 10000 -> bufsize <= owned -> (owned - bufsize) mod 10001 = 0 ->
  bufsize = owned mod 10001.
Proof. intros H1 H2 H3. Z.div_mod_to_equations. lia. Qed.

(** What the thread [ind] of the second phase has reported after a sweep of
    [size] indices. *)
Lemma bwdsearch_reports fwdvecs bwds x0 pix0 ind seed size :
  byte seed -> table_bytes fwdvecs ->
  hkstate_ok bwds -> hkstate_ok x0 -> hkstate_ok pix0 ->
  Forall (fun rep =>
    report_ok rep
    /\ exists i, flushed ind size (owned_before ind size mod 10001) i
                 /\ report_of fwdvecs seed i rep)
    (bwdsearch rc_main fwdvecs bwds x0 pix0 ind seed size).
Proof.
  intros Hseed Ht Hb Hx Hp. unfold bwdsearch.
  destruct (bwdsearch_loop_inv fwdvecs seed ind (Z.to_nat size) Hseed Ht _
              (bwd_worker_init_inv fwdvecs seed ind bwds x0 pix0 Hb Hx Hp))
    as [[_ [_ [Hbs [Hnum [_ Hout]]]]] Hi].
  revert Hbs Hnum Hout Hi.
  generalize (bwdsearch_loop (Z.to_nat size) rc_main fwdvecs ind seed
                (bwd_worker_init bwds x0 pix0)).
  intros w Hbs Hnum Hout Hi. cbn [bw_i bwd_worker_init] in Hi.
  revert Hout. apply Forall_impl. intros rep [R [i [Hf F]]].
  split; [exact R|]. exists i. split; [|exact F].
  pose proof (passed_range _ _ _ (proj1 Hf)) as Hind.
  destruct (Hnum Hind) as [Hle Hmod].
  assert (En : bw_i w = size) by (destruct Hf as [[Hlt _] _]; lia).
  rewrite En in Hf, Hle, Hmod.
  rewrite <- (buffered_count _ _ Hbs Hle Hmod). exact Hf.
Qed.

Lemma computefwd_output_bytes s ctx g3 g4 g5 dof :
  hkstate_ok s -> array_ok 8 ctx -> array_ok 20 g3 -> array_ok 16 g4 ->
  array_ok 12 g5 -> array_ok 4 dof ->
  Forall byte (snd (computefwd s ctx g3 g4 g5 dof)).
Proof.
  intros Hs H1 H2 H3 H4 H5.
  pose proof (computefwd_ok s ctx g3 g4 g5 dof Hs H1 H2 H3 H4 H5) as K.
  unfold computefwd in K |- *. cbv zeta in K |- *.
  revert K. generalize (computefwd_x5 s ctx g3 g4 g5 dof). intros x5.
  unfold computefwd_from_x5, fwd_fingerprint. cbv zeta. cbn [fst snd].
  match goal with |- hkstate_ok ?X -> _ => generalize X end. intros X K.
  repeat (apply Forall_cons; [auto 8 with hk|]). apply Forall_nil.
Qed.

Lemma fwd_entry_bytes seed j : byte seed -> Forall byte (fwd_entry seed j).
Proof.
  intros Hseed. destruct (guesses_ok seed Hseed) as [G1 [G2 [G3 G4]]].
  unfold fwd_entry, fwd_result. apply Forall_app. split.
  - apply (computefwd_output_bytes zero_state _ _ _ _ _ zero_state_ok G1 G2 G3 G4
             (dof_of_index_ok j)).
  - apply dof_of_index_ok.
Qed.

(** The records of a table built by the first phase are bytes. *)
Lemma phase1_table_bytes seed size c :
  byte seed -> phase1_sound seed size c -> table_bytes (fst c).
Proof.
  intros Hseed [_ HT] m0 m1 m2 r Hr.
  destruct (HT m0 m1 m2 r Hr) as [j [_ E]].
  pose proof (fwd_entry_bytes seed j Hseed) as F. rewrite <- E in F.
  inversion F as [|? ? _ F1]. inversion F1 as [|? ? _ F2]. inversion F2 as [|? ? _ F3].
  exact F3.
Qed.

Lemma shard_record_match (b vv dof : list Z) (m0 m1 m2 m3 : Z) :
  length b = 4%nat ->
  b.[0] :: b.[1] :: b.[2] :: vv = m0 :: m1 :: m2 :: m3 :: dof ->
  vv.[0] = b.[3] ->
  [m0; m1; m2; m3] = b /\ vv = m3 :: dof.
Proof.
  intros L. explode_list b L. unfold get. cbn [nth].
  intros E. injection E as -> -> -> ->. cbn [nth]. intros ->. split; reflexivity.
Qed.

Lemma record_dofs (m3 j : Z) :
  [(m3 :: dof_of_index j).[1]; (m3 :: dof_of_index j).[2];
   (m3 :: dof_of_index j).[3]; (m3 :: dof_of_index j).[4]] = dof_of_index j.
Proof. reflexivity. Qed.

(** X11. Whatever byte records the table holds, every report of a thread
    of the second phase is right: its x0 is a well-formed state, the
    feed-forward sum of the permutation of x0 and x0, with MIX, the
    diffusion and the row rotation undone, passes [printcond]; the report
    is flagged as a full solution exactly when that value passes
    [fullcond]; and the displayed sum is that value with the row rotation
    and MIX applied again. *)
Theorem bwdsearch_reports_right (fwdvecs : table_t) (bwds x0 pix0 : hkstate_t)
    (ind seed size : Z) :
  byte seed -> table_bytes fwdvecs ->
  hkstate_ok bwds -> hkstate_ok x0 -> hkstate_ok pix0 ->
  Forall report_ok (bwdsearch rc_main fwdvecs bwds x0 pix0 ind seed size).
Proof.
  intros Hseed Ht Hb Hx Hp.
  pose proof (bwdsearch_reports fwdvecs bwds x0 pix0 ind seed size Hseed Ht Hb Hx Hp) as H.
  revert H. apply Forall_impl. intros rep [R _]. exact R.
Qed.

(** X12. The two phases of [search] composed: on the table left by any
    interleaved run of the first phase over [size1] indices, every report
    of the thread [ind] of the second phase over [size2] indices comes from
    a forward index [j] below [size1] and a backward index [i] below
    [size2] owned by the thread, whose four fingerprint bytes agree, and
    the reported x0 is the recombination of the two. *)
Theorem search_reports_matched_pairs (seed size1 size2 ind : Z)
    (scratch : list hkstate_t) (c : phase1) (bwds x0 pix0 : hkstate_t) :
  byte seed -> Forall hkstate_ok scratch ->
  phase1_run seed size1 (phase1_init scratch) c ->
  hkstate_ok bwds -> hkstate_ok x0 -> hkstate_ok pix0 ->
  Forall (matched_pair seed ind size1 size2)
    (bwdsearch rc_main (fst c) bwds x0 pix0 ind seed size2).
Proof.
  intros Hseed Hsc Hrun Hb Hx Hp.
  pose proof (phase1_run_sound seed size1 _ c Hseed
                (phase1_init_sound seed size1 scratch Hsc) Hrun) as Hsound.
  pose proof (phase1_table_bytes seed size1 c Hseed Hsound) as Ht.
  destruct Hsound as [_ HT].
  pose proof (bwdsearch_reports (fst c) bwds x0 pix0 ind seed size2 Hseed Ht Hb Hx Hp) as H.
  revert H. apply Forall_impl.
  intros rep [_ [i [[[Hi Hm] _] [vv [Hvv [E Hr]]]]]].
  destruct (HT _ _ _ _ Hvv) as [j [Hj Ej]].
  destruct (fwd_entry_cons seed j) as [m0 [m1 [m2 [m3 [Ef Ee]]]]].
  destruct (bwd_result_ok seed i Hseed) as [L _].
  rewrite Ee in Ej.
  destruct (shard_record_match _ _ _ _ _ _ _ L Ej E) as [Eb Ev].
  exists j, i. split; [exact Hj|]. split; [exact Hi|]. split; [exact Hm|].
  split; [rewrite Ef; exact Eb|].
  rewrite Hr, Ev, record_dofs. reflexivity.
Qed.

(** X13. A thread of the second phase examines its buffered results only
    when more than 10000 of them have accumulated, and never after its
    loop.  So every report comes from one of the first [n - n mod 10001] of
    the [n] indices the thread owns in a sweep of [size] indices: the
    results of the last [n mod 10001] owned indices are never matched
    against the table. *)
Theorem bwdsearch_skips_buffered_tail (fwdvecs : table_t) (bwds x0 pix0 : hkstate_t)
    (ind seed size : Z) :
  byte seed -> table_bytes fwdvecs ->
  hkstate_ok bwds -> hkstate_ok x0 -> hkstate_ok pix0 ->
  Forall (fun rep =>
    exists i, 0 <= i < size /\ i mod 4 = ind
      /\ owned_before ind (i + 1)
           <= owned_before ind size - owned_before ind size mod 10001
      /\ report_of fwdvecs seed i rep)
    (bwdsearch rc_main fwdvecs bwds x0 pix0 ind seed size).
Proof.
  intros Hseed Ht Hb Hx Hp.
  pose proof (bwdsearch_reports fwdvecs bwds x0 pix0 ind seed size Hseed Ht Hb Hx Hp) as H.
  revert H. apply Forall_impl. intros rep [_ [i [[[Hi Hm] Hr] F]]].
  exists i. split; [exact Hi|]. split; [exact Hm|]. split; [exact Hr | exact F].
Qed.

(** ** The second phase misses nothing it has flushed *)

Section FoldMatchesComplete.

Variable f : bwd_worker -> list Z -> bwd_worker.
Variable seed : Z.
Hypothesis Hf : forall w v,
  hkstate_ok (bw_x0 w) -> hkstate_ok (bw_pix0 w) -> Forall byte v -> match_step f seed w v.

Lemma fold_matches_complete ms :
  Forall (Forall byte) ms ->
  forall w, hkstate_ok (bw_x0 w) -> hkstate_ok (bw_pix0 w) ->
  (forall rep, In rep (bw_out w) -> In rep (bw_out (fold_left f ms w)))
  /\ (forall v, In v ms ->
        printcond (feed_forward_target
                     (recombined seed [v.[0]; v.[1]; v.[2]; v.[3]]
                        [v.[4]; v.[5]; v.[6]; v.[7]])) = true ->
        exists rep, In rep (bw_out (fold_left f ms w))
          /\ rep_x0 rep = recombined seed [v.[0]; v.[1]; v.[2]; v.[3]]
                            [v.[4]; v.[5]; v.[6]; v.[7]]).
Proof.
  intros Hms. induction Hms as [|v0 ms Hv Hms IH]; intros w Hx Hp; cbn [fold_left].
  - split; [intros rep H; exact H | intros v []].
  - pose proof (Hf w v0 Hx Hp Hv) as E. unfold match_step in E. cbv zeta in E.
    revert E. generalize (f w v0). intros w1 E.
    destruct E as [E0 [E1 [E2 [_ [_ [_ E5]]]]]].
    assert (Hx' : hkstate_ok (bw_x0 w1)) by (rewrite E0; exact E1).
    destruct (IH w1 Hx' E2) as [Imono Icomp].
    split.
    + intros rep H. apply Imono. rewrite E5. apply in_or_app. left. exact H.
    + intros v [<-|Hin] Hpc; [|apply (Icomp v Hin Hpc)].
      revert E5 Hpc.
      generalize (recombined seed [v0.[0]; v0.[1]; v0.[2]; v0.[3]]
                    [v0.[4]; v0.[5]; v0.[6]; v0.[7]]).
      intros x0 E5 Hpc. rewrite Hpc in E5.
      revert E5. generalize (feed_forward_target x0). intros t E5.
      exists {| rep_full := fullcond t; rep_x0 := x0;
                rep_sum := mix512 (for_upto 4 (fun pix0 ii => on_lane pix0 ii shiftrows) t)
             |}.
      split; [|reflexivity].
      apply Imono. rewrite E5. apply in_or_app. right. left. reflexivity.
Qed.

End FoldMatchesComplete.

Lemma collect_matches_complete fwdvecs buffer v vv :
  In v buffer -> In vv (fwdvecs v.[0] v.[1] v.[2]) -> vv.[0] = v.[3] ->
  In [vv.[1]; vv.[2]; vv.[3]; vv.[4]; v.[4]; v.[5]; v.[6]; v.[7]]
     (collect_matches fwdvecs buffer).
Proof.
  intros Hv Hvv E. unfold collect_matches.
  apply in_flat_map. exists v. split; [exact Hv|].
  apply in_flat_map. exists vv. split; [exact Hvv|].
  apply Z.eqb_eq in E. rewrite E. left. reflexivity.
Qed.

Lemma match_dofs (a b c d e f g h : Z) :
  [[a; b; c; d; e; f; g; h].[0]; [a; b; c; d; e; f; g; h].[1];
   [a; b; c; d; e; f; g; h].[2]; [a; b; c; d; e; f; g; h].[3]] = [a; b; c; d]
  /\ [[a; b; c; d; e; f; g; h].[4]; [a; b; c; d; e; f; g; h].[5];
      [a; b; c; d; e; f; g; h].[6]; [a; b; c; d; e; f; g; h].[7]] = [e; f; g; h].
Proof. split; reflexivity. Qed.

(** Flushing reports every passing pair of a buffered result and a record
    of its shard, and keeps the earlier reports. *)
Lemma flush_matches_complete fwdvecs seed (P : Z -> Prop) w buffer :
  byte seed -> table_bytes fwdvecs ->
  hkstate_ok (bw_x0 w) -> hkstate_ok (bw_pix0 w) ->
  Forall (fun v => exists i, P i /\ v = bwd_entry seed i) buffer ->
  (forall rep, In rep (bw_out w) ->
     In rep (bw_out (fold_left (check_match rc_main seed)
                       (collect_matches fwdvecs buffer) w)))
  /\ (forall i vv,
        In (bwd_entry seed i) buffer ->
        In vv (fwdvecs (bwd_result seed i).[0] (bwd_result seed i).[1]
                       (bwd_result seed i).[2]) ->
        vv.[0] = (bwd_result seed i).[3] ->
        printcond (feed_forward_target
                     (recombined seed [vv.[1]; vv.[2]; vv.[3]; vv.[4]] (dof_of_index i)))
        = true ->
        exists rep,
          In rep (bw_out (fold_left (check_match rc_main seed)
                            (collect_matches fwdvecs buffer) w))
          /\ rep_x0 rep = recombined seed [vv.[1]; vv.[2]; vv.[3]; vv.[4]]
                            (dof_of_index i)).
Proof.
  intros Hseed Ht Hx Hp Hbuf.
  pose proof (collect_matches_ok fwdvecs seed P buffer Hseed Ht Hbuf) as Hms.
  assert (Hbytes : Forall (Forall byte) (collect_matches fwdvecs buffer)).
  { revert Hms. apply Forall_impl. intros mt [H _]. exact H. }
  destruct (fold_matches_complete (check_match rc_main seed) seed
              (fun w v => check_match_spec seed w v Hseed)
              (collect_matches fwdvecs buffer) Hbytes w Hx Hp) as [Hmono Hcomp].
  split; [exact Hmono|].
  intros i vv Hin Hvv E Hpc.
  destruct (bwd_entry_parts seed i Hseed) as [_ [E0 [E1 [E2 [E3 E4]]]]].
  rewrite <- E0, <- E1, <- E2 in Hvv. rewrite <- E3 in E.
  pose proof (collect_matches_complete fwdvecs buffer _ vv Hin Hvv E) as Hmt.
  revert Hmt.
  generalize ((bwd_entry seed i).[4]) ((bwd_entry seed i).[5])
             ((bwd_entry seed i).[6]) ((bwd_entry seed i).[7]) E4.
  intros e4 e5 e6 e7 E4' Hmt.
  pose proof (Hcomp _ Hmt) as Hc.
  destruct (match_dofs vv.[1] vv.[2] vv.[3] vv.[4] e4 e5 e6 e7) as [D1 D2].
  rewrite D1, D2, E4' in Hc. exact (Hc Hpc).
Qed.

Lemma owns_false ind n : 0 <= n -> owns ind n = false -> n mod 4 <> ind.
Proof.
  intros Hn Ho Hm. apply (owns_spec ind n Hn) in Hm. rewrite Hm in Ho. discriminate Ho.
Qed.

Lemma passed_step ind n i : passed ind (n + 1) i -> i = n \/ passed ind n i.
Proof.
  intros [H1 H2]. destruct (Z.eq_dec i n) as [E|E]; [left; exact E|].
  right. split; [lia | exact H2].
Qed.

Lemma passed_rank ind n i : passed ind n i -> owned_before ind (i + 1) <= owned_before ind n.
Proof. intros [H _]. apply owned_before_mono. lia. Qed.

Lemma bwdsearch_iter_complete fwdvecs seed ind w :
  byte seed -> table_bytes fwdvecs ->
  bwd_inv fwdvecs seed ind w -> bwd_complete fwdvecs seed ind w ->
  bwd_complete fwdvecs seed ind (bwdsearch_iter rc_main fwdvecs ind seed w).
Proof.
  intros Hseed Ht [Hi [[Hb [Hx Hp]] [Hbs [Hnum [Hbuf _]]]]] [C1 C2].
  destruct (guesses_ok seed Hseed) as [G1 [G2 [G3 G4]]].
  pose proof (entries_impl seed _ _ _ (fun i => passed_mono ind (bw_i w) (bw_i w + 1) i
                ltac:(lia)) Hbuf) as Hbuf'.
  unfold bwdsearch_iter. cbv zeta.
  destruct (owns ind (bw_i w)) eqn:Eo.
  - pose proof Eo as Em. apply owns_spec in Em; [|exact Hi].
    assert (Hind : 0 <= ind < 4) by (rewrite <- Em; apply Z.mod_pos_bound; lia).
    destruct (Hnum Hind) as [Hle Hmod].
    pose proof (owned_before_step ind (bw_i w) Hind Hi) as Hstep. rewrite Eo in Hstep.
    pose proof (bwd_buffered_entry (bw_bwds w) seed (bw_i w) Hb) as Hentry.
    cbv zeta in Hentry. revert Hentry.
    generalize (computebwd (bw_bwds w) (guesses_ctx seed) guesses_x3 guesses_x4
                  guesses_x5 (dof_of_index (bw_i w))).
    intros [bwds res]. cbn [fst snd]. intros ->.
    cbn [bw_i bw_bwds bw_x0 bw_pix0 bw_buffer bw_bufsize bw_count_pairs bw_out].
    assert (Hnew : Forall (fun v => exists i, passed ind (bw_i w + 1) i
                                     /\ v = bwd_entry seed i)
                     (bw_buffer w ++ [bwd_entry seed (bw_i w)])).
    { apply Forall_app. split; [exact Hbuf'|]. constructor; [|constructor].
      exists (bw_i w). split; [|reflexivity]. split; [lia | exact Em]. }
    assert (Hin : forall i, passed ind (bw_i w + 1) i ->
                    owned_before ind (bw_i w) - bw_bufsize w < owned_before ind (i + 1) ->
                    In (bwd_entry seed i) (bw_buffer w ++ [bwd_entry seed (bw_i w)])).
    { intros i Hpi Hr. apply in_or_app.
      destruct (passed_step ind _ i Hpi) as [->|Hpi']; [right; left; reflexivity|].
      left. apply C1. split; assumption. }
    revert Hnew Hin. generalize (bw_buffer w ++ [bwd_entry seed (bw_i w)]).
    intros buf Hnew Hin.
    destruct (bw_bufsize w + 1 >? 10000) eqn:Eb.
    + apply Z.gtb_lt in Eb.
      pose proof (fold_check_match seed (collect_matches fwdvecs buf) Hseed
                    ltac:(pose proof (collect_matches_ok fwdvecs seed _ buf Hseed Ht Hnew)
                            as K; revert K; apply Forall_impl; intros mt [K _]; exact K)
                    {| bw_i := bw_i w; bw_bwds := bwds; bw_x0 := bw_x0 w;
                       bw_pix0 := bw_pix0 w; bw_buffer := []; bw_bufsize := 0;
                       bw_count_pairs := bw_count_pairs w; bw_out := bw_out w |}
                    Hx Hp) as [_ [_ [_ [F4 [F5 _]]]]].
      pose proof (flush_matches_complete fwdvecs seed _
                    {| bw_i := bw_i w; bw_bwds := bwds; bw_x0 := bw_x0 w;
                       bw_pix0 := bw_pix0 w; bw_buffer := []; bw_bufsize := 0;
                       bw_count_pairs := bw_count_pairs w; bw_out := bw_out w |}
                    buf Hseed Ht Hx Hp Hnew) as [Fm Fc].
      revert F4 F5 Fm Fc.
      generalize (fold_left (check_match rc_main seed) (collect_matches fwdvecs buf)
                    {| bw_i := bw_i w; bw_bwds := bwds; bw_x0 := bw_x0 w;
                       bw_pix0 := bw_pix0 w; bw_buffer := []; bw_bufsize := 0;
                       bw_count_pairs := bw_count_pairs w; bw_out := bw_out w |}).
      intros w' F4 F5 Fm Fc.
      cbn [bw_i bw_bwds bw_x0 bw_pix0 bw_buffer bw_bufsize bw_count_pairs bw_out] in *.
      unfold bwd_complete.
      cbn [bw_i bw_bwds bw_x0 bw_pix0 bw_buffer bw_bufsize bw_count_pairs bw_out].
      rewrite F4, F5. split.
      * intros i [Hpi Hr]. pose proof (passed_rank _ _ _ Hpi). lia.
      * intros i vv [Hpi Hr] Hvv E Hpc.
        destruct (Z.le_gt_cases (owned_before ind (i + 1))
                    (owned_before ind (bw_i w) - bw_bufsize w)) as [Hold|Hnow].
        -- destruct (passed_step ind _ i Hpi) as [->|Hpi']; [lia|].
           destruct (C2 i vv (conj Hpi' Hold) Hvv E Hpc) as [rep [Hrep Hx0]].
           exists rep. split; [apply Fm, Hrep | exact Hx0].
        -- apply (Fc i vv); [apply Hin; [exact Hpi | lia] | exact Hvv | exact E | exact Hpc].
    + rewrite Z.gtb_ltb in Eb. apply Z.ltb_ge in Eb.
      unfold bwd_complete.
      cbn [bw_i bw_bwds bw_x0 bw_pix0 bw_buffer bw_bufsize bw_count_pairs bw_out].
      split.
      * intros i [Hpi Hr]. apply Hin; [exact Hpi | lia].
      * intros i vv [Hpi Hr] Hvv E Hpc.
        destruct (passed_step ind _ i Hpi) as [->|Hpi']; [lia|].
        apply (C2 i vv); [split; [exact Hpi' | lia] | exact Hvv | exact E | exact Hpc].
  - pose proof (owns_false ind (bw_i w) Hi Eo) as Hne.
    destruct (bw_bufsize w >? 10000) eqn:Eb; [apply Z.gtb_lt in Eb; lia|].
    unfold bwd_complete.
    cbn [bw_i bw_bwds bw_x0 bw_pix0 bw_buffer bw_bufsize bw_count_pairs bw_out].
    split.
    + intros i [Hpi Hr].
      destruct (passed_step ind _ i Hpi) as [->|Hpi']; [destruct Hpi as [_ Hm]; tauto|].
      pose proof (passed_range _ _ _ Hpi) as Hind.
      rewrite (owned_before_step ind (bw_i w) Hind Hi), Eo in Hr.
      apply C1. split; assumption.
    + intros i vv [Hpi Hr] Hvv E Hpc.
      destruct (passed_step ind _ i Hpi) as [->|Hpi']; [destruct Hpi as [_ Hm]; tauto|].
      pose proof (passed_range _ _ _ Hpi) as Hind.
      rewrite (owned_before_step ind (bw_i w) Hind Hi), Eo in Hr.
      apply (C2 i vv); [split; assumption | exact Hvv | exact E | exact Hpc].
Qed.

Lemma bwdsearch_loop_complete fwdvecs seed ind n :
  byte seed -> table_bytes fwdvecs ->
  forall w, bwd_inv fwdvecs seed ind w -> bwd_complete fwdvecs seed ind w ->
  bwd_complete fwdvecs seed ind (bwdsearch_loop n rc_main fwdvecs ind seed w).
Proof.
  intros Hseed Ht. induction n as [|n IH]; intros w Hw Hc; [exact Hc|].
  change (bwdsearch_loop (S n) rc_main fwdvecs ind seed w)
    with (bwdsearch_loop n rc_main fwdvecs ind seed
            (bwdsearch_iter rc_main fwdvecs ind seed w)).
  apply IH.
  - apply (bwdsearch_iter_inv fwdvecs seed ind w Hseed Ht Hw).
  - apply (bwdsearch_iter_complete fwdvecs seed ind w Hseed Ht Hw Hc).
Qed.

Lemma bwd_worker_init_complete fwdvecs seed ind bwds x0 pix0 :
  bwd_complete fwdvecs seed ind (bwd_worker_init bwds x0 pix0).
Proof.
  unfold bwd_complete, bwd_worker_init.
  cbn [bw_i bw_bwds bw_x0 bw_pix0 bw_buffer bw_bufsize bw_count_pairs bw_out].
  split.
  - intros i [[H _] _]. lia.
  - intros i vv [[H _] _]. lia.
Qed.

(** X21. The second phase misses nothing among what it has flushed: for an
    index [i] of the thread that is not among the last [n mod 10001] it
    owns, and a record of the shard selected by the backward fingerprint
    of [i] whose first byte is the fourth fingerprint byte, the recombined
    x0 of the pair is reported exactly when its feed-forward target passes
    [printcond]. *)
Theorem bwdsearch_reports_flushed_matches (fwdvecs : table_t) (bwds x0 pix0 : hkstate_t)
    (ind seed size i : Z) (vv : list Z) :
  byte seed -> table_bytes fwdvecs ->
  hkstate_ok bwds -> hkstate_ok x0 -> hkstate_ok pix0 ->
  0 <= i < size -> i mod 4 = ind ->
  owned_before ind (i + 1) <= owned_before ind size - owned_before ind size mod 10001 ->
  In vv (fwdvecs (bwd_result seed i).[0] (bwd_result seed i).[1]
                 (bwd_result seed i).[2]) ->
  vv.[0] = (bwd_result seed i).[3] ->
  (exists rep,
     In rep (bwdsearch rc_main fwdvecs bwds x0 pix0 ind seed size)
     /\ rep_x0 rep = recombined seed [vv.[1]; vv.[2]; vv.[3]; vv.[4]] (dof_of_index i))
  <-> printcond (feed_forward_target
                   (recombined seed [vv.[1]; vv.[2]; vv.[3]; vv.[4]] (dof_of_index i)))
      = true.
Proof.
  intros Hseed Ht Hb Hx Hp Hi Hm Hr Hvv E. split.
  - intros [rep [Hin Hx0]].
    pose proof (bwdsearch_reports fwdvecs bwds x0 pix0 ind seed size Hseed Ht Hb Hx Hp) as H.
    rewrite Forall_forall in H. destruct (H rep Hin) as [[_ [Hpc _]] _].
    rewrite Hx0 in Hpc. exact Hpc.
  - intros Hpc. unfold bwdsearch.
    pose proof (bwd_worker_init_inv fwdvecs seed ind bwds x0 pix0 Hb Hx Hp) as Hinv0.
    destruct (bwdsearch_loop_inv fwdvecs seed ind (Z.to_nat size) Hseed Ht _ Hinv0)
      as [[_ [_ [Hbs [Hnum _]]]] Hn].
    pose proof (bwdsearch_loop_complete fwdvecs seed ind (Z.to_nat size) Hseed Ht _ Hinv0
                  (bwd_worker_init_complete fwdvecs seed ind bwds x0 pix0)) as [_ C2].
    revert Hbs Hnum Hn C2.
    generalize (bwdsearch_loop (Z.to_nat size) rc_main fwdvecs ind seed
                  (bwd_worker_init bwds x0 pix0)).
    intros w Hbs Hnum Hn C2. cbn [bw_i bwd_worker_init] in Hn.
    assert (En : bw_i w = size) by lia.
    assert (Hind : 0 <= ind < 4) by (rewrite <- Hm; apply Z.mod_pos_bound; lia).
    destruct (Hnum Hind) as [Hle Hmod]. rewrite En in Hle, Hmod.
    pose proof (buffered_count _ _ Hbs Hle Hmod) as Ebs.
    apply (C2 i vv); [|exact Hvv | exact E | exact Hpc].
    rewrite En, Ebs. split; [split; [exact Hi | exact Hm] | exact Hr].
Qed.

(** ** The permutation and its inverse *)

Lemma invaesenc_all_aesenc_all (s : hkstate_t) (r : nat) :
  hkstate_ok s -> invaesenc_all (aesenc_all s r) r = s.
Proof.
  intros [L F].
  destruct s as [|s0 [|s1 [|s2 [|s3 [|]]]]]; try discriminate L.
  repeat (let K := fresh "K" in apply Forall_cons_iff in F; destruct F as [K F]).
  unfold aesenc_all, invaesenc_all, for_upto, on_lane, lane.
  cbn [seq fold_left set nth].
  rewrite !invaesenc_aesenc by assumption. reflexivity.
Qed.

Lemma double_round_ok s r r' :
  hkstate_ok s -> hkstate_ok (mix512 (aesenc_all (aesenc_all s r) r')).
Proof. intros H. apply mix512_ok, aesenc_all_ok, aesenc_all_ok, H. Qed.

Lemma inv_double_round_ok s r r' :
  hkstate_ok s -> hkstate_ok (invaesenc_all (invaesenc_all (invmix512 s) r') r).
Proof. intros H. apply invaesenc_all_ok, invaesenc_all_ok, invmix512_ok, H. Qed.

Lemma inv_double_round s r r' :
  hkstate_ok s ->
  invaesenc_all (invaesenc_all (invmix512 (mix512 (aesenc_all (aesenc_all s r) r'))) r') r
  = s.
Proof.
  intros H. pose proof (aesenc_all_ok r _ H) as H1.
  rewrite (invmix512_mix512 _ (hkstate_ok_shape _ (aesenc_all_ok r' _ H1))).
  rewrite (invaesenc_all_aesenc_all _ r' H1). apply (invaesenc_all_aesenc_all _ r H).
Qed.

Lemma double_round_inv s r r' :
  hkstate_ok s ->
  mix512 (aesenc_all (aesenc_all (invaesenc_all (invaesenc_all (invmix512 s) r') r) r) r')
  = s.
Proof.
  intros H. pose proof (invmix512_ok _ H) as H1.
  rewrite (aesenc_all_invaesenc_all _ r (invaesenc_all_ok r' _ H1)).
  rewrite (aesenc_all_invaesenc_all _ r' H1).
  apply (mix512_invmix512 _ (hkstate_ok_shape _ H)).
Qed.

Lemma invharaka512pi_rounds (s : hkstate_t) :
  invharaka512pi s =
  invaesenc_all (invaesenc_all (invmix512
  (invaesenc_all (invaesenc_all (invmix512
  (invaesenc_all (invaesenc_all (invmix512
  (invaesenc_all (invaesenc_all (invmix512
  (invaesenc_all (invaesenc_all (invmix512 s) 9) 8)) 7) 6)) 5) 4)) 3) 2)) 1) 0.
Proof.
  unfold invharaka512pi, for_upto. cbn [seq fold_left].
  cbn [Nat.modulo Nat.divmod Nat.eqb snd fst Nat.sub]. reflexivity.
Qed.

Lemma invharaka512pi_ok s : hkstate_ok s -> hkstate_ok (invharaka512pi s).
Proof.
  intros H. rewrite invharaka512pi_rounds.
  do 5 apply inv_double_round_ok. exact H.
Qed.

(** X14. The ten rounds are a permutation of the well-formed states: the
    inverse steps of the source, applied last round first, undo
    [haraka512pi], on either side. *)
Theorem haraka512pi_is_permutation (s : hkstate_t) :
  hkstate_ok s ->
  invharaka512pi (haraka512pi s) = s /\ haraka512pi (invharaka512pi s) = s.
Proof.
  intros H. split.
  - rewrite haraka512pi_rounds, invharaka512pi_rounds.
    pose proof (double_round_ok s 0 1 H) as H1.
    pose proof (double_round_ok _ 2 3 H1) as H2.
    pose proof (double_round_ok _ 4 5 H2) as H3.
    pose proof (double_round_ok _ 6 7 H3) as H4.
    rewrite (inv_double_round _ 8 9 H4), (inv_double_round _ 6 7 H3),
      (inv_double_round _ 4 5 H2), (inv_double_round _ 2 3 H1).
    apply (inv_double_round _ 0 1 H).
  - rewrite haraka512pi_rounds, invharaka512pi_rounds.
    pose proof (inv_double_round_ok s 8 9 H) as H1.
    pose proof (inv_double_round_ok _ 6 7 H1) as H2.
    pose proof (inv_double_round_ok _ 4 5 H2) as H3.
    pose proof (inv_double_round_ok _ 2 3 H3) as H4.
    rewrite (double_round_inv _ 0 1 H4), (double_round_inv _ 2 3 H3),
      (double_round_inv _ 4 5 H2), (double_round_inv _ 6 7 H1).
    apply (double_round_inv _ 8 9 H).
Qed.

Lemma haraka512pi_is_permutation_witness :
  invharaka512pi (haraka512pi sample_state) = sample_state
  /\ haraka512pi (invharaka512pi sample_state) = sample_state.
Proof. exact (haraka512pi_is_permutation sample_state sample_state_ok). Defined.

(** X15. For every choice of the guesses and of the two DegreesOfFreedom,
    matching or not, [compute_x0_pix0_from_choices] returns a well-formed
    state x0 together with its image under the permutation: the rounds 5..9
    done with the AES-NI code on x5 give the same bytes as the ten portable
    rounds on x0, and the rounds 0..4 lead from x0 to the state x5 that
    holds the guesses and both DegreesOfFreedom. *)
Theorem recombination_consistent (s pix0 : hkstate_t)
    (round2_match_through_mc x3_guesses x4_guesses x5_guesses fwddof bwddof : list Z) :
  hkstate_ok s -> length pix0 = 4%nat ->
  array_ok 8 round2_match_through_mc -> array_ok 20 x3_guesses ->
  array_ok 16 x4_guesses -> array_ok 12 x5_guesses ->
  array_ok 4 fwddof -> array_ok 4 bwddof ->
  let x0_pix0 :=
    compute_x0_pix0_from_choices rc_main s pix0 round2_match_through_mc
      x3_guesses x4_guesses x5_guesses fwddof bwddof in
  hkstate_ok (fst x0_pix0)
  /\ snd x0_pix0 = haraka512pi (fst x0_pix0)
  /\ x5_of_x0 (fst x0_pix0)
     = store_bwddof (computefwd_x5 s round2_match_through_mc
                       x3_guesses x4_guesses x5_guesses fwddof) bwddof.
Proof.
  intros Hs L Hc H3 H4 H5 Hf Hb x0_pix0.
  destruct (recombination_image s pix0 _ _ _ _ _ _ Hs L Hc H3 H4 H5 Hf Hb) as [Hok Himg].
  split; [exact Hok|]. split; [exact Himg|].
  unfold x0_pix0. rewrite compute_x0_pix0_fst. unfold x5_of_x0.
  apply rounds_0_4_of_x0.
  apply store_bwddof_ok; [|exact Hb]. apply computefwd_x5_ok; assumption.
Qed.

(** ** The two evaluators against the full rounds *)

(** X16. The forward evaluator computes only the lanes it needs, yet its
    fingerprint is the one read from the full state x8: for every value of
    the four backward DegreesOfFreedom bytes, the tuple written by
    [computefwd] is the forward fingerprint of the state reached by the
    full rounds 5, 6 and 7 from the complete x5. *)
Theorem computefwd_is_partial_evaluation (s : hkstate_t)
    (round2_match_through_mc x3_guesses x4_guesses x5_guesses fwddof bwddof : list Z) :
  hkstate_ok s ->
  array_ok 8 round2_match_through_mc -> array_ok 20 x3_guesses ->
  array_ok 16 x4_guesses -> array_ok 12 x5_guesses ->
  array_ok 4 fwddof -> length bwddof = 4%nat ->
  snd (computefwd s round2_match_through_mc x3_guesses x4_guesses x5_guesses fwddof)
  = snd (fwd_fingerprint (x8_of_x5
           (store_bwddof (computefwd_x5 s round2_match_through_mc
                            x3_guesses x4_guesses x5_guesses fwddof) bwddof))).
Proof.
  intros Hs Hc H3 H4 H5 Hf Lb.
  pose proof (computefwd_x5_ok s _ _ _ _ _ Hs Hc H3 H4 H5 Hf) as Hx5.
  unfold computefwd. cbv zeta.
  apply computefwd_from_x5_full; [apply hkstate_ok_shape, Hx5 | exact Lb].
Qed.

(** X17. The two fingerprints meet in the middle: read from the output of
    the permutation as [computebwd] reads it (MIX and round 9 undone on
    lane 2, the constant of round 8 removed), the fingerprint is the one
    [computefwd] reads from x8 in front of the diffusion of round 8. *)
Theorem fingerprints_meet (x8 : hkstate_t) :
  hkstate_ok x8 ->
  snd (bwd_fingerprint (mix512 (aesenc_all (aesenc_all x8 8) 9)))
  = snd (fwd_fingerprint x8).
Proof. apply bwd_fingerprint_of_output. Qed.

(** ** The share of each thread *)

Lemma worker_indices_step ind n :
  worker_indices ind (Z.of_nat (S n))
  = worker_indices ind (Z.of_nat n)
    ++ (if owns ind (Z.of_nat n) then [Z.of_nat n] else []).
Proof.
  unfold worker_indices. rewrite !Nat2Z.id.
  rewrite seq_S, map_app, filter_app. cbn [Nat.add map filter].
  destruct (owns ind (Z.of_nat n)); reflexivity.
Qed.

Lemma worker_indices_count_nat ind n :
  0 <= ind < 4 ->
  Z.of_nat (length (worker_indices ind (Z.of_nat n))) = owned_before ind (Z.of_nat n).
Proof.
  intros Hind. induction n as [|n IH].
  - unfold worker_indices, owned_before. cbn [Z.of_nat Z.to_nat seq map filter length].
    Z.div_mod_to_equations. lia.
  - rewrite worker_indices_step, length_app, Nat2Z.inj_add, IH.
    replace (Z.of_nat (S n)) with (Z.of_nat n + 1) by lia.
    rewrite (owned_before_step ind (Z.of_nat n) Hind) by lia.
    destruct (owns ind (Z.of_nat n)); cbn [length]; lia.
Qed.

(** ** The worker loops and the static partition *)

Lemma populatetable_iter_worker ind seed fwdvecs fwdvecs' w :
  snd (populatetable_iter ind seed fwdvecs w) = snd (populatetable_iter ind seed fwdvecs' w).
Proof.
  unfold populatetable_iter.
  destruct (owns ind (fw_i w)); [|reflexivity].
  destruct (computefwd (fw_fwds w) (guesses_ctx seed) guesses_x3 guesses_x4
              guesses_x5 (dof_of_index (fw_i w))) as [fwds res].
  destruct (fw_bufsize w + 1 >? 10000); reflexivity.
Qed.

Lemma populatetable_trace_S n ind seed fwdvecs w :
  populatetable_trace (S n) ind seed fwdvecs w
  = (if fw_bufsize (snd (populatetable_iter ind seed fwdvecs w)) =? fw_bufsize w
     then [] else [fw_i w])
    ++ populatetable_trace n ind seed (fst (populatetable_iter ind seed fwdvecs w))
         (snd (populatetable_iter ind seed fwdvecs w)).
Proof. reflexivity. Qed.

Lemma bwdsearch_trace_S n rc fwdvecs ind seed w :
  bwdsearch_trace (S n) rc fwdvecs ind seed w
  = (if bw_bufsize (bwdsearch_iter rc fwdvecs ind seed w) =? bw_bufsize w
     then [] else [bw_i w])
    ++ bwdsearch_trace n rc fwdvecs ind seed (bwdsearch_iter rc fwdvecs ind seed w).
Proof. reflexivity. Qed.

Lemma sweep_from a n :
  map (fun k => a + Z.of_nat k) (seq 0 (S n))
  = a :: map (fun k => a + 1 + Z.of_nat k) (seq 0 n).
Proof.
  cbn [seq map]. rewrite <- seq_shift, map_map.
  f_equal; [lia|]. apply map_ext. intros k. lia.
Qed.

Lemma populatetable_trace_spec n ind seed : forall fwdvecs w,
  populatetable_trace n ind seed fwdvecs w
  = filter (owns ind) (map (fun k => fw_i w + Z.of_nat k) (seq 0 n)).
Proof.
  induction n as [|n IH]; intros fwdvecs w; [reflexivity|].
  rewrite populatetable_trace_S, sweep_from. cbn [filter].
  pose proof (populatetable_iter_cases ind seed fwdvecs w) as H. cbv zeta in H.
  rewrite (IH (fst (populatetable_iter ind seed fwdvecs w))
              (snd (populatetable_iter ind seed fwdvecs w))).
  revert H. generalize (populatetable_iter ind seed fwdvecs w). intros r [Hi H].
  rewrite Hi.
  destruct H as [[Ho [_ [_ Hb]]] | [[Ho [_ [_ [Hb _]]]] | [Ho [Hgt [Hb _]]]]];
    rewrite Ho, Hb.
  - rewrite Z.eqb_refl. reflexivity.
  - replace (fw_bufsize w + 1 =? fw_bufsize w) with false
      by (symmetry; apply Z.eqb_neq; lia). reflexivity.
  - replace (0 =? fw_bufsize w) with false by (symmetry; apply Z.eqb_neq; lia).
    reflexivity.
Qed.

Lemma check_match_locals rc seed w v :
  bw_bufsize (check_match rc seed w v) = bw_bufsize w
  /\ bw_buffer (check_match rc seed w v) = bw_buffer w.
Proof.
  unfold check_match. cbv zeta.
  generalize (compute_x0_pix0_from_choices rc (bw_x0 w) (bw_pix0 w) (guesses_ctx seed)
                guesses_x3 guesses_x4 guesses_x5
                [v.[0]; v.[1]; v.[2]; v.[3]] [v.[4]; v.[5]; v.[6]; v.[7]]).
  intros [x0 pix0].
  match goal with |- context [if ?b then _ else _] => generalize b end.
  intros b. destruct b; split; reflexivity.
Qed.

Section FoldLocals.
Variables (A B : Type) (f : A -> B -> A) (g : A -> Z) (h : A -> list (list Z)).
Hypothesis f_locals : forall a b, g (f a b) = g a /\ h (f a b) = h a.

Lemma fold_locals (l : list B) : forall a,
  g (fold_left f l a) = g a /\ h (fold_left f l a) = h a.
Proof.
  induction l as [|b l IH]; intros a; [split; reflexivity|].
  cbn [fold_left]. destruct (IH (f a b)) as [I1 I2].
  destruct (f_locals a b) as [E1 E2].
  rewrite I1, I2, E1, E2. split; reflexivity.
Qed.
End FoldLocals.

Lemma fold_check_match_locals rc seed ms w :
  bw_bufsize (fold_left (check_match rc seed) ms w) = bw_bufsize w
  /\ bw_buffer (fold_left (check_match rc seed) ms w) = bw_buffer w.
Proof.
  exact (fold_locals _ _ (check_match rc seed) bw_bufsize bw_buffer
           (check_match_locals rc seed) ms w).
Qed.

Lemma populatetable_iter_at ind seed fwdvecs w :
  hkstate_ok (fw_fwds w) ->
  let r := populatetable_iter ind seed fwdvecs w in
  fw_i (snd r) = fw_i w + 1
  /\ (owns ind (fw_i w) = true ->
        (fw_bufsize w + 1 <= 10000 /\ fst r = fwdvecs
         /\ fw_buffer (snd r) = fw_buffer w ++ [fwd_entry seed (fw_i w)]
         /\ fw_bufsize (snd r) = fw_bufsize w + 1)
        \/ (fw_bufsize w + 1 > 10000
            /\ fst r = flush_buffer fwdvecs (fw_buffer w ++ [fwd_entry seed (fw_i w)])
            /\ fw_buffer (snd r) = [] /\ fw_bufsize (snd r) = 0))
  /\ (owns ind (fw_i w) = false ->
        r = (fwdvecs, {| fw_i := fw_i w + 1; fw_fwds := fw_fwds w;
                         fw_buffer := fw_buffer w; fw_bufsize := fw_bufsize w |})).
Proof.
  intros Hs.
  pose proof (buffered_entry (fw_fwds w) seed (fw_i w) Hs) as E. cbv zeta in E.
  cbv zeta. unfold populatetable_iter. revert E.
  destruct (owns ind (fw_i w)).
  - destruct (computefwd (fw_fwds w) (guesses_ctx seed) guesses_x3 guesses_x4
                guesses_x5 (dof_of_index (fw_i w))) as [fwds res].
    cbn [snd]. intros E. rewrite E.
    destruct (fw_bufsize w + 1 >? 10000) eqn:Eb; cbn [fst snd fw_i fw_buffer fw_bufsize].
    + split; [reflexivity|]. split; [|discriminate]. intros _. right.
      split; [lia|]. split; [reflexivity|]. split; reflexivity.
    + split; [reflexivity|]. split; [|discriminate]. intros _. left.
      split; [lia|]. split; [reflexivity|]. split; reflexivity.
  - intros _. cbn [fst snd fw_i]. split; [reflexivity|]. split; [discriminate|].
    intros _. reflexivity.
Qed.

Lemma bwdsearch_iter_at rc fwdvecs ind seed w :
  hkstate_ok (bw_bwds w) -> bw_bufsize w <= 10000 ->
  let w' := bwdsearch_iter rc fwdvecs ind seed w in
  bw_i w' = bw_i w + 1
  /\ (owns ind (bw_i w) = true ->
        (bw_bufsize w + 1 <= 10000
         /\ bw_buffer w' = bw_buffer w ++ [bwd_entry seed (bw_i w)]
         /\ bw_bufsize w' = bw_bufsize w + 1 /\ bw_out w' = bw_out w)
        \/ (bw_bufsize w + 1 > 10000
            /\ bw_buffer w' = [] /\ bw_bufsize w' = 0
            /\ bw_out w'
               = bw_out (fold_left (check_match rc seed)
                           (collect_matches fwdvecs
                              (bw_buffer w ++ [bwd_entry seed (bw_i w)]))
                           {| bw_i := bw_i w;
                              bw_bwds := fst (computebwd (bw_bwds w) (guesses_ctx seed)
                                                guesses_x3 guesses_x4 guesses_x5
                                                (dof_of_index (bw_i w)));
                              bw_x0 := bw_x0 w; bw_pix0 := bw_pix0 w;
                              bw_buffer := []; bw_bufsize := 0;
                              bw_count_pairs := bw_count_pairs w;
                              bw_out := bw_out w |})))
  /\ (owns ind (bw_i w) = false ->
        w' = {| bw_i := bw_i w + 1; bw_bwds := bw_bwds w; bw_x0 := bw_x0 w;
                bw_pix0 := bw_pix0 w; bw_buffer := bw_buffer w;
                bw_bufsize := bw_bufsize w; bw_count_pairs := bw_count_pairs w;
                bw_out := bw_out w |}).
Proof.
  intros Hs Hb.
  pose proof (bwd_buffered_entry (bw_bwds w) seed (bw_i w) Hs) as E. cbv zeta in E.
  cbv zeta. unfold bwdsearch_iter. cbv zeta. revert E.
  destruct (owns ind (bw_i w)).
  - destruct (computebwd (bw_bwds w) (guesses_ctx seed) guesses_x3 guesses_x4
                guesses_x5 (dof_of_index (bw_i w))) as [bwds res].
    cbn [fst snd]. intros E. rewrite E.
    cbn [bw_i bw_bwds bw_x0 bw_pix0 bw_buffer bw_bufsize bw_count_pairs bw_out].
    destruct (bw_bufsize w + 1 >? 10000) eqn:Eb.
    + match goal with |- context [fold_left ?f ?ms ?w0] =>
        destruct (fold_check_match_locals rc seed ms w0) as [F1 F2];
        revert F1 F2; generalize (fold_left f ms w0) end.
      intros wf F1 F2.
      cbn [bw_i bw_bwds bw_x0 bw_pix0 bw_buffer bw_bufsize bw_count_pairs bw_out] in *.
      split; [reflexivity|]. split; [|discriminate]. intros _. right.
      split; [lia|]. split; [exact F2|]. split; [exact F1|reflexivity].
    + cbn [bw_i bw_bwds bw_x0 bw_pix0 bw_buffer bw_bufsize bw_count_pairs bw_out].
      split; [reflexivity|]. split; [|discriminate]. intros _. left.
      split; [lia|]. split; [reflexivity|]. split; reflexivity.
  - intros _.
    replace (bw_bufsize w >? 10000) with false
      by (symmetry; rewrite Z.gtb_ltb; apply Z.ltb_ge; lia).
    cbn [bw_i]. split; [reflexivity|]. split; [discriminate|]. intros _. reflexivity.
Qed.

Lemma bwdsearch_iter_bufsize rc fwdvecs ind seed w :
  bw_bufsize w <= 10000 ->
  let w' := bwdsearch_iter rc fwdvecs ind seed w in
  bw_i w' = bw_i w + 1 /\ bw_bufsize w' <= 10000
  /\ (bw_bufsize w' =? bw_bufsize w) = negb (owns ind (bw_i w)).
Proof.
  intros Hb. cbv zeta. unfold bwdsearch_iter. cbv zeta.
  destruct (owns ind (bw_i w)).
  - destruct (computebwd (bw_bwds w) (guesses_ctx seed) guesses_x3 guesses_x4
                guesses_x5 (dof_of_index (bw_i w))) as [bwds res].
    cbn [bw_i bw_bwds bw_x0 bw_pix0 bw_buffer bw_bufsize bw_count_pairs bw_out].
    destruct (bw_bufsize w + 1 >? 10000) eqn:Eb.
    + match goal with |- context [fold_left ?f ?ms ?w0] =>
        destruct (fold_check_match_locals rc seed ms w0) as [F1 _];
        revert F1; generalize (fold_left f ms w0) end.
      intros wf F1.
      cbn [bw_i bw_bwds bw_x0 bw_pix0 bw_buffer bw_bufsize bw_count_pairs bw_out] in *.
      rewrite F1. split; [reflexivity|]. split; [lia|].
      apply Z.eqb_neq. lia.
    + cbn [bw_i bw_bwds bw_x0 bw_pix0 bw_buffer bw_bufsize bw_count_pairs bw_out].
      split; [reflexivity|]. rewrite Z.gtb_ltb in Eb. apply Z.ltb_ge in Eb.
      split; [lia|]. apply Z.eqb_neq. lia.
  - replace (bw_bufsize w >? 10000) with false
      by (symmetry; rewrite Z.gtb_ltb; apply Z.ltb_ge; lia).
    cbn [bw_i bw_bufsize]. split; [reflexivity|]. split; [exact Hb|].
    apply Z.eqb_refl.
Qed.

Lemma bwdsearch_trace_spec n rc fwdvecs ind seed : forall w,
  bw_bufsize w <= 10000 ->
  bwdsearch_trace n rc fwdvecs ind seed w
  = filter (owns ind) (map (fun k => bw_i w + Z.of_nat k) (seq 0 n)).
Proof.
  induction n as [|n IH]; intros w Hb; [reflexivity|].
  rewrite bwdsearch_trace_S, sweep_from. cbn [filter].
  pose proof (bwdsearch_iter_bufsize rc fwdvecs ind seed w Hb) as H. cbv zeta in H.
  revert H. generalize (bwdsearch_iter rc fwdvecs ind seed w). intros w' [Hi [Hb' Ht]].
  rewrite (IH w' Hb'), Hi, Ht.
  destruct (owns ind (bw_i w)); reflexivity.
Qed.

Lemma sweep_from_zero n :
  map (fun k => 0 + Z.of_nat k) (seq 0 n) = map Z.of_nat (seq 0 n).
Proof. apply map_ext. intros k. lia. Qed.

Lemma populatetable_trace_init ind seed size fwdvecs fwds :
  populatetable_trace (Z.to_nat size) ind seed fwdvecs (fwd_worker_init fwds)
  = worker_indices ind size.
Proof.
  rewrite populatetable_trace_spec. cbn [fwd_worker_init fw_i].
  rewrite sweep_from_zero. reflexivity.
Qed.

Lemma bwdsearch_trace_init rc ind seed size fwdvecs bwds x0 pix0 :
  bwdsearch_trace (Z.to_nat size) rc fwdvecs ind seed (bwd_worker_init bwds x0 pix0)
  = worker_indices ind size.
Proof.
  rewrite bwdsearch_trace_spec by (cbn [bwd_worker_init bw_bufsize]; lia).
  cbn [bwd_worker_init bw_i]. rewrite sweep_from_zero. reflexivity.
Qed.

Lemma worker_indices_length ind size :
  0 <= ind < 4 -> 0 <= size ->
  Z.of_nat (length (worker_indices ind size)) = (size + 3 - ind) / 4.
Proof.
  intros Hind Hs. rewrite <- (Z2Nat.id size Hs) at 1.
  rewrite (worker_indices_count_nat ind _ Hind), Z2Nat.id by exact Hs. reflexivity.
Qed.

(** C7. Over a sweep of [size] indices (the 2^29 of [populatetable], the
    2^32 - 1 of [bwdsearch]) the loop of the forward thread [ind] and the
    loop of the backward thread [ind], run from their start, evaluate
    exactly at the indices of [worker_indices ind size], in this order.
    Every index [i] of the sweep is among those of the thread [i mod 4] and
    of no other thread, no thread has an index twice or one outside the
    sweep, and distinct indices give distinct DegreesOfFreedom values.  At
    the index [i] itself, whatever the table holds and whatever the thread
    has buffered, the loop body of the thread [i mod 4] pushes the evaluator
    result of [dof_of_index i], which either stays in its buffer or is
    flushed with the whole buffer (into the table in [populatetable], to the
    matching in [bwdsearch]); the loop body of every other thread only moves
    on to [i + 1], leaving table, buffer, counters and scratch state as
    they were. *)
Theorem workers_partition (seed size i : Z) :
  0 <= i < size -> size <= 2 ^ 32 ->
  (forall ind fwdvecs fwds,
     populatetable_trace (Z.to_nat size) ind seed fwdvecs (fwd_worker_init fwds)
     = worker_indices ind size)
  /\ (forall ind fwdvecs bwds x0 pix0,
        bwdsearch_trace (Z.to_nat size) rc_main fwdvecs ind seed
          (bwd_worker_init bwds x0 pix0)
        = worker_indices ind size)
  /\ In i (worker_indices (i mod 4) size)
  /\ (forall ind, In i (worker_indices ind size) -> ind = i mod 4)
  /\ (forall ind, NoDup (worker_indices ind size))
  /\ (forall ind j, In j (worker_indices ind size) -> 0 <= j < size)
  /\ (forall j, 0 <= j < size -> dof_of_index j = dof_of_index i -> j = i)
  /\ (forall ind fwdvecs w,
        fw_i w = i -> hkstate_ok (fw_fwds w) ->
        let r := populatetable_iter ind seed fwdvecs w in
        fw_i (snd r) = i + 1
        /\ (ind = i mod 4 ->
              (fw_bufsize w + 1 <= 10000 /\ fst r = fwdvecs
               /\ fw_buffer (snd r) = fw_buffer w ++ [fwd_entry seed i]
               /\ fw_bufsize (snd r) = fw_bufsize w + 1)
              \/ (fw_bufsize w + 1 > 10000
                  /\ fst r = flush_buffer fwdvecs (fw_buffer w ++ [fwd_entry seed i])
                  /\ fw_buffer (snd r) = [] /\ fw_bufsize (snd r) = 0))
        /\ (ind <> i mod 4 ->
              r = (fwdvecs, {| fw_i := i + 1; fw_fwds := fw_fwds w;
                               fw_buffer := fw_buffer w;
                               fw_bufsize := fw_bufsize w |})))
  /\ (forall ind fwdvecs w,
        bw_i w = i -> hkstate_ok (bw_bwds w) -> bw_bufsize w <= 10000 ->
        let w' := bwdsearch_iter rc_main fwdvecs ind seed w in
        bw_i w' = i + 1
        /\ (ind = i mod 4 ->
              (bw_bufsize w + 1 <= 10000
               /\ bw_buffer w' = bw_buffer w ++ [bwd_entry seed i]
               /\ bw_bufsize w' = bw_bufsize w + 1 /\ bw_out w' = bw_out w)
              \/ (bw_bufsize w + 1 > 10000
                  /\ bw_buffer w' = [] /\ bw_bufsize w' = 0
                  /\ bw_out w'
                     = bw_out (fold_left (check_match rc_main seed)
                                 (collect_matches fwdvecs
                                    (bw_buffer w ++ [bwd_entry seed i]))
                                 {| bw_i := i;
                                    bw_bwds :=
                                      fst (computebwd (bw_bwds w) (guesses_ctx seed)
                                             guesses_x3 guesses_x4 guesses_x5
                                             (dof_of_index i));
                                    bw_x0 := bw_x0 w; bw_pix0 := bw_pix0 w;
                                    bw_buffer := []; bw_bufsize := 0;
                                    bw_count_pairs := bw_count_pairs w;
                                    bw_out := bw_out w |})))
        /\ (ind <> i mod 4 ->
              w' = {| bw_i := i + 1; bw_bwds := bw_bwds w; bw_x0 := bw_x0 w;
                      bw_pix0 := bw_pix0 w; bw_buffer := bw_buffer w;
                      bw_bufsize := bw_bufsize w;
                      bw_count_pairs := bw_count_pairs w;
                      bw_out := bw_out w |})).
Proof.
  intros Hi Hs.
  split; [intros ind fwdvecs fwds; apply populatetable_trace_init|].
  split; [intros ind fwdvecs bwds x0 pix0; apply bwdsearch_trace_init|].
  split; [apply worker_indices_spec; split; [exact Hi | reflexivity]|].
  split; [intros ind H; apply worker_indices_spec in H; symmetry; apply H|].
  split; [intros ind; apply worker_indices_NoDup|].
  split; [intros ind j H; apply worker_indices_spec in H; apply H|].
  split; [intros j Hj E; apply dof_of_index_inj; [lia | lia | exact E]|].
  split.
  - intros ind fwdvecs w Hw Hok.
    pose proof (populatetable_iter_at ind seed fwdvecs w Hok) as H. cbv zeta in H.
    rewrite Hw in H. cbv zeta.
    revert H. generalize (populatetable_iter ind seed fwdvecs w).
    intros r [H1 [H2 H3]].
    split; [exact H1|]. split.
    + intros E. apply H2. apply owns_spec; [lia | symmetry; exact E].
    + intros E. apply H3. destruct (owns ind i) eqn:Eo; [|reflexivity].
      apply owns_spec in Eo; [|lia]. exfalso. apply E. symmetry. exact Eo.
  - intros ind fwdvecs w Hw Hok Hb.
    pose proof (bwdsearch_iter_at rc_main fwdvecs ind seed w Hok Hb) as H. cbv zeta in H.
    rewrite Hw in H. cbv zeta.
    revert H. generalize (bwdsearch_iter rc_main fwdvecs ind seed w).
    intros w' [H1 [H2 H3]].
    split; [exact H1|]. split.
    + intros E. apply H2. apply owns_spec; [lia | symmetry; exact E].
    + intros E. apply H3. destruct (owns ind i) eqn:Eo; [|reflexivity].
      apply owns_spec in Eo; [|lia]. exfalso. apply E. symmetry. exact Eo.
Qed.


(** ** Agreement of two states on the bytes an evaluator knows *)

Lemma mask_at_mask_of f j i :
  mask_at (mask_of f) j i = true -> (j < 4)%nat /\ (i < 16)%nat /\ f j i = true.
Proof.
  unfold mask_at, mask_of. cbn [seq map Nat.add]. intros H.
  do 4 (destruct j as [|j];
        [cbn [nth] in H;
         do 16 (destruct i as [|i]; [split; [lia|]; split; [lia | exact H]|]);
         destruct i; discriminate H|]).
  cbn [nth] in H. destruct j; destruct i; discriminate H.
Qed.

Lemma mask_le_spec M' M j i :
  mask_le M' M = true -> (j < 4)%nat -> (i < 16)%nat ->
  mask_at M' j i = true -> mask_at M j i = true.
Proof.
  unfold mask_le. intros H Hj Hi Hm. rewrite forallb_forall in H.
  pose proof (H j ltac:(apply in_seq; lia)) as H1. rewrite forallb_forall in H1.
  pose proof (H1 i ltac:(apply in_seq; lia)) as H2. rewrite Hm in H2. exact H2.
Qed.

Lemma agree_refl M s : hkstate_ok s -> agree M s s.
Proof. intros H. split; [exact H|]. split; [exact H|]. reflexivity. Qed.

Lemma agree_sym M s t : agree M s t -> agree M t s.
Proof.
  intros [Hs [Ht H]]. split; [exact Ht|]. split; [exact Hs|].
  intros j i Hm. symmetry. apply H, Hm.
Qed.

Lemma agree_trans M s t u : agree M s t -> agree M t u -> agree M s u.
Proof.
  intros [Hs [Ht H]] [_ [Hu H']]. split; [exact Hs|]. split; [exact Hu|].
  intros j i Hm. rewrite (H j i Hm). apply H', Hm.
Qed.

Lemma mask_bounded_spec M j i :
  mask_bounded M = true -> mask_at M j i = true -> (j < 4)%nat /\ (i < 16)%nat.
Proof.
  unfold mask_bounded, mask_at. intros H Hm.
  apply andb_true_iff in H. destruct H as [H1 H2]. apply Nat.leb_le in H1.
  rewrite forallb_forall in H2.
  destruct (Nat.lt_ge_cases j (length M)) as [Lj|Lj].
  - pose proof (H2 _ (nth_In M [] Lj)) as H3. apply Nat.leb_le in H3.
    destruct (Nat.lt_ge_cases i (length (nth j M []))) as [Li|Li]; [lia|].
    rewrite (nth_overflow _ _ Li) in Hm. discriminate Hm.
  - rewrite (nth_overflow M [] Lj) in Hm. destruct i; discriminate Hm.
Qed.

Lemma agree_weaken M' M s t :
  mask_bounded M' = true -> mask_le M' M = true -> agree M s t -> agree M' s t.
Proof.
  intros Hb Hle [Hs [Ht H]]. split; [exact Hs|]. split; [exact Ht|].
  intros j i Hm. destruct (mask_bounded_spec M' j i Hb Hm) as [Hj Hi].
  apply H. apply (mask_le_spec _ _ j i Hle Hj Hi Hm).
Qed.

Lemma invmix512_positions (s : hkstate_t) (j i : nat) :
  shape s -> (j < 4)%nat -> (i < 16)%nat ->
  (invmix512 s).[j, i] = s.[fst (invmix512_src j i), snd (invmix512_src j i)].
Proof.
  intros H Hj Hi. explode_shape s H.
  do 4 (destruct j as [|j]; [do 16 (destruct i as [|i]; [reflexivity|]); lia|]). lia.
Qed.

Lemma agree_invmix512 M s t :
  agree M s t -> agree (mask_invmix512 M) (invmix512 s) (invmix512 t).
Proof.
  intros [Hs [Ht H]].
  split; [apply invmix512_ok, Hs|]. split; [apply invmix512_ok, Ht|].
  intros j i Hm. apply mask_at_mask_of in Hm. destruct Hm as [Hj [Hi Hm]].
  rewrite (invmix512_positions s j i (hkstate_ok_shape _ Hs) Hj Hi).
  rewrite (invmix512_positions t j i (hkstate_ok_shape _ Ht) Hj Hi).
  apply H, Hm.
Qed.

Lemma nth_set {A : Type} (a : list A) i j v d :
  (i < length a)%nat -> nth j (set a i v) d = if (j =? i)%nat then v else nth j a d.
Proof.
  revert i j. induction a as [|h t IH]; intros i j Hi; cbn [length] in Hi; [lia|].
  destruct i as [|i], j as [|j]; cbn [set nth Nat.eqb]; try reflexivity.
  apply IH. lia.
Qed.

Lemma lane_on_lane (s : hkstate_t) j j' f :
  (j < length s)%nat ->
  lane (on_lane s j f) j' = if (j' =? j)%nat then f (lane s j) else lane s j'.
Proof. intros H. unfold lane, on_lane. apply nth_set, H. Qed.

Lemma get2_set2 (s : hkstate_t) j i v j' i' :
  (j < length s)%nat -> (i < length (lane s j))%nat ->
  (s.[j, i <- v]).[j', i'] = if (j' =? j)%nat && (i' =? i)%nat then v else s.[j', i'].
Proof.
  intros Hj Hi. unfold get2, set2. fold (on_lane s j (fun l => l.[i <- v])).
  rewrite (lane_on_lane s j j' _ Hj).
  destruct (j' =? j)%nat eqn:E; cbn [andb]; [|reflexivity].
  apply Nat.eqb_eq in E. subst j'. unfold get. apply nth_set, Hi.
Qed.

Lemma lane_length (s : hkstate_t) j : hkstate_ok s -> (j < 4)%nat -> length (lane s j) = 16%nat.
Proof. intros H Hj. apply (lane_ok s j H Hj). Qed.

(** What [invaesenc] writes at [p] depends on one column of its argument. *)
Lemma invaesenc_local (l l' : state_t) (r j p : nat) :
  length l = 16%nat -> length l' = 16%nat -> (p < 16)%nat ->
  (forall k, (k < 4)%nat ->
     l.[4 * (invshiftrows_src p / 4) + k] = l'.[4 * (invshiftrows_src p / 4) + k]) ->
  (invaesenc l r j).[p] = (invaesenc l' r j).[p].
Proof.
  intros L L' Hp H. unfold invaesenc, invmcrc, rccon. generalize (4 * r + j)%nat. intros rk.
  explode_list l L. explode_list l' L'.
  do 16 (destruct p as [|p];
         [pose proof (H 0%nat ltac:(lia)) as H0; pose proof (H 1%nat ltac:(lia)) as H1;
          pose proof (H 2%nat ltac:(lia)) as H2; pose proof (H 3%nat ltac:(lia)) as H3;
          cbv in H0, H1, H2, H3; subst; reflexivity|]).
  lia.
Qed.

Lemma existsb_single j' j : existsb (Nat.eqb j') [j] = (j' =? j)%nat.
Proof. cbn [existsb]. apply orb_false_r. Qed.

Lemma agree_on_lane_invaesenc M s t r j :
  (j < 4)%nat -> agree M s t ->
  agree (mask_invaesenc M [j])
    (on_lane s j (fun l => invaesenc l r j)) (on_lane t j (fun l => invaesenc l r j)).
Proof.
  intros Hj [Hs [Ht H]].
  split; [apply on_lane_ok; [exact Hs | apply invaesenc_ok]|].
  split; [apply on_lane_ok; [exact Ht | apply invaesenc_ok]|].
  intros j' p Hm. apply mask_at_mask_of in Hm. destruct Hm as [Hj' [Hp Hm]].
  rewrite existsb_single in Hm.
  unfold get2. rewrite !lane_on_lane by (rewrite (proj1 Hs) || rewrite (proj1 Ht); exact Hj).
  destruct (j' =? j)%nat eqn:E.
  - apply Nat.eqb_eq in E. subst j'.
    apply invaesenc_local;
      [apply lane_length; assumption | apply lane_length; assumption | exact Hp |].
    intros k Hk. unfold col_known in Hm. rewrite forallb_forall in Hm.
    apply (H j), Hm, in_seq. lia.
  - apply (H j' p Hm).
Qed.

Lemma agree_invaesenc_all M s t r :
  agree M s t -> agree (mask_invaesenc_all M) (invaesenc_all s r) (invaesenc_all t r).
Proof.
  intros H. unfold mask_invaesenc_all, invaesenc_all, for_upto. cbn [seq fold_left].
  apply agree_on_lane_invaesenc; [lia|]. apply agree_on_lane_invaesenc; [lia|].
  apply agree_on_lane_invaesenc; [lia|]. apply agree_on_lane_invaesenc; [lia|].
  exact H.
Qed.

Lemma agree_set2 M s t j i v :
  (j < 4)%nat -> (i < 16)%nat -> byte v -> agree M s t ->
  agree (mask_set M j i true) s.[j, i <- v] t.[j, i <- v].
Proof.
  intros Hj Hi Hv [Hs [Ht H]].
  split; [apply set2_ok; assumption|]. split; [apply set2_ok; assumption|].
  intros j' i' Hm. apply mask_at_mask_of in Hm. destruct Hm as [Hj' [Hi' Hm]].
  rewrite !get2_set2 by
    first [ rewrite (proj1 Hs); exact Hj | rewrite (proj1 Ht); exact Hj
          | rewrite lane_length by assumption; exact Hi ].
  destruct ((j' =? j)%nat && (i' =? i)%nat); [reflexivity | apply H, Hm].
Qed.

Lemma agree_set2_off M s t j i v :
  (j < 4)%nat -> (i < 16)%nat -> byte v -> agree M s t ->
  agree (mask_set M j i false) s.[j, i <- v] t.
Proof.
  intros Hj Hi Hv [Hs [Ht H]].
  split; [apply set2_ok; assumption|]. split; [exact Ht|].
  intros j' i' Hm. apply mask_at_mask_of in Hm. destruct Hm as [Hj' [Hi' Hm]].
  rewrite get2_set2 by
    first [ rewrite (proj1 Hs); exact Hj
          | rewrite lane_length by assumption; exact Hi ].
  destruct ((j' =? j)%nat && (i' =? i)%nat); [discriminate Hm | apply H, Hm].
Qed.

Lemma agree_lanes s t (lanes : list nat) :
  hkstate_ok s -> hkstate_ok t ->
  (forall j, In j lanes -> lane s j = lane t j) ->
  agree (mask_lanes lanes) s t.
Proof.
  intros Hs Ht H. split; [exact Hs|]. split; [exact Ht|].
  intros j i Hm. apply mask_at_mask_of in Hm. destruct Hm as [_ [_ Hm]].
  apply existsb_exists in Hm. destruct Hm as [j0 [Hin E]].
  apply Nat.eqb_eq in E. subst j0. unfold get2. rewrite (H j Hin). reflexivity.
Qed.

Lemma list_eq_get (a b : list Z) :
  length a = 16%nat -> length b = 16%nat ->
  (forall i, (i < 16)%nat -> a.[i] = b.[i]) -> a = b.
Proof.
  intros La Lb H. explode_list a La. explode_list b Lb.
  pose proof (H 0%nat ltac:(lia)). pose proof (H 1%nat ltac:(lia)).
  pose proof (H 2%nat ltac:(lia)). pose proof (H 3%nat ltac:(lia)).
  pose proof (H 4%nat ltac:(lia)). pose proof (H 5%nat ltac:(lia)).
  pose proof (H 6%nat ltac:(lia)). pose proof (H 7%nat ltac:(lia)).
  pose proof (H 8%nat ltac:(lia)). pose proof (H 9%nat ltac:(lia)).
  pose proof (H 10%nat ltac:(lia)). pose proof (H 11%nat ltac:(lia)).
  pose proof (H 12%nat ltac:(lia)). pose proof (H 13%nat ltac:(lia)).
  pose proof (H 14%nat ltac:(lia)). pose proof (H 15%nat ltac:(lia)).
  cbv [get nth] in *. congruence.
Qed.

Lemma mask_lanes_at M j i :
  mask_le (mask_lanes [j]) M = true -> (j < 4)%nat -> (i < 16)%nat -> mask_at M j i = true.
Proof.
  intros Hle Hj Hi. apply (mask_le_spec _ _ j i Hle Hj Hi).
  do 4 (destruct j as [|j]; [do 16 (destruct i as [|i]; [reflexivity|]); lia|]). lia.
Qed.

(** Agreement on a whole lane is equality of the lanes. *)
Lemma agree_lane M s t j :
  mask_le (mask_lanes [j]) M = true -> (j < 4)%nat -> agree M s t -> lane s j = lane t j.
Proof.
  intros Hle Hj [Hs [Ht H]].
  apply list_eq_get; [apply lane_length; assumption | apply lane_length; assumption|].
  intros i Hi. apply (H j i). apply mask_lanes_at; assumption.
Qed.

(** ** The match through the diffusion of round 2 *)

Lemma times9_times201 : forall x, byte x -> times9 (times201 x) = x ^^ times11 (times68 x).
Proof. byte_identity (fun x => times9 (times201 x) =? x ^^ times11 (times68 x)). Qed.

Lemma times9_times68 : forall x, byte x -> times9 (times68 x) = times11 (times201 x).
Proof. byte_identity (fun x => times9 (times68 x) =? times11 (times201 x)). Qed.

Lemma times9_times203 : forall x, byte x ->
  times9 (times203 x) = times14 x ^^ times11 (times71 x).
Proof.
  byte_identity (fun x => times9 (times203 x) =? times14 x ^^ times11 (times71 x)).
Qed.

Lemma times9_times71 : forall x, byte x ->
  times9 (times71 x) = times13 x ^^ times11 (times203 x).
Proof.
  byte_identity (fun x => times9 (times71 x) =? times13 x ^^ times11 (times203 x)).
Qed.

(** Normalises an equation between combinations in which the inverse
    diffusion meets the bytes the forward evaluator deduced. *)
Ltac gf_match :=
  rewrite ?times9_additive, ?times11_additive, ?times13_additive, ?times14_additive
    by auto 20 with hk;
  rewrite ?times9_times201, ?times9_times68, ?times9_times203, ?times9_times71
    by auto 20 with hk;
  xor_ring.

Lemma round2_lane0 (a l : state_t) (ctx dof : list Z) (p : nat) :
  state_ok a -> state_ok l -> array_ok 8 ctx -> array_ok 4 dof ->
  a.[3] = l.[3] -> a.[4] = l.[4] -> a.[9] = l.[9] -> a.[14] = l.[14] ->
  fwd_lane0 l ctx dof ->
  In p [4; 5; 6; 7; 12; 13; 14; 15]%nat ->
  (invsbsr (z2a_lane a ctx)).[p] = (invaesenc l 2 0).[p].
Proof.
  intros Ha Hl [Lc Fc] [Ld Fd] E3 E4 E9 E14 Hf Hp.
  explode_state a Ha. explode_state l Hl.
  explode_list ctx Lc. explode_list dof Ld.
  split_forall Fc. split_forall Fd.
  unfold fwd_lane0, rccon in Hf. cbv [get nth] in Hf, E3, E4, E9, E14.
  injection Hf as -> -> -> -> -> -> -> -> -> -> -> ->. subst.
  unfold invaesenc, invmcrc, z2a_lane, rccon.
  cbn [In] in Hp.
  repeat (destruct Hp as [<-|Hp]; [hk_eval; f_equal; gf_match|]).
  destruct Hp.
Qed.

(** ** The stores of the guessed bytes *)

Lemma agree_store_x4 M s t g :
  array_ok 16 g -> agree M s t ->
  agree (mask_sets M x4_positions true) (store_x4_guesses s g) (store_x4_guesses t g).
Proof.
  intros Hg H. unfold store_x4_guesses, mask_sets, x4_positions.
  cbv zeta. cbn [fold_left fst snd].
  do 16 (apply agree_set2; [lia | lia | eauto with hk |]). exact H.
Qed.

Lemma agree_store_x4_off M s t g :
  array_ok 16 g -> agree M s t ->
  agree (mask_sets M x4_positions false) (store_x4_guesses s g) t.
Proof.
  intros Hg H. unfold store_x4_guesses, mask_sets, x4_positions.
  cbv zeta. cbn [fold_left fst snd].
  do 16 (apply agree_set2_off; [lia | lia | eauto with hk |]). exact H.
Qed.

Lemma agree_store_x3 M s t g :
  array_ok 20 g -> agree M s t ->
  agree (mask_sets M x3_positions true) (store_x3_guesses s g) (store_x3_guesses t g).
Proof.
  intros Hg H. unfold store_x3_guesses, mask_sets, x3_positions.
  cbv zeta. cbn [fold_left fst snd].
  do 20 (apply agree_set2; [lia | lia | eauto with hk |]). exact H.
Qed.

Lemma set2_same (s : hkstate_t) j i v :
  shape s -> (j < 4)%nat -> (i < 16)%nat -> s.[j, i] = v -> s.[j, i <- v] = s.
Proof.
  intros H Hj Hi <-. explode_shape s H.
  do 4 (destruct j as [|j]; [do 16 (destruct i as [|i]; [reflexivity|]); lia|]). lia.
Qed.

Lemma set2_shape (s : hkstate_t) j i v : shape s -> shape s.[j, i <- v].
Proof.
  intros [L F]. unfold set2. split; [rewrite length_set; exact L|].
  apply Forall_set_nth with (f := fun l => l.[i <- v]); [exact F|].
  intros l Hl. rewrite length_set. exact Hl.
Qed.

(** A state that already holds the guessed bytes is left as it is. *)
Lemma store_x4_same (s : hkstate_t) g :
  shape s ->
  Forall (fun kp => s.[fst (snd kp), snd (snd kp)] = g.[fst kp])
    (combine (seq 0 16) x4_positions) ->
  store_x4_guesses s g = s.
Proof.
  intros Hs HF. unfold x4_positions in HF. cbn [seq combine Nat.add] in HF.
  repeat (let E := fresh "E" in apply Forall_cons_iff in HF; destruct HF as [E HF];
          cbn [fst snd] in E).
  unfold store_x4_guesses. cbv zeta.
  repeat match goal with
  | E : s.[?j, ?i] = ?v |- context [s.[?j, ?i <- ?v]] =>
      rewrite (set2_same s j i v Hs ltac:(lia) ltac:(lia) E)
  end.
  reflexivity.
Qed.

Lemma store_x3_same (s : hkstate_t) g :
  shape s ->
  Forall (fun kp => s.[fst (snd kp), snd (snd kp)] = g.[fst kp])
    (combine (seq 0 20) x3_positions) ->
  store_x3_guesses s g = s.
Proof.
  intros Hs HF. unfold x3_positions in HF. cbn [seq combine Nat.add] in HF.
  repeat (let E := fresh "E" in apply Forall_cons_iff in HF; destruct HF as [E HF];
          cbn [fst snd] in E).
  unfold store_x3_guesses. cbv zeta.
  repeat match goal with
  | E : s.[?j, ?i] = ?v |- context [s.[?j, ?i <- ?v]] =>
      rewrite (set2_same s j i v Hs ltac:(lia) ltac:(lia) E)
  end.
  reflexivity.
Qed.

(** What the stores leave at the positions they write. *)
Lemma store_x4_holds (s : hkstate_t) g :
  shape s ->
  Forall (fun kp => (store_x4_guesses s g).[fst (snd kp), snd (snd kp)] = g.[fst kp])
    (combine (seq 0 16) x4_positions).
Proof.
  intros H. explode_shape s H. unfold x4_positions. cbn [seq combine Nat.add].
  repeat (apply Forall_cons; [reflexivity|]). apply Forall_nil.
Qed.

Lemma store_x3_holds (s : hkstate_t) g :
  shape s ->
  Forall (fun kp => (store_x3_guesses s g).[fst (snd kp), snd (snd kp)] = g.[fst kp])
    (combine (seq 0 20) x3_positions).
Proof.
  intros H. explode_shape s H. unfold x3_positions. cbn [seq combine Nat.add].
  repeat (apply Forall_cons; [reflexivity|]). apply Forall_nil.
Qed.

(** A state that agrees with a freshly stored one on the stored positions
    absorbs the same stores. *)
Lemma store_x4_absorb M (t s : hkstate_t) g :
  agree M t (store_x4_guesses s g) -> shape s ->
  forallb (fun p => mask_at M (fst p) (snd p)) x4_positions = true ->
  store_x4_guesses t g = t.
Proof.
  intros [Ht [_ H]] Hs Hm. apply store_x4_same; [apply hkstate_ok_shape, Ht|].
  pose proof (store_x4_holds s g Hs) as HF.
  rewrite forallb_forall in Hm. rewrite Forall_forall in HF |- *.
  intros [k [j i]] Hin. rewrite <- (HF _ Hin). cbn [fst snd].
  apply H. apply (Hm (j, i)). apply (in_combine_r _ _ _ _ Hin).
Qed.

Lemma store_x3_absorb M (t s : hkstate_t) g :
  agree M t (store_x3_guesses s g) -> shape s ->
  forallb (fun p => mask_at M (fst p) (snd p)) x3_positions = true ->
  store_x3_guesses t g = t.
Proof.
  intros [Ht [_ H]] Hs Hm. apply store_x3_same; [apply hkstate_ok_shape, Ht|].
  pose proof (store_x3_holds s g Hs) as HF.
  rewrite forallb_forall in Hm. rewrite Forall_forall in HF |- *.
  intros [k [j i]] Hin. rewrite <- (HF _ Hin). cbn [fst snd].
  apply H. apply (Hm (j, i)). apply (in_combine_r _ _ _ _ Hin).
Qed.

(** ** The stages of the two evaluators *)

Lemma store_x3_idem (s : hkstate_t) g :
  hkstate_ok s -> array_ok 20 g ->
  store_x3_guesses (store_x3_guesses s g) g = store_x3_guesses s g.
Proof.
  intros Hs Hg. apply store_x3_same.
  - apply hkstate_ok_shape, store_x3_guesses_ok; assumption.
  - apply store_x3_holds, hkstate_ok_shape, Hs.
Qed.

(** [computefwd_x5] by stages: an x3 that holds the forward bytes of lane 0
    and the guesses, one full round and MIX, the guesses of x4, round 4 on
    the lanes 0, 1 and 3, and the guesses of x5. *)
Lemma computefwd_x5_stages s ctx g3 g4 g5 dof :
  hkstate_ok s -> array_ok 8 ctx -> array_ok 20 g3 -> array_ok 4 dof ->
  exists F3,
    hkstate_ok F3 /\ fwd_lane0 (lane F3 0) ctx dof /\ store_x3_guesses F3 g3 = F3
    /\ computefwd_x5 s ctx g3 g4 g5 dof
       = store_x5_guesses
           (on_lane (on_lane (on_lane
              (store_x4_guesses (mix512 (aesenc_all F3 3)) g4)
              0 (fun l => aesenc l 4 0)) 1 (fun l => aesenc l 4 1))
              3 (fun l => aesenc l 4 3)) g5.
Proof.
  intros Hs Hc H3 Hd. unfold computefwd_x5. cbv zeta.
  match goal with |- context [aesenc_all (store_x3_guesses ?Z g3) 3] =>
    assert (HZ : hkstate_ok Z)
      by (unfold rccon; do 12 (apply set2_ok; [|eauto 12 with hk]); exact Hs);
    assert (HL : fwd_lane0 (lane (store_x3_guesses Z g3) 0) ctx dof);
    [|exists (store_x3_guesses Z g3)]
  end.
  - clear HZ. destruct Hc as [Lc _]. destruct H3 as [L3 _]. destruct Hd as [Ld _].
    pose proof (hkstate_ok_shape _ Hs) as Hsh. clear Hs.
    explode_shape s Hsh. explode_list ctx Lc. explode_list g3 L3. explode_list dof Ld.
    unfold fwd_lane0. hk_eval. reflexivity.
  - split; [apply store_x3_guesses_ok; assumption|]. split; [exact HL|].
    split; [apply store_x3_idem; assumption | reflexivity].
Qed.

(** Undoing round 4 on the complete x5 gives back the lanes 0, 1 and 3 of
    the forward evaluator's x4, and in lane 2 what the backward evaluator
    computes from its own bytes. *)
Lemma true_x4_lanes (s F4 : hkstate_t) (g5 dof : list Z) :
  hkstate_ok s -> hkstate_ok F4 -> length g5 = 12%nat -> length dof = 4%nat ->
  let X5 := store_bwddof (store_x5_guesses
              (on_lane (on_lane (on_lane F4 0 (fun l => aesenc l 4 0))
                 1 (fun l => aesenc l 4 1)) 3 (fun l => aesenc l 4 3)) g5) dof in
  lane (invaesenc_all X5 4) 0 = lane F4 0
  /\ lane (invaesenc_all X5 4) 1 = lane F4 1
  /\ lane (invaesenc_all X5 4) 3 = lane F4 3
  /\ lane (invaesenc_all X5 4) 2
     = lane (on_lane (store_x5_guesses (store_bwddof s dof) g5) 2
               (fun l => invaesenc l 4 2)) 2.
Proof.
  intros Hs [L F] L5 Ld X5. subst X5.
  pose proof (hkstate_ok_shape _ Hs) as Hsh. clear Hs. explode_shape s Hsh.
  explode_list F4 L. split_forall F.
  match goal with K : state_ok ?c |- context [[_; _; ?c; _]] => explode_state c K end.
  explode_list g5 L5. explode_list dof Ld.
  lazy -[aesenc invaesenc].
  rewrite !invaesenc_aesenc by assumption.
  repeat split; reflexivity.
Qed.

Lemma lane_store_z2a (s : hkstate_t) ctx j :
  length s = 4%nat ->
  lane (store_z2a s ctx) j = if (j =? 0)%nat then z2a_lane (lane s 0) ctx else lane s j.
Proof.
  intros L. explode_list s L. unfold store_z2a, z2a_lane. cbv zeta.
  do 4 (destruct j as [|j]; [reflexivity|]). destruct j; reflexivity.
Qed.

Lemma store_z2a_ok s ctx : hkstate_ok s -> array_ok 8 ctx -> hkstate_ok (store_z2a s ctx).
Proof.
  intros Hs Hc. unfold store_z2a, rccon. cbv zeta.
  do 8 (apply set2_ok; [|eauto 12 with hk]). exact Hs.
Qed.

Lemma agree_round2_lane0 M s t ctx dof :
  agree M s t ->
  mask_at M 0 3 = true -> mask_at M 0 4 = true ->
  mask_at M 0 9 = true -> mask_at M 0 14 = true ->
  fwd_lane0 (lane t 0) ctx dof -> array_ok 8 ctx -> array_ok 4 dof ->
  agree (mask_round2_lane0 M)
    (on_lane (store_z2a s ctx) 0 invsbsr) (on_lane t 0 (fun l => invaesenc l 2 0)).
Proof.
  intros [Hs [Ht H]] M3 M4 M9 M14 Hf Hc Hd.
  pose proof (store_z2a_ok s ctx Hs Hc) as Hz.
  split; [apply on_lane_ok; [exact Hz | apply invsbsr_ok]|].
  split; [apply on_lane_ok; [exact Ht | apply invaesenc_ok]|].
  intros j i Hm. apply mask_at_mask_of in Hm. destruct Hm as [Hj [Hi Hm]].
  unfold get2.
  rewrite (lane_on_lane (store_z2a s ctx) 0 j) by (rewrite (proj1 Hz); lia).
  rewrite (lane_on_lane t 0 j) by (rewrite (proj1 Ht); lia).
  rewrite (lane_store_z2a s ctx j (proj1 Hs)).
  destruct (j =? 0)%nat eqn:E.
  - rewrite (lane_store_z2a s ctx 0 (proj1 Hs)). cbn [Nat.eqb].
    apply (round2_lane0 (lane s 0) (lane t 0) ctx dof i);
      try (apply lane_ok; [assumption | lia]); try assumption;
      try (apply (H 0%nat); assumption).
    apply existsb_exists in Hm. destruct Hm as [x [Hin Hx]].
    apply Nat.eqb_eq in Hx. subst x. exact Hin.
  - apply (H j i Hm).
Qed.

Lemma fwd_lane0_agree M (t f : hkstate_t) ctx dof :
  agree M t f ->
  forallb (fun i => mask_at M 0 i) [0; 1; 2; 5; 6; 7; 8; 10; 11; 12; 13; 15]%nat = true ->
  fwd_lane0 (lane f 0) ctx dof -> fwd_lane0 (lane t 0) ctx dof.
Proof.
  intros [_ [_ H]] Hm Hf. rewrite forallb_forall in Hm.
  unfold fwd_lane0 in Hf |- *. rewrite <- Hf.
  assert (E : forall i, In i [0; 1; 2; 5; 6; 7; 8; 10; 11; 12; 13; 15]%nat ->
                (lane t 0).[i] = (lane f 0).[i]).
  { intros i Hi. apply (H 0%nat i), Hm, Hi. }
  rewrite !E by (cbn [In]; tauto). reflexivity.
Qed.

Lemma bwd_last_rounds (s : hkstate_t) :
  length s = 4%nat ->
  let s' := on_lane (on_lane (on_lane (on_lane s 2 (fun l => invaesenc l 1 2))
                3 (fun l => invaesenc l 1 3)) 2 (fun l => invaesenc l 0 2))
                3 (fun l => invaesenc l 0 3) in
  lane s' 2 = invaesenc (invaesenc (lane s 2) 1 2) 0 2
  /\ lane s' 3 = invaesenc (invaesenc (lane s 3) 1 3) 0 3.
Proof.
  intros L. explode_list s L. cbv zeta. cbn [lane on_lane set nth]. split; reflexivity.
Qed.

Lemma true_last_rounds (s : hkstate_t) :
  length s = 4%nat ->
  lane (invaesenc_all (invaesenc_all s 1) 0) 2 = invaesenc (invaesenc (lane s 2) 1 2) 0 2
  /\ lane (invaesenc_all (invaesenc_all s 1) 0) 3
     = invaesenc (invaesenc (lane s 3) 1 3) 0 3.
Proof.
  intros L. explode_list s L. unfold invaesenc_all, for_upto.
  cbn [seq fold_left lane on_lane set nth]. split; reflexivity.
Qed.

Lemma computebwd_x0_stages s ctx g3 g4 g5 dof :
  computebwd_x0 s ctx g3 g4 g5 dof
  = on_lane (on_lane (on_lane (on_lane
      (invmix512
         (on_lane (on_lane (on_lane
            (on_lane
               (store_z2a
                  (store_x3_guesses
                     (invaesenc_all
                        (invmix512
                           (store_x4_guesses
                              (on_lane (store_x5_guesses (store_bwddof s dof) g5) 2
                                 (fun l => invaesenc l 4 2)) g4)) 3) g3) ctx)
               0 invsbsr)
            1 (fun l => invaesenc l 2 1)) 2 (fun l => invaesenc l 2 2))
            3 (fun l => invaesenc l 2 3)))
      2 (fun l => invaesenc l 1 2)) 3 (fun l => invaesenc l 1 3))
      2 (fun l => invaesenc l 0 2)) 3 (fun l => invaesenc l 0 3).
Proof.
  unfold computebwd_x0, store_z2a, for_upto. cbv zeta. cbn [seq fold_left Nat.add].
  reflexivity.
Qed.

(** ** The backward evaluator against the true inverse rounds *)

Lemma backward_agrees (s F3 : hkstate_t) (ctx g3 g4 g5 fwddof bwddof : list Z) :
  hkstate_ok s -> hkstate_ok F3 ->
  array_ok 8 ctx -> array_ok 20 g3 -> array_ok 16 g4 -> array_ok 12 g5 ->
  array_ok 4 fwddof -> array_ok 4 bwddof ->
  fwd_lane0 (lane F3 0) ctx fwddof -> store_x3_guesses F3 g3 = F3 ->
  let X5 := store_bwddof (store_x5_guesses
              (on_lane (on_lane (on_lane
                 (store_x4_guesses (mix512 (aesenc_all F3 3)) g4)
                 0 (fun l => aesenc l 4 0)) 1 (fun l => aesenc l 4 1))
                 3 (fun l => aesenc l 4 3)) g5) bwddof in
  let x0 := invaesenc_all (invaesenc_all (invmix512 (invaesenc_all (invaesenc_all
              (invmix512 (invaesenc_all X5 4)) 3) 2)) 1) 0 in
  lane (computebwd_x0 s ctx g3 g4 g5 bwddof) 2 = lane x0 2
  /\ lane (computebwd_x0 s ctx g3 g4 g5 bwddof) 3 = lane x0 3.
Proof.
  intros Hs HF3 Hc H3 H4 H5 Hf Hb Hl0 Hidem X5 x0. subst x0.
  rewrite computebwd_x0_stages.
  pose proof (mix512_ok _ (aesenc_all_ok 3 _ HF3)) as HM4.
  pose proof (store_x4_guesses_ok _ _ HM4 H4) as HF4.
  pose proof (true_x4_lanes s _ g5 bwddof Hs HF4 (proj1 H5) (proj1 Hb)) as HT4.
  cbv zeta in HT4. fold X5 in HT4.
  assert (HX5 : hkstate_ok X5).
  { unfold X5. apply store_bwddof_ok; [|exact Hb]. apply store_x5_guesses_ok; [|exact H5].
    do 3 (apply on_lane_ok; [|apply aesenc_ok]). exact HF4. }
  pose proof (invaesenc_all_ok 4 _ HX5) as HT4ok.
  assert (Hs3 : hkstate_ok (on_lane (store_x5_guesses (store_bwddof s bwddof) g5) 2
                              (fun l => invaesenc l 4 2))).
  { apply on_lane_ok; [|apply invaesenc_ok].
    apply store_x5_guesses_ok; [|exact H5]. apply store_bwddof_ok; assumption. }
  revert HT4 HT4ok Hs3.
  generalize (invaesenc_all X5 4).
  generalize (on_lane (store_x5_guesses (store_bwddof s bwddof) g5) 2
                (fun l => invaesenc l 4 2)).
  clear X5 HX5. intros s3 T4 [E0 [E1 [E3 E2]]] HT4ok Hs3.
  (* x4 *)
  assert (A1 : agree (mask_lanes [2]%nat) s3 T4).
  { apply agree_lanes; [exact Hs3 | exact HT4ok|].
    intros j [<-|[]]. symmetry. exact E2. }
  assert (A1' : agree (mask_lanes [0; 1; 3]%nat) T4
                  (store_x4_guesses (mix512 (aesenc_all F3 3)) g4)).
  { apply agree_lanes; [exact HT4ok | exact HF4|].
    intros j [<-|[<-|[<-|[]]]]; assumption. }
  assert (E4 : store_x4_guesses T4 g4 = T4).
  { apply (store_x4_absorb _ _ _ _ A1'); [apply hkstate_ok_shape, HM4|].
    vm_compute. reflexivity. }
  assert (A2 : agree mask_bwd_x4 (store_x4_guesses s3 g4) T4).
  { pose proof (agree_store_x4 _ _ _ g4 H4 A1) as A. rewrite E4 in A. exact A. }
  assert (A5 : agree mask_fwd_x4 T4 (mix512 (aesenc_all F3 3))).
  { apply (agree_trans _ _ (store_x4_guesses (mix512 (aesenc_all F3 3)) g4)).
    - apply (agree_weaken _ (mask_lanes [0; 1; 3]%nat));
        [vm_compute; reflexivity | vm_compute; reflexivity | exact A1'].
    - apply agree_store_x4_off; [exact H4 | apply agree_refl, HM4]. }
  clear E0 E1 E2 E3 A1 A1' E4 Hs3.
  (* x3 *)
  apply agree_invmix512, (agree_invaesenc_all _ _ _ 3) in A2.
  apply agree_invmix512, (agree_invaesenc_all _ _ _ 3) in A5.
  rewrite (invmix512_mix512 _ (hkstate_ok_shape _ (aesenc_all_ok 3 _ HF3))) in A5.
  rewrite (invaesenc_all_aesenc_all _ 3 HF3) in A5.
  fold mask_fwd_x3 in A5.
  revert A2 A5.
  generalize (invaesenc_all (invmix512 T4) 3).
  generalize (invaesenc_all (invmix512 (store_x4_guesses s3 g4)) 3).
  clear s3 T4 HT4ok HM4 HF4. intros s6 T3 A2 A5.
  assert (E3 : store_x3_guesses T3 g3 = T3).
  { rewrite <- Hidem in A5.
    apply (store_x3_absorb _ _ _ _ A5); [apply hkstate_ok_shape, HF3|].
    vm_compute. reflexivity. }
  assert (Hl0' : fwd_lane0 (lane T3 0) ctx fwddof).
  { apply (fwd_lane0_agree _ _ _ _ _ A5); [vm_compute; reflexivity | exact Hl0]. }
  assert (A6 : agree mask_bwd_x3 (store_x3_guesses s6 g3) T3).
  { pose proof (agree_store_x3 _ _ _ g3 H3 A2) as A. rewrite E3 in A. exact A. }
  clear A2 A5 E3 Hl0 Hidem HF3 F3.
  revert A6. generalize (store_x3_guesses s6 g3). clear s6. intros s7 A6.
  (* x2 *)
  pose proof (agree_round2_lane0 mask_bwd_x3 s7 T3 ctx fwddof A6
                ltac:(vm_compute; reflexivity) ltac:(vm_compute; reflexivity)
                ltac:(vm_compute; reflexivity) ltac:(vm_compute; reflexivity)
                Hl0' Hc Hf) as A7.
  apply (agree_on_lane_invaesenc _ _ _ 2 1 ltac:(lia)) in A7.
  apply (agree_on_lane_invaesenc _ _ _ 2 2 ltac:(lia)) in A7.
  apply (agree_on_lane_invaesenc _ _ _ 2 3 ltac:(lia)) in A7.
  fold mask_bwd_x2 in A7.
  change (on_lane (on_lane (on_lane (on_lane T3 0 (fun l => invaesenc l 2 0))
            1 (fun l => invaesenc l 2 1)) 2 (fun l => invaesenc l 2 2))
            3 (fun l => invaesenc l 2 3))
    with (invaesenc_all T3 2) in A7.
  apply agree_invmix512 in A7.
  revert A7.
  generalize (invmix512 (invaesenc_all T3 2)).
  generalize (invmix512
    (on_lane (on_lane (on_lane (on_lane (store_z2a s7 ctx) 0 invsbsr)
       1 (fun l => invaesenc l 2 1)) 2 (fun l => invaesenc l 2 2))
       3 (fun l => invaesenc l 2 3))).
  clear A6 Hl0' s7 T3. intros s11 T1 A7.
  (* x1 and x0, lanes 2 and 3 *)
  pose proof (agree_lane (mask_invmix512 mask_bwd_x2) s11 T1 2
                ltac:(vm_compute; reflexivity) ltac:(lia) A7) as L2.
  pose proof (agree_lane (mask_invmix512 mask_bwd_x2) s11 T1 3
                ltac:(vm_compute; reflexivity) ltac:(lia) A7) as L3.
  destruct A7 as [Hs11 [HT1 _]].
  destruct (bwd_last_rounds s11 (proj1 Hs11)) as [B2 B3]. cbv zeta in B2, B3.
  destruct (true_last_rounds T1 (proj1 HT1)) as [T2 T3].
  rewrite B2, B3, T2, T3, L2, L3. split; reflexivity.
Qed.

Lemma bwd_fingerprint_lanes23 (s t : hkstate_t) :
  shape s -> shape t -> lane s 2 = lane t 2 -> lane s 3 = lane t 3 ->
  snd (bwd_fingerprint s) = snd (bwd_fingerprint t).
Proof.
  intros Hs Ht E2 E3. explode_shape s Hs. explode_shape t Ht.
  cbv [lane nth] in E2, E3. inversion E2. inversion E3. subst.
  hk_eval. reflexivity.
Qed.

(** The backward evaluator against the recombined x0. *)
Lemma computebwd_partial (s s' pix : hkstate_t) (ctx g3 g4 g5 fwddof bwddof : list Z) :
  hkstate_ok s -> hkstate_ok s' ->
  array_ok 8 ctx -> array_ok 20 g3 -> array_ok 16 g4 -> array_ok 12 g5 ->
  array_ok 4 fwddof -> array_ok 4 bwddof ->
  hkstate_ok (fst (compute_x0_pix0_from_choices rc_main s' pix ctx g3 g4 g5 fwddof bwddof))
  /\ lane (computebwd_x0 s ctx g3 g4 g5 bwddof) 2
     = lane (fst (compute_x0_pix0_from_choices rc_main s' pix ctx g3 g4 g5
                    fwddof bwddof)) 2
  /\ lane (computebwd_x0 s ctx g3 g4 g5 bwddof) 3
     = lane (fst (compute_x0_pix0_from_choices rc_main s' pix ctx g3 g4 g5
                    fwddof bwddof)) 3
  /\ snd (computebwd s ctx g3 g4 g5 bwddof)
     = snd (bwd_fingerprint
              (fst (compute_x0_pix0_from_choices rc_main s' pix ctx g3 g4 g5
                      fwddof bwddof))).
Proof.
  intros Hs Hs' Hc H3 H4 H5 Hf Hb.
  pose proof (computebwd_x0_ok s _ _ _ _ _ Hs Hc H3 H4 H5 Hb) as Hbok.
  assert (Hx0 : hkstate_ok (fst (compute_x0_pix0_from_choices rc_main s' pix ctx g3 g4 g5
                                   fwddof bwddof))).
  { rewrite compute_x0_pix0_fst.
    apply invaesenc_all_ok, invaesenc_all_ok, invmix512_ok, invaesenc_all_ok,
      invaesenc_all_ok, invmix512_ok, invaesenc_all_ok.
    apply store_bwddof_ok; [|exact Hb]. apply computefwd_x5_ok; assumption. }
  assert (HL : lane (computebwd_x0 s ctx g3 g4 g5 bwddof) 2
               = lane (fst (compute_x0_pix0_from_choices rc_main s' pix ctx g3 g4 g5
                              fwddof bwddof)) 2
               /\ lane (computebwd_x0 s ctx g3 g4 g5 bwddof) 3
                  = lane (fst (compute_x0_pix0_from_choices rc_main s' pix ctx g3 g4 g5
                                 fwddof bwddof)) 3).
  { rewrite compute_x0_pix0_fst.
    destruct (computefwd_x5_stages s' ctx g3 g4 g5 fwddof Hs' Hc H3 Hf)
      as [F3 [HF3 [Hl0 [Hidem E5]]]].
    rewrite E5.
    exact (backward_agrees s F3 ctx g3 g4 g5 fwddof bwddof
             Hs HF3 Hc H3 H4 H5 Hf Hb Hl0 Hidem). }
  destruct HL as [L2 L3].
  split; [exact Hx0|]. split; [exact L2|]. split; [exact L3|].
  unfold computebwd. cbv zeta.
  apply bwd_fingerprint_lanes23;
    [apply hkstate_ok_shape, Hbok | apply hkstate_ok_shape, Hx0 | exact L2 | exact L3].
Qed.

(** The fingerprint read from the image of the recombined x0 is the one of
    the forward evaluator. *)
Lemma fingerprint_of_image (sf sx pix : hkstate_t) (ctx g3 g4 g5 fwddof bwddof : list Z) :
  hkstate_ok sf -> hkstate_ok sx -> hkstate_ok pix ->
  array_ok 8 ctx -> array_ok 20 g3 -> array_ok 16 g4 -> array_ok 12 g5 ->
  array_ok 4 fwddof -> array_ok 4 bwddof ->
  snd (bwd_fingerprint
         (haraka512pi
            (fst (compute_x0_pix0_from_choices rc_main sx pix ctx g3 g4 g5
                    fwddof bwddof))))
  = snd (computefwd sf ctx g3 g4 g5 fwddof).
Proof.
  intros Hsf Hsx Hpix Hc H3 H4 H5 Hf Hb.
  destruct (recombination_image sx pix ctx g3 g4 g5 fwddof bwddof
              Hsx (proj1 Hpix) Hc H3 H4 H5 Hf Hb) as [_ Himg].
  rewrite <- Himg.
  pose proof (computefwd_x5_ok sx _ _ _ _ _ Hsx Hc H3 H4 H5 Hf) as Hx5p.
  pose proof (store_bwddof_ok _ _ Hx5p Hb) as Hx5.
  rewrite (compute_x0_pix0_snd sx pix _ _ _ _ _ _ Hx5 (proj1 Hpix)).
  rewrite (bwd_fingerprint_of_output _ (x8_of_x5_ok _ Hx5)).
  rewrite (computefwd_scratch sf sx) by
    first [ apply hkstate_ok_shape; assumption
          | match goal with H : array_ok _ ?a |- length ?a = _ => exact (proj1 H) end ].
  unfold computefwd. cbv zeta.
  symmetry. apply computefwd_from_x5_full; [apply hkstate_ok_shape, Hx5p | exact (proj1 Hb)].
Qed.

(** X19. The backward evaluator computes only part of the state, yet what
    it computes is the truth: for every choice of the guesses and of the
    two DegreesOfFreedom, the lanes 2 and 3 it reaches are the lanes 2 and
    3 of the x0 that the recombination returns, and the tuple it writes is
    the fingerprint read from that x0. *)
Theorem computebwd_is_partial_evaluation (s s' pix : hkstate_t)
    (round2_match_through_mc x3_guesses x4_guesses x5_guesses fwddof bwddof : list Z) :
  hkstate_ok s -> hkstate_ok s' ->
  array_ok 8 round2_match_through_mc -> array_ok 20 x3_guesses ->
  array_ok 16 x4_guesses -> array_ok 12 x5_guesses ->
  array_ok 4 fwddof -> array_ok 4 bwddof ->
  let x0 := fst (compute_x0_pix0_from_choices rc_main s' pix round2_match_through_mc
                   x3_guesses x4_guesses x5_guesses fwddof bwddof) in
  lane (computebwd_x0 s round2_match_through_mc x3_guesses x4_guesses x5_guesses bwddof) 2
  = lane x0 2
  /\ lane (computebwd_x0 s round2_match_through_mc x3_guesses x4_guesses x5_guesses
             bwddof) 3
     = lane x0 3
  /\ snd (computebwd s round2_match_through_mc x3_guesses x4_guesses x5_guesses bwddof)
     = snd (bwd_fingerprint x0).
Proof.
  intros Hs Hs' Hc H3 H4 H5 Hf Hb x0.
  destruct (computebwd_partial s s' pix _ _ _ _ fwddof bwddof Hs Hs' Hc H3 H4 H5 Hf Hb)
    as [_ H].
  exact H.
Qed.

(** X20. What a match means.  For every choice of the guesses and of the
    two DegreesOfFreedom, the forward and the backward evaluator write the
    same tuple exactly when the permutation leaves the fingerprint of the
    recombined x0 unchanged: the fingerprint read from haraka512pi(x0) is
    the one read from x0. *)
Theorem match_iff_fingerprint_fixed (sf sb sx pix : hkstate_t)
    (round2_match_through_mc x3_guesses x4_guesses x5_guesses fwddof bwddof : list Z) :
  hkstate_ok sf -> hkstate_ok sb -> hkstate_ok sx -> hkstate_ok pix ->
  array_ok 8 round2_match_through_mc -> array_ok 20 x3_guesses ->
  array_ok 16 x4_guesses -> array_ok 12 x5_guesses ->
  array_ok 4 fwddof -> array_ok 4 bwddof ->
  let x0 := fst (compute_x0_pix0_from_choices rc_main sx pix round2_match_through_mc
                   x3_guesses x4_guesses x5_guesses fwddof bwddof) in
  snd (computefwd sf round2_match_through_mc x3_guesses x4_guesses x5_guesses fwddof)
  = snd (computebwd sb round2_match_through_mc x3_guesses x4_guesses x5_guesses bwddof)
  <-> snd (bwd_fingerprint (haraka512pi x0)) = snd (bwd_fingerprint x0).
Proof.
  intros Hsf Hsb Hsx Hpix Hc H3 H4 H5 Hf Hb x0.
  destruct (computebwd_partial sb sx pix _ _ _ _ fwddof bwddof Hsb Hsx Hc H3 H4 H5 Hf Hb)
    as [_ [_ [_ Eb]]].
  pose proof (fingerprint_of_image sf sx pix _ _ _ _ fwddof bwddof
                Hsf Hsx Hpix Hc H3 H4 H5 Hf Hb) as Ef.
  fold x0 in Eb, Ef. rewrite Eb, Ef. tauto.
Qed.

(** ** Instances on sample inputs, continued *)

Lemma sample_seed_byte : byte sample_seed.
Proof. unfold byte, sample_seed. lia. Qed.

Lemma sample_scratch_ok : Forall hkstate_ok sample_scratch.
Proof. unfold sample_scratch. repeat (apply Forall_cons; [exact zero_state_ok|]). apply Forall_nil. Qed.

Lemma sample_schedule_ok :
  schedule_ok sample_seed sample_sweep sample_schedule (phase1_init sample_scratch) = true.
Proof. lazy. reflexivity. Qed.

Lemma sample_final_joined : phase1_joinedb sample_sweep sample_final = true.
Proof. lazy. reflexivity. Qed.

Lemma sample_run :
  phase1_run sample_seed sample_sweep (phase1_init sample_scratch) sample_final.
Proof.
  exact (run_schedule_run sample_seed sample_sweep sample_schedule
           (phase1_init sample_scratch) sample_schedule_ok).
Qed.


(** A forward index and a backward index of the search whose fingerprints
    agree. *)
Lemma sample_match :
  snd (computefwd zero_state (guesses_ctx sample_seed) guesses_x3 guesses_x4 guesses_x5
         (dof_of_index 15643))
  = snd (computebwd sample_state (guesses_ctx sample_seed) guesses_x3 guesses_x4
           guesses_x5 (dof_of_index 34225)).
Proof. vm_compute. reflexivity. Qed.

Lemma match_soundness_witness :
  let x0_pix0 :=
    compute_x0_pix0_from_choices rc_main sample_state zero_state
      (guesses_ctx sample_seed) guesses_x3 guesses_x4 guesses_x5
      (dof_of_index 15643) (dof_of_index 34225) in
  haraka512pi (fst x0_pix0) = snd x0_pix0
  /\ snd (bwd_fingerprint (haraka512pi (fst x0_pix0)))
     = snd (computebwd sample_state (guesses_ctx sample_seed)
              guesses_x3 guesses_x4 guesses_x5 (dof_of_index 34225))
  /\ snd (bwd_fingerprint (haraka512pi (fst x0_pix0)))
     = snd (computefwd zero_state (guesses_ctx sample_seed)
              guesses_x3 guesses_x4 guesses_x5 (dof_of_index 15643)).
Proof.
  exact (match_soundness zero_state sample_state sample_state zero_state
           (guesses_ctx sample_seed) guesses_x3 guesses_x4 guesses_x5
           (dof_of_index 15643) (dof_of_index 34225)
           zero_state_ok sample_state_ok sample_state_ok zero_state_ok
           (proj1 (guesses_ok sample_seed sample_seed_byte))
           (proj1 (proj2 (guesses_ok sample_seed sample_seed_byte)))
           (proj1 (proj2 (proj2 (guesses_ok sample_seed sample_seed_byte))))
           (proj2 (proj2 (proj2 (guesses_ok sample_seed sample_seed_byte))))
           (dof_of_index_ok 15643) (dof_of_index_ok 34225) sample_match).
Defined.

Lemma table_records_genuine_witness :
  Forall (fun r => exists j, 0 <= j < sample_sweep
                   /\ (fwd_result sample_seed 0).[0] :: (fwd_result sample_seed 0).[1]
                      :: (fwd_result sample_seed 0).[2] :: r
                      = fwd_result sample_seed j ++ dof_of_index j)
         (fst sample_final (fwd_result sample_seed 0).[0] (fwd_result sample_seed 0).[1]
                           (fwd_result sample_seed 0).[2]).
Proof.
  exact (table_records_genuine sample_seed sample_sweep sample_scratch sample_final
           (fwd_result sample_seed 0).[0] (fwd_result sample_seed 0).[1]
           (fwd_result sample_seed 0).[2]
           sample_seed_byte sample_scratch_ok sample_run).
Defined.

Lemma flushed_records_present_witness : in_table (fst sample_final) sample_seed 0.
Proof.
  exact (flushed_records_present sample_seed sample_sweep sample_scratch sample_final 0
           sample_seed_byte eq_refl sample_scratch_ok sample_run
           (phase1_joinedb_spec sample_sweep sample_final sample_final_joined)
           ltac:(unfold sample_sweep; lia)
           ltac:(vm_compute; reflexivity)).
Defined.

Lemma search_reports_matched_pairs_witness :
  Forall (matched_pair sample_seed 2 sample_sweep 100000)
    (bwdsearch rc_main (fst sample_final) zero_state zero_state zero_state
       2 sample_seed 100000).
Proof.
  exact (search_reports_matched_pairs sample_seed sample_sweep 100000 2
           sample_scratch sample_final zero_state zero_state zero_state
           sample_seed_byte sample_scratch_ok sample_run
           zero_state_ok zero_state_ok zero_state_ok).
Defined.

Lemma recombination_consistent_witness :
  let x0_pix0 :=
    compute_x0_pix0_from_choices rc_main sample_state zero_state
      (guesses_ctx sample_seed) guesses_x3 guesses_x4 guesses_x5
      (dof_of_index 1) (dof_of_index 2) in
  hkstate_ok (fst x0_pix0)
  /\ snd x0_pix0 = haraka512pi (fst x0_pix0)
  /\ x5_of_x0 (fst x0_pix0)
     = store_bwddof (computefwd_x5 sample_state (guesses_ctx sample_seed)
                       guesses_x3 guesses_x4 guesses_x5 (dof_of_index 1))
         (dof_of_index 2).
Proof.
  exact (recombination_consistent sample_state zero_state
           (guesses_ctx sample_seed) guesses_x3 guesses_x4 guesses_x5
           (dof_of_index 1) (dof_of_index 2)
           sample_state_ok eq_refl
           (proj1 (guesses_ok sample_seed sample_seed_byte))
           (proj1 (proj2 (guesses_ok sample_seed sample_seed_byte)))
           (proj1 (proj2 (proj2 (guesses_ok sample_seed sample_seed_byte))))
           (proj2 (proj2 (proj2 (guesses_ok sample_seed sample_seed_byte))))
           (dof_of_index_ok 1) (dof_of_index_ok 2)).
Defined.

Lemma computefwd_is_partial_evaluation_witness :
  snd (computefwd sample_state (guesses_ctx sample_seed) guesses_x3 guesses_x4
         guesses_x5 (dof_of_index 1))
  = snd (fwd_fingerprint (x8_of_x5
           (store_bwddof (computefwd_x5 sample_state (guesses_ctx sample_seed)
                            guesses_x3 guesses_x4 guesses_x5 (dof_of_index 1))
              (dof_of_index 2)))).
Proof.
  exact (computefwd_is_partial_evaluation sample_state
           (guesses_ctx sample_seed) guesses_x3 guesses_x4 guesses_x5
           (dof_of_index 1) (dof_of_index 2)
           sample_state_ok
           (proj1 (guesses_ok sample_seed sample_seed_byte))
           (proj1 (proj2 (guesses_ok sample_seed sample_seed_byte)))
           (proj1 (proj2 (proj2 (guesses_ok sample_seed sample_seed_byte))))
           (proj2 (proj2 (proj2 (guesses_ok sample_seed sample_seed_byte))))
           (dof_of_index_ok 1) eq_refl).
Defined.

Lemma fingerprints_meet_witness :
  snd (bwd_fingerprint (mix512 (aesenc_all (aesenc_all sample_state 8) 9)))
  = snd (fwd_fingerprint sample_state).
Proof. exact (fingerprints_meet sample_state sample_state_ok). Defined.

Lemma computebwd_is_partial_evaluation_witness :
  let x0 := fst (compute_x0_pix0_from_choices rc_main sample_state zero_state
                   (guesses_ctx sample_seed) guesses_x3 guesses_x4 guesses_x5
                   (dof_of_index 1) (dof_of_index 2)) in
  lane (computebwd_x0 zero_state (guesses_ctx sample_seed) guesses_x3 guesses_x4
          guesses_x5 (dof_of_index 2)) 2
  = lane x0 2
  /\ lane (computebwd_x0 zero_state (guesses_ctx sample_seed) guesses_x3 guesses_x4
             guesses_x5 (dof_of_index 2)) 3
     = lane x0 3
  /\ snd (computebwd zero_state (guesses_ctx sample_seed) guesses_x3 guesses_x4
            guesses_x5 (dof_of_index 2))
     = snd (bwd_fingerprint x0).
Proof.
  exact (computebwd_is_partial_evaluation zero_state sample_state zero_state
           (guesses_ctx sample_seed) guesses_x3 guesses_x4 guesses_x5
           (dof_of_index 1) (dof_of_index 2)
           zero_state_ok sample_state_ok
           (proj1 (guesses_ok sample_seed sample_seed_byte))
           (proj1 (proj2 (guesses_ok sample_seed sample_seed_byte)))
           (proj1 (proj2 (proj2 (guesses_ok sample_seed sample_seed_byte))))
           (proj2 (proj2 (proj2 (guesses_ok sample_seed sample_seed_byte))))
           (dof_of_index_ok 1) (dof_of_index_ok 2)).
Defined.

Lemma match_iff_fingerprint_fixed_witness :
  let x0 := fst (compute_x0_pix0_from_choices rc_main sample_state zero_state
                   (guesses_ctx sample_seed) guesses_x3 guesses_x4 guesses_x5
                   (dof_of_index 15643) (dof_of_index 34225)) in
  snd (computefwd zero_state (guesses_ctx sample_seed) guesses_x3 guesses_x4
         guesses_x5 (dof_of_index 15643))
  = snd (computebwd sample_state (guesses_ctx sample_seed) guesses_x3 guesses_x4
           guesses_x5 (dof_of_index 34225))
  <-> snd (bwd_fingerprint (haraka512pi x0)) = snd (bwd_fingerprint x0).
Proof.
  exact (match_iff_fingerprint_fixed zero_state sample_state sample_state zero_state
           (guesses_ctx sample_seed) guesses_x3 guesses_x4 guesses_x5
           (dof_of_index 15643) (dof_of_index 34225)
           zero_state_ok sample_state_ok sample_state_ok zero_state_ok
           (proj1 (guesses_ok sample_seed sample_seed_byte))
           (proj1 (proj2 (guesses_ok sample_seed sample_seed_byte)))
           (proj1 (proj2 (proj2 (guesses_ok sample_seed sample_seed_byte))))
           (proj2 (proj2 (proj2 (guesses_ok sample_seed sample_seed_byte))))
           (dof_of_index_ok 15643) (dof_of_index_ok 34225)).
Defined.

Lemma sample_table_bytes : table_bytes sample_table.
Proof.
  intros m0 m1 m2 r [<-|[]]. unfold sample_record.
  apply Forall_cons; [apply get_byte, (bwd_result_ok sample_seed 0 sample_seed_byte)|].
  repeat (apply Forall_cons; [unfold byte; lia|]). apply Forall_nil.
Qed.

Lemma sample_table_has m0 m1 m2 : In sample_record (sample_table m0 m1 m2).
Proof. left. reflexivity. Qed.

Lemma sample_record_head : sample_record.[0] = (bwd_result sample_seed 0).[3].
Proof. reflexivity. Qed.

Lemma bwdsearch_reports_flushed_matches_witness :
  (exists rep,
     In rep (bwdsearch rc_main sample_table zero_state zero_state zero_state
               0 sample_seed sample_sweep)
     /\ rep_x0 rep
        = recombined sample_seed
            [sample_record.[1]; sample_record.[2]; sample_record.[3]; sample_record.[4]]
            (dof_of_index 0))
  <-> printcond (feed_forward_target
                   (recombined sample_seed
                      [sample_record.[1]; sample_record.[2]; sample_record.[3];
                       sample_record.[4]]
                      (dof_of_index 0)))
      = true.
Proof.
  exact (bwdsearch_reports_flushed_matches sample_table zero_state zero_state zero_state
           0 sample_seed sample_sweep 0 sample_record
           sample_seed_byte sample_table_bytes zero_state_ok zero_state_ok zero_state_ok
           ltac:(unfold sample_sweep; lia) eq_refl
           ltac:(vm_compute; discriminate)
           (sample_table_has _ _ _) sample_record_head).
Defined.

Lemma workers_partition_witness :
  0 <= 5 < size1 /\ size1 <= 2 ^ 32
  /\ (forall ind fwdvecs fwds,
        populatetable_trace (Z.to_nat size1) ind sample_seed fwdvecs (fwd_worker_init fwds)
        = worker_indices ind size1)
  /\ (forall ind fwdvecs bwds x0 pix0,
        bwdsearch_trace (Z.to_nat size1) rc_main fwdvecs ind sample_seed
          (bwd_worker_init bwds x0 pix0)
        = worker_indices ind size1)
  /\ In 5 (worker_indices (5 mod 4) size1)
  /\ (forall ind, In 5 (worker_indices ind size1) -> ind = 5 mod 4)
  /\ (forall ind, NoDup (worker_indices ind size1))
  /\ (forall ind j, In j (worker_indices ind size1) -> 0 <= j < size1)
  /\ (forall j, 0 <= j < size1 -> dof_of_index j = dof_of_index 5 -> j = 5)
  /\ (forall ind fwdvecs w,
        fw_i w = 5 -> hkstate_ok (fw_fwds w) ->
        let r := populatetable_iter ind sample_seed fwdvecs w in
        fw_i (snd r) = 5 + 1
        /\ (ind = 5 mod 4 ->
              (fw_bufsize w + 1 <= 10000 /\ fst r = fwdvecs
               /\ fw_buffer (snd r) = fw_buffer w ++ [fwd_entry sample_seed 5]
               /\ fw_bufsize (snd r) = fw_bufsize w + 1)
              \/ (fw_bufsize w + 1 > 10000
                  /\ fst r = flush_buffer fwdvecs
                               (fw_buffer w ++ [fwd_entry sample_seed 5])
                  /\ fw_buffer (snd r) = [] /\ fw_bufsize (snd r) = 0))
        /\ (ind <> 5 mod 4 ->
              r = (fwdvecs, {| fw_i := 5 + 1; fw_fwds := fw_fwds w;
                               fw_buffer := fw_buffer w;
                               fw_bufsize := fw_bufsize w |})))
  /\ (forall ind fwdvecs w,
        bw_i w = 5 -> hkstate_ok (bw_bwds w) -> bw_bufsize w <= 10000 ->
        let w' := bwdsearch_iter rc_main fwdvecs ind sample_seed w in
        bw_i w' = 5 + 1
        /\ (ind = 5 mod 4 ->
              (bw_bufsize w + 1 <= 10000
               /\ bw_buffer w' = bw_buffer w ++ [bwd_entry sample_seed 5]
               /\ bw_bufsize w' = bw_bufsize w + 1 /\ bw_out w' = bw_out w)
              \/ (bw_bufsize w + 1 > 10000
                  /\ bw_buffer w' = [] /\ bw_bufsize w' = 0
                  /\ bw_out w'
                     = bw_out (fold_left (check_match rc_main sample_seed)
                                 (collect_matches fwdvecs
                                    (bw_buffer w ++ [bwd_entry sample_seed 5]))
                                 {| bw_i := 5;
                                    bw_bwds :=
                                      fst (computebwd (bw_bwds w)
                                             (guesses_ctx sample_seed)
                                             guesses_x3 guesses_x4 guesses_x5
                                             (dof_of_index 5));
                                    bw_x0 := bw_x0 w; bw_pix0 := bw_pix0 w;
                                    bw_buffer := []; bw_bufsize := 0;
                                    bw_count_pairs := bw_count_pairs w;
                                    bw_out := bw_out w |})))
        /\ (ind <> 5 mod 4 ->
              w' = {| bw_i := 5 + 1; bw_bwds := bw_bwds w; bw_x0 := bw_x0 w;
                      bw_pix0 := bw_pix0 w; bw_buffer := bw_buffer w;
                      bw_bufsize := bw_bufsize w;
                      bw_count_pairs := bw_count_pairs w;
                      bw_out := bw_out w |})).
Proof.
  assert (H1 : 0 <= 5 < size1) by (unfold size1; cbn; lia).
  assert (H2 : size1 <= 2 ^ 32) by (unfold size1; cbn; lia).
  split; [exact H1|]. split; [exact H2|].
  exact (workers_partition sample_seed size1 5 H1 H2).
Defined.


Lemma bwdsearch_reports_right_witness :
  Forall report_ok
    (bwdsearch rc_main sample_table zero_state sample_state zero_state
       0 sample_seed sample_sweep).
Proof.
  exact (bwdsearch_reports_right sample_table zero_state sample_state zero_state
           0 sample_seed sample_sweep sample_seed_byte sample_table_bytes
           zero_state_ok sample_state_ok zero_state_ok).
Defined.

Lemma sample_tail_table_bytes : table_bytes sample_tail_table.
Proof.
  intros m0 m1 m2 r [<-|[<-|[]]].
  - unfold sample_record.
    apply Forall_cons; [apply get_byte, (bwd_result_ok sample_seed 0 sample_seed_byte)|].
    repeat (apply Forall_cons; [unfold byte; lia|]). apply Forall_nil.
  - unfold sample_tail_record.
    apply Forall_cons; [apply get_byte, (bwd_result_ok sample_seed 40004 sample_seed_byte)|].
    repeat (apply Forall_cons; [unfold byte; lia|]). apply Forall_nil.
Qed.

(** In the sample for the tail, the thread 0 owns 10002 indices: it flushes
    once, at the index 40000, and the index 40004 stays in its buffer,
    though every shard of the table holds a record with the fourth
    fingerprint byte of its result. *)
Lemma sample_tail_pending :
  buffered 0 sample_tail_sweep (owned_before 0 sample_tail_sweep mod 10001) 40004
  /\ flushed 0 sample_tail_sweep (owned_before 0 sample_tail_sweep mod 10001) 40000
  /\ (forall m0 m1 m2, In sample_tail_record (sample_tail_table m0 m1 m2))
  /\ sample_tail_record.[0] = (bwd_result sample_seed 40004).[3].
Proof.
  split; [|split; [|split]].
  - unfold buffered, passed, sample_tail_sweep, owned_before. vm_compute.
    repeat split; intro; discriminate.
  - unfold flushed, passed, sample_tail_sweep, owned_before. vm_compute.
    repeat split; intro; discriminate.
  - intros m0 m1 m2. right. left. reflexivity.
  - reflexivity.
Qed.

Lemma bwdsearch_skips_buffered_tail_witness :
  Forall (fun rep =>
    exists i, 0 <= i < sample_tail_sweep /\ i mod 4 = 0
      /\ owned_before 0 (i + 1)
           <= owned_before 0 sample_tail_sweep - owned_before 0 sample_tail_sweep mod 10001
      /\ report_of sample_tail_table sample_seed i rep)
    (bwdsearch rc_main sample_tail_table zero_state sample_state zero_state
       0 sample_seed sample_tail_sweep).
Proof.
  exact (bwdsearch_skips_buffered_tail sample_tail_table zero_state sample_state zero_state
           0 sample_seed sample_tail_sweep sample_seed_byte sample_tail_table_bytes
           zero_state_ok sample_state_ok zero_state_ok).
Defined.
